(** * govguidebot: the document validity checker

    A shallow embedding of [document_validity_checker.py] (classes
    [DocumentValidityChecker] and [DocumentAnalytics]) and the properties
    of its classification, validation, expiry and logging code.

    Python values are modelled as follows.
    - [str] is a list of Unicode code points ([N]); literals of the source
      are written [py "..."] and decoded from their UTF-8 bytes.
    - [int] is [Z].  A [float] is the rational number ([Q]) that the
      double denotes; every floating-point operation is the exact
      operation followed by rounding to the nearest double, ties to even
      ([float]), and a decimal constant of the source ([0.4], [0.25],
      [0.6], ...) is the double nearest to it.
    - A [dict] whose iteration order matters is an association list.
    - The [re] module is modelled by a backtracking matcher that returns
      the successes of a pattern in the priority order of the library
      (leftmost, greedy or lazy as written), so that the first success is
      the match the library reports.
    - The part of the Unicode database that the code reaches through
      [str.lower], [str.split], [\d], [\w], [\s] and [re.IGNORECASE] is
      fixed for ASCII and is a parameter (class [Unicode]) elsewhere. *)

From Stdlib Require Import List String Ascii Bool NArith ZArith QArith Qround Qpower
  Lia Lqa.
Import ListNotations.

Set Implicit Arguments.

(* ================================================================== *)
(** * Strings *)

Definition char := N.
Definition str := list char.

(** Source literals are UTF-8 in the file; [py] yields their code points. *)
Fixpoint utf8_decode (bs : list N) : str :=
  match bs with
  | [] => []
  | b0 :: t0 =>
    if (b0 <? 128)%N then b0 :: utf8_decode t0
    else match t0 with
    | [] => []
    | b1 :: t1 =>
      if (b0 <? 224)%N then ((b0 - 192) * 64 + (b1 - 128))%N :: utf8_decode t1
      else match t1 with
      | [] => []
      | b2 :: t2 =>
        if (b0 <? 240)%N
        then ((b0 - 224) * 4096 + (b1 - 128) * 64 + (b2 - 128))%N :: utf8_decode t2
        else match t2 with
        | [] => []
        | b3 :: t3 =>
          ((b0 - 240) * 262144 + (b1 - 128) * 4096 + (b2 - 128) * 64 + (b3 - 128))%N
            :: utf8_decode t3
        end
      end
    end
  end.

Definition py (s : string) : str :=
  utf8_decode (map N_of_ascii (list_ascii_of_string s)).

Definition ch (a : ascii) : char := N_of_ascii a.

Definition between (lo hi c : N) : bool := ((lo <=? c) && (c <=? hi))%N.

Definition ascii_tolower (c : char) : char :=
  if between 65 90 c then (c + 32)%N else c.

(** [len(s)] *)
Definition len (A : Type) (l : list A) : Z := Z.of_nat (List.length l).

Fixpoint str_eqb (a b : str) : bool :=
  match a, b with
  | [], [] => true
  | x :: a', y :: b' => (x =? y)%N && str_eqb a' b'
  | _, _ => false
  end.

(** [s.startswith(p)] *)
Fixpoint startswith (s p : str) : bool :=
  match p, s with
  | [], _ => true
  | x :: p', y :: s' => (x =? y)%N && startswith s' p'
  | _ :: _, [] => false
  end.

(** [sub in s] *)
Fixpoint contains (s sub : str) : bool :=
  startswith s sub ||
  match s with
  | [] => false
  | _ :: s' => contains s' sub
  end.

(** [sep.join(parts)] *)
Fixpoint join (sep : str) (parts : list str) : str :=
  match parts with
  | [] => []
  | [p] => p
  | p :: rest => p ++ sep ++ join sep rest
  end.

(** [any(f(x) for x in l)] and [sum(w for x in l if f(x))] *)
Definition any (A : Type) (f : A -> bool) (l : list A) : bool := existsb f l.

Definition sum_if (A : Type) (w : Z) (f : A -> bool) (l : list A) : Z :=
  fold_left (fun acc x => if f x then (acc + w)%Z else acc) l 0%Z.

(** Dictionaries in insertion order: [d[k] = v] and [d.get(k)]. *)
Fixpoint dict_set (V : Type) (d : list (str * V)) (k : str) (v : V) : list (str * V) :=
  match d with
  | [] => [(k, v)]
  | (k', v') :: d' =>
    if str_eqb k' k then (k', v) :: d' else (k', v') :: dict_set d' k v
  end.

Fixpoint dict_get (V : Type) (d : list (str * V)) (k : str) : option V :=
  match d with
  | [] => None
  | (k', v') :: d' => if str_eqb k' k then Some v' else dict_get d' k
  end.

(** ** The Unicode database

    What Python reads from the Unicode tables, for code points above
    ASCII.  Below 128 the behaviour is fixed by the definitions that
    follow the class. *)
Class Unicode := {
  (** [str.isspace], also the class [\s] *)
  uc_space : char -> bool;
  (** the value of a decimal digit (category Nd), the class [\d] *)
  uc_decimal : char -> option Z;
  (** [str.isalnum]; with the underscore, the class [\w] *)
  uc_alnum : char -> bool;
  (** the lower-case mapping of [str.lower], which may change length *)
  uc_lower : char -> str;
  (** the representative that [re.IGNORECASE] compares characters by *)
  uc_fold : char -> char
}.

Section UnicodeStrings.
Context {U : Unicode}.

Definition is_space (c : char) : bool :=
  if (c <? 128)%N then between 9 13 c || between 28 32 c else uc_space c.

Definition digit_value (c : char) : option Z :=
  if (c <? 128)%N
  then if between 48 57 c then Some (Z.of_N (c - 48)) else None
  else uc_decimal c.

Definition is_digit (c : char) : bool :=
  match digit_value c with Some _ => true | None => false end.

Definition is_word (c : char) : bool :=
  if (c <? 128)%N
  then between 48 57 c || between 65 90 c || between 97 122 c || (c =? 95)%N
  else uc_alnum c.

Definition fold_case (c : char) : char :=
  if (c <? 128)%N then ascii_tolower c else uc_fold c.

(** [s.lower()], character by character (the only context rule of
    [str.lower], the Greek final sigma, is outside every table of the
    source). *)
Definition lower_char (c : char) : str :=
  if (c <? 128)%N then [ascii_tolower c] else uc_lower c.

Definition lower (s : str) : str := flat_map lower_char s.

(** [s.strip()] *)
Fixpoint lstrip (s : str) : str :=
  match s with
  | [] => []
  | c :: t => if is_space c then lstrip t else s
  end.

Definition rstrip (s : str) : str := rev (lstrip (rev s)).

Definition strip (s : str) : str := rstrip (lstrip s).

(** [s.split()]: the maximal runs of non-whitespace characters. *)
Fixpoint split_acc (s : str) (cur : str) : list str :=
  match s with
  | [] => match cur with [] => [] | _ => [rev cur] end
  | c :: t =>
    if is_space c
    then match cur with [] => split_acc t [] | _ => rev cur :: split_acc t [] end
    else split_acc t (c :: cur)
  end.

Definition split (s : str) : list str := split_acc s [].

End UnicodeStrings.

(* ================================================================== *)
(** * Regular expressions (the [re] module)

    The syntax covers what the patterns of the source use: literals,
    [.], escapes ([\d \w \s \b], [\uXXXX], escaped punctuation), sets
    with ranges and negation, groups (capturing and [(?:...)]),
    alternation, and the quantifiers [* + ? {m} {m,} {m,n}] with their
    lazy forms. *)

Inductive category := CatDigit | CatWord | CatSpace.

Inductive cset_item :=
| CChar (c : char)
| CRange (lo hi : char)
| CCat (k : category).

Inductive regex :=
| Empty
| Lit (c : char)
| Dot
| InSet (negated : bool) (items : list cset_item)
| Boundary
| Cat (a b : regex)
| Alt (a b : regex)
| Repeat (lo : nat) (hi : option nat) (greedy : bool) (a : regex)
| Group (n : nat) (a : regex).

(** ** Parsing a pattern *)

Definition cat (a b : regex) : regex :=
  match b with Empty => a | _ => Cat a b end.

Fixpoint parse_nat (s : str) (acc : option nat) : option nat * str :=
  match s with
  | c :: t =>
    if between 48 57 c
    then parse_nat t (Some (match acc with Some n => 10 * n | None => 0 end
                            + N.to_nat (c - 48))%nat)
    else (acc, s)
  | [] => (acc, s)
  end.

Definition hex_value (c : char) : option N :=
  if between 48 57 c then Some (c - 48)%N
  else if between 65 70 c then Some (c - 55)%N
  else if between 97 102 c then Some (c - 87)%N
  else None.

Definition parse_hex4 (s : str) : option (char * str) :=
  match s with
  | a :: b :: c :: d :: t =>
    match hex_value a, hex_value b, hex_value c, hex_value d with
    | Some x, Some y, Some z, Some w => Some (x * 4096 + y * 256 + z * 16 + w, t)%N
    | _, _, _, _ => None
    end
  | _ => None
  end.

(** What follows a backslash: a class, or a literal character. *)
Definition parse_escape (s : str) : option ((category + char) * str) :=
  match s with
  | [] => None
  | e :: t =>
    if (e =? ch "d")%N then Some (inl CatDigit, t)
    else if (e =? ch "w")%N then Some (inl CatWord, t)
    else if (e =? ch "s")%N then Some (inl CatSpace, t)
    else if (e =? ch "u")%N then
      match parse_hex4 t with
      | Some (c, t') => Some (inr c, t')
      | None => None
      end
    else if between 48 57 e || between 65 90 e || between 97 122 e then None
    else Some (inr e, t)
  end.

Definition set_elem (s : str) : option ((category + char) * str) :=
  match s with
  | [] => None
  | c :: t => if (c =? ch "\")%N then parse_escape t else Some (inr c, t)
  end.

Fixpoint parse_items (fuel : nat) (s : str) (acc : list cset_item)
  : option (list cset_item * str) :=
  match fuel with
  | O => None
  | S f =>
    match s with
    | [] => None
    | c :: t =>
      if (c =? ch "]")%N then Some (rev acc, t)
      else
        match set_elem s with
        | None => None
        | Some (inl k, s1) => parse_items f s1 (CCat k :: acc)
        | Some (inr lo, s1) =>
          match s1 with
          | d :: s2 =>
            if (d =? ch "-")%N then
              match s2 with
              | e :: _ =>
                if (e =? ch "]")%N then parse_items f s1 (CChar lo :: acc)
                else
                  match set_elem s2 with
                  | Some (inr hi, s3) => parse_items f s3 (CRange lo hi :: acc)
                  | _ => None
                  end
              | [] => None
              end
            else parse_items f s1 (CChar lo :: acc)
          | [] => None
          end
        end
    end
  end.

Definition parse_set (s : str) : option (regex * str) :=
  let '(neg, s0) :=
    match s with
    | c :: t => if (c =? ch "^")%N then (true, t) else (false, s)
    | [] => (false, s)
    end in
  match parse_items (S (List.length s0)) s0 [] with
  | Some (items, rest) => Some (InSet neg items, rest)
  | None => None
  end.

(** A quantifier after an atom, if there is one. *)
Definition parse_lazy (s : str) : bool * str :=
  match s with
  | c :: t => if (c =? ch "?")%N then (false, t) else (true, s)
  | [] => (true, s)
  end.

Definition parse_quant (a : regex) (s : str) : option (regex * str) :=
  match s with
  | [] => Some (a, s)
  | c :: t =>
    if (c =? ch "*")%N then
      let '(g, r) := parse_lazy t in Some (Repeat 0 None g a, r)
    else if (c =? ch "+")%N then
      let '(g, r) := parse_lazy t in Some (Repeat 1 None g a, r)
    else if (c =? ch "?")%N then
      let '(g, r) := parse_lazy t in Some (Repeat 0 (Some 1%nat) g a, r)
    else if (c =? ch "{")%N then
      match parse_nat t None with
      | (Some lo, d :: t1) =>
        if (d =? ch "}")%N then
          let '(g, r) := parse_lazy t1 in Some (Repeat lo (Some lo) g a, r)
        else if (d =? ch ",")%N then
          match parse_nat t1 None with
          | (hi, e :: t2) =>
            if (e =? ch "}")%N then
              let '(g, r) := parse_lazy t2 in Some (Repeat lo hi g a, r)
            else None
          | _ => None
          end
        else None
      | _ => None
      end
    else Some (a, s)
  end.

Fixpoint parse_alt (fuel : nat) (s : str) (g : nat) : option (regex * str * nat) :=
  match fuel with
  | O => None
  | S f =>
    match parse_seq f s g with
    | None => None
    | Some (a, s1, g1) =>
      match s1 with
      | c :: s2 =>
        if (c =? ch "|")%N then
          match parse_alt f s2 g1 with
          | Some (b, s3, g3) => Some (Alt a b, s3, g3)
          | None => None
          end
        else Some (a, s1, g1)
      | [] => Some (a, s1, g1)
      end
    end
  end
with parse_seq (fuel : nat) (s : str) (g : nat) : option (regex * str * nat) :=
  match fuel with
  | O => None
  | S f =>
    match s with
    | [] => Some (Empty, s, g)
    | c :: _ =>
      if (c =? ch "|")%N || (c =? ch ")")%N then Some (Empty, s, g)
      else
        match parse_atom f s g with
        | None => None
        | Some (a, s1, g1) =>
          match parse_quant a s1 with
          | None => None
          | Some (q, s2) =>
            match parse_seq f s2 g1 with
            | Some (b, s3, g3) => Some (cat q b, s3, g3)
            | None => None
            end
          end
        end
    end
  end
with parse_atom (fuel : nat) (s : str) (g : nat) : option (regex * str * nat) :=
  match fuel with
  | O => None
  | S f =>
    match s with
    | [] => None
    | c :: t =>
      if (c =? ch "(")%N then
        match t with
        | 63%N :: 58%N :: t' =>
          match parse_alt f t' g with
          | Some (r, d :: s1, g1) =>
            if (d =? ch ")")%N then Some (r, s1, g1) else None
          | _ => None
          end
        | _ =>
          match parse_alt f t (S g) with
          | Some (r, d :: s1, g1) =>
            if (d =? ch ")")%N then Some (Group (S g) r, s1, g1) else None
          | _ => None
          end
        end
      else if (c =? ch "[")%N then
        match parse_set t with
        | Some (r, s1) => Some (r, s1, g)
        | None => None
        end
      else if (c =? ch "\")%N then
        match t with
        | e :: t' =>
          if (e =? ch "b")%N then Some (Boundary, t', g)
          else
            match parse_escape t with
            | Some (inl k, s1) => Some (InSet false [CCat k], s1, g)
            | Some (inr l, s1) => Some (Lit l, s1, g)
            | None => None
            end
        | [] => None
        end
      else if (c =? ch ".")%N then Some (Dot, t, g)
      else if (c =? ch "*")%N || (c =? ch "+")%N || (c =? ch "?")%N then None
      else Some (Lit c, t, g)
    end
  end.

(** [re.compile(pattern)]; [None] stands for [re.error]. *)
Definition parse_regex (p : str) : option regex :=
  match parse_alt (3 * List.length p + 3) p 0 with
  | Some (r, [], _) => Some r
  | _ => None
  end.

(** The patterns of the source are written as their text; a text that
    is not a pattern matches nothing ([patterns_compile] shows that
    every pattern of the source is one). *)
Definition re (p : string) : regex :=
  match parse_regex (py p) with
  | Some r => r
  | None => InSet false []
  end.

(** ** Matching *)

(** A position in the subject: the character before it (for [\b]), what
    is left to read, and the groups captured so far. *)
Record mstate := MState {
  m_prev : option char;
  m_rest : str;
  m_groups : list (nat * str)
}.

(** A match object: where it starts and the state at its end. *)
Record rmatch := RMatch {
  match_from : str;
  match_end : mstate
}.

Fixpoint group_lookup (gs : list (nat * str)) (n : nat) : option str :=
  match gs with
  | [] => None
  | (k, v) :: gs' => if Nat.eqb k n then Some v else group_lookup gs' n
  end.

Fixpoint range_chars (lo : char) (count : nat) : list char :=
  match count with
  | O => []
  | S k => lo :: range_chars (lo + 1)%N k
  end.

Section Matching.
Context {U : Unicode}.

Definition cat_match (k : category) (c : char) : bool :=
  match k with
  | CatDigit => is_digit c
  | CatWord => is_word c
  | CatSpace => is_space c
  end.

(** With [re.IGNORECASE] two characters match when they have the same
    case-folded representative. *)
Definition lit_match (ci : bool) (l c : char) : bool :=
  if ci then (fold_case l =? fold_case c)%N else (l =? c)%N.

Definition item_match (ci : bool) (it : cset_item) (c : char) : bool :=
  match it with
  | CChar l => lit_match ci l c
  | CRange lo hi =>
    between lo hi c ||
    (ci && existsb (fun l => (fold_case l =? fold_case c)%N)
                   (range_chars lo (N.to_nat (hi + 1 - lo))))
  | CCat k => cat_match k c
  end.

Definition set_match (ci neg : bool) (items : list cset_item) (c : char) : bool :=
  xorb neg (existsb (fun it => item_match ci it c) items).

(** Reading one character that satisfies [p]. *)
Definition step (p : char -> bool) (st : mstate) : list mstate :=
  match m_rest st with
  | c :: t => if p c then [MState (Some c) t (m_groups st)] else []
  | [] => []
  end.

Definition word_before (st : mstate) : bool :=
  match m_prev st with Some c => is_word c | None => false end.

Definition word_after (st : mstate) : bool :=
  match m_rest st with c :: _ => is_word c | [] => false end.

(** What was read between two positions of the same subject. *)
Definition consumed (from : str) (to : mstate) : str :=
  firstn (List.length from - List.length (m_rest to)) from.

(** [n] more iterations of [f] at most, [lo] of them owed; a greedy
    quantifier prefers to go on, a lazy one to stop. *)
Fixpoint iterate (f : mstate -> list mstate) (lo n : nat) (greedy : bool)
         (st : mstate) : list mstate :=
  match n with
  | O => match lo with O => [st] | S _ => [] end
  | S n' =>
    let more := flat_map (iterate f (pred lo) n' greedy) (f st) in
    match lo with
    | O => if greedy then more ++ [st] else st :: more
    | S _ => more
    end
  end.

(** The positions at which a match of [r] that starts at [st] can end,
    in the order in which the backtracking matcher finds them.  An
    unbounded quantifier is given as many iterations as there are
    characters left (its body reads at least one character in every
    pattern of the source). *)
Fixpoint run (ci : bool) (r : regex) (st : mstate) : list mstate :=
  match r with
  | Empty => [st]
  | Lit l => step (lit_match ci l) st
  | Dot => step (fun c => negb (c =? 10)%N) st
  | InSet neg items => step (set_match ci neg items) st
  | Boundary => if xorb (word_before st) (word_after st) then [st] else []
  | Cat a b => flat_map (run ci b) (run ci a st)
  | Alt a b => run ci a st ++ run ci b st
  | Repeat lo hi greedy a =>
    iterate (run ci a) lo
            (match hi with
             | Some h => h
             | None => lo + List.length (m_rest st)
             end) greedy st
  | Group n a =>
    map (fun st' => MState (m_prev st') (m_rest st')
                           ((n, consumed (m_rest st) st') :: m_groups st'))
        (run ci a st)
  end.

(** The leftmost match at or after a position. *)
Fixpoint search_from (ci : bool) (r : regex) (prev : option char) (rest : str)
  : option rmatch :=
  match run ci r (MState prev rest []) with
  | e :: _ => Some (RMatch rest e)
  | [] =>
    match rest with
    | [] => None
    | c :: t => search_from ci r (Some c) t
    end
  end.

(** [re.search(pattern, text)] and [re.search(pattern, text, re.IGNORECASE)] *)
Definition re_search (ci : bool) (pattern : string) (text : str) : option rmatch :=
  search_from ci (re pattern) None text.

(** [bool(re.search(...))] *)
Definition re_found (ci : bool) (pattern : string) (text : str) : bool :=
  match re_search ci pattern text with Some _ => true | None => false end.

(** [match.group(0)] and [match.group(n)] *)
Definition group0 (m : rmatch) : str := consumed (match_from m) (match_end m).

Definition group (m : rmatch) (n : nat) : option str :=
  group_lookup (m_groups (match_end m)) n.

(** The non-overlapping matches from left to right.  After a match the
    search resumes where it ended (one character further after an empty
    match). *)
Fixpoint finditer_from (fuel : nat) (ci : bool) (r : regex)
         (prev : option char) (rest : str) : list rmatch :=
  match fuel with
  | O => []
  | S f =>
    match search_from ci r prev rest with
    | None => []
    | Some m =>
      let e := match_end m in
      m :: (if Nat.ltb (List.length (m_rest e)) (List.length (match_from m))
            then finditer_from f ci r (m_prev e) (m_rest e)
            else match m_rest e with
                 | [] => []
                 | c :: t => finditer_from f ci r (Some c) t
                 end)
    end
  end.

(** [list(re.finditer(pattern, text, re.IGNORECASE))] *)
Definition re_finditer (ci : bool) (pattern : string) (text : str) : list rmatch :=
  finditer_from (S (List.length text)) ci (re pattern) None text.

End Matching.

(* ================================================================== *)
(** * Dates ([datetime])

    A naive [datetime] is its proleptic Gregorian day number (1 for
    0001-01-01, as [toordinal]) and the microsecond within that day. *)

Record datetime := DateTime {
  dt_ordinal : Z;
  dt_micros : Z
}.

Definition day_micros : Z := 86400000000.

Definition is_leap (y : Z) : bool :=
  ((y mod 4 =? 0) && (negb (y mod 100 =? 0) || (y mod 400 =? 0)))%Z.

Definition days_in_month (y m : Z) : Z :=
  if (m =? 2)%Z then (if is_leap y then 29 else 28)%Z
  else if ((m =? 4) || (m =? 6) || (m =? 9) || (m =? 11))%Z then 30%Z
  else 31%Z.

Definition days_before_year (y : Z) : Z :=
  ((y - 1) * 365 + (y - 1) / 4 - (y - 1) / 100 + (y - 1) / 400)%Z.

Fixpoint days_before_month (y : Z) (m : nat) : Z :=
  match m with
  | O => 0%Z
  | S k => (days_before_month y k + days_in_month y (Z.of_nat (S k)))%Z
  end.

(** [datetime(year, month, day)]; [None] stands for [ValueError]. *)
Definition make_date (y m d : Z) : option datetime :=
  if ((1 <=? y) && (y <=? 9999) && (1 <=? m) && (m <=? 12)
      && (1 <=? d) && (d <=? days_in_month y m))%Z
  then Some (DateTime (days_before_year y + days_before_month y (Z.to_nat (m - 1)) + d) 0)
  else None.

(** [(a - b).days]: a [timedelta] keeps its day count rounded down. *)
Definition days_between (a b : datetime) : Z :=
  (((dt_ordinal a - dt_ordinal b) * day_micros + (dt_micros a - dt_micros b))
   / day_micros)%Z.

(** [a < b] *)
Definition datetime_ltb (a b : datetime) : bool :=
  ((dt_ordinal a * day_micros + dt_micros a) <? (dt_ordinal b * day_micros + dt_micros b))%Z.

(** The directives that the formats of the source use. *)
Inductive directive := DirDay | DirMonth | DirYear | DirChar (c : char).

Fixpoint parse_format (f : str) : list directive :=
  match f with
  | [] => []
  | c :: t =>
    if (c =? ch "%")%N then
      match t with
      | e :: t' =>
        (if (e =? ch "d")%N then DirDay
         else if (e =? ch "m")%N then DirMonth
         else if (e =? ch "Y")%N then DirYear
         else DirChar e) :: parse_format t'
      | [] => []
      end
    else DirChar c :: parse_format t
  end.

(** The pattern that [_strptime] builds for a directive. *)
Definition directive_regex (d : directive) : regex :=
  match d with
  | DirDay => Group 1 (re "3[0-1]|[1-2]\d|0[1-9]|[1-9]| [1-9]")
  | DirMonth => Group 2 (re "1[0-2]|0[1-9]|[1-9]")
  | DirYear => Group 3 (re "\d\d\d\d")
  | DirChar c => Lit c
  end.

Definition format_regex (f : string) : regex :=
  fold_right (fun d r => cat (directive_regex d) r) Empty (parse_format (py f)).

Section Strptime.
Context {U : Unicode}.

(** [int(s)] on the digits that a directive captured. *)
Fixpoint int_digits (s : str) (acc : Z) : option Z :=
  match s with
  | [] => Some acc
  | c :: t =>
    if is_space c then int_digits t acc
    else match digit_value c with
         | Some v => int_digits t (10 * acc + v)%Z
         | None => None
         end
  end.

Definition int_group (gs : list (nat * str)) (n : nat) (default : Z) : option Z :=
  match group_lookup gs n with
  | Some s => int_digits s 0
  | None => Some default
  end.

(** [datetime.strptime(date_string, format)]; [None] stands for
    [ValueError]: the text does not match the format, characters are
    left over, or the day does not exist. *)
Definition strptime (date_string : str) (format : string) : option datetime :=
  match run true (format_regex format) (MState None date_string []) with
  | e :: _ =>
    match m_rest e with
    | [] =>
      match int_group (m_groups e) 3 1900, int_group (m_groups e) 2 1,
            int_group (m_groups e) 1 1 with
      | Some y, Some m, Some d => make_date y m d
      | _, _, _ => None
      end
    | _ :: _ => None
    end
  | [] => None
  end.

End Strptime.

(* ================================================================== *)
(** * Results and exceptions *)

(** A call returns a value or raises an exception (with its message). *)
Inductive outcome (A : Type) :=
| Returns (a : A)
| Raises (e : str).

Arguments Returns {A} a.
Arguments Raises {A} e.

Definition Qlt_bool (a b : Q) : bool := negb (Qle_bool b a).

(** [max(l)] and [max(l, key=f)]: the first of the greatest elements. *)
Fixpoint max_from (A : Type) (key : A -> Q) (best : A) (l : list A) : A :=
  match l with
  | [] => best
  | x :: l' => max_from key (if Qlt_bool (key best) (key x) then x else best) l'
  end.

Definition py_max (A : Type) (key : A -> Q) (l : list A) : option A :=
  match l with
  | [] => None
  | x :: l' => Some (max_from key x l')
  end.

(** ** Floating point

    The nearest integer, ties to even. *)
Definition round_half_even (q : Q) : Z :=
  let f := Qfloor q in
  match (q - inject_Z f ?= 1 # 2)%Q with
  | Lt => f
  | Gt => (f + 1)%Z
  | Eq => if Z.even f then f else (f + 1)%Z
  end.

Definition pow2 (e : Z) : Q := (2 ^ e)%Q.

(** The binade of a positive number: [2^k <= q < 2^(k+1)]. *)
Definition ilog2 (q : Q) : Z :=
  let k := (Z.log2 (Qnum q) - Z.log2 (Zpos (Qden q)))%Z in
  if Qle_bool (pow2 k) q then k else (k - 1)%Z.

(** The exponent of the last place of a double: 53 significant bits,
    and no less than [-1074] (the subnormal numbers). *)
Definition float_exponent (q : Q) : Z := Z.max (ilog2 q - 52) (-1074).

Definition float_pos (q : Q) : Q :=
  let e := float_exponent q in
  Qred (inject_Z (round_half_even (q / pow2 e)) * pow2 e).

(** The double nearest to [q], ties to even: what the source gets for a
    decimal constant, for [float(n)] and, applied to the exact result,
    for every operation on floats.  The range is not modelled: a result
    beyond [1.8e308] would need a list of more than [10^300] items. *)
Definition float (q : Q) : Q :=
  match (q ?= 0)%Q with
  | Eq => 0
  | Gt => float_pos q
  | Lt => - float_pos (- q)
  end.

Definition float_of_int (n : Z) : Q := float (inject_Z n).

(** [a + b], [a - b], [a * b] and [a / b] on floats. *)
Definition fadd (a b : Q) : Q := float (a + b).
Definition fsub (a b : Q) : Q := float (a - b).
Definition fmul (a b : Q) : Q := float (a * b).
Definition fdiv (a b : Q) : Q := float (a / b).

(** [a / b] on integers, which is rounded once. *)
Definition true_div (a b : Z) : Q := float (inject_Z a / inject_Z b).

(** [round(x, 1)]: the decimal with one digit nearest to the double [x],
    ties to even, and then the double nearest to that decimal. *)
Definition round1 (x : Q) : Q := float (inject_Z (round_half_even (x * 10)) / 10).

Arguments float : simpl never.
Arguments float_of_int : simpl never.
Arguments fadd : simpl never.
Arguments fsub : simpl never.
Arguments fmul : simpl never.
Arguments fdiv : simpl never.
Arguments true_div : simpl never.
Arguments round1 : simpl never.

Definition pys (l : list string) : list str := map py l.

(* ================================================================== *)
(** * The pattern registry ([DocumentValidityChecker.__init__]) *)

Local Open Scope string_scope.
Local Open Scope list_scope.

(** An entry of [self.document_patterns]. *)
Record doc_config := DocConfig {
  keywords : list str;
  required_fields : list str;
  patterns : list (str * string);
  security_features : list str
}.

(** The attributes of a [DocumentValidityChecker] that the checking
    code reads. *)
Record checker := Checker {
  document_patterns : list (str * doc_config);
  fraud_indicators : list str
}.

Definition aadhaar_config : doc_config := {|
  keywords := pys ["aadhaar"; "aadhar"; "आधार"; "unique identification";
                   "government of india"; "uidai"; "uid"; "enrollment";
                   "enrolment"; "भारत सरकार"; "unique identity";
                   "identification authority"];
  required_fields := pys ["12_digit_number"; "name"; "dob"];
  patterns := [
    (py "12_digit_number", "\b\d{4}[\s\-]*\d{4}[\s\-]*\d{4}\b");
    (py "name", "[A-Za-z\s]{2,50}");
    (py "dob", "(\d{1,2}[/-]\d{1,2}[/-]\d{4}|\d{4}[/-]\d{1,2}[/-]\d{1,2})");
    (py "address", "(address|पता|s/o|d/o|w/o)")];
  security_features := pys ["hologram"; "qr code"; "secure paper"; "watermark"]
|}.

Definition caste_certificate_config : doc_config := {|
  keywords := pys ["caste certificate"; "जात प्रमाणपत्र";
                   "government of maharashtra"; "tahsildar"; "collector"];
  required_fields := pys ["name"; "caste"; "district"; "signature_stamp";
                          "certificate_number"];
  patterns := [
    (py "name", "[A-Za-z\s]{3,50}");
    (py "caste", "(SC|ST|OBC|VJNT|SBC|scheduled caste|scheduled tribe|other backward class)");
    (py "district", "(mumbai|pune|nagpur|nashik|aurangabad|kolhapur|satara|sangli|solapur|ahmednagar)");
    (py "certificate_number", "(cert|certificate|प्रमाणपत्र).*?no\.?\s*:?\s*([A-Z0-9/-]+)")];
  security_features := pys ["government seal"; "official signature"; "letterhead"]
|}.

Definition income_certificate_config : doc_config := {|
  keywords := pys ["income certificate"; "उत्पन्न प्रमाणपत्र"; "annual income";
                   "tahsildar"; "revenue department"];
  required_fields := pys ["name"; "annual_income"; "issuing_authority";
                          "certificate_number"; "validity_date"];
  patterns := [
    (py "name", "[A-Za-z\s]{3,50}");
    (py "annual_income", "(?:rs\.?|₹|rupees)\s*(\d{1,3}(?:,\d{3})*)");
    (py "certificate_number", "(cert|certificate|प्रमाणपत्र).*?no\.?\s*:?\s*([A-Z0-9/-]+)");
    (py "validity_date", "valid.*?(\d{2}[/-]\d{2}[/-]\d{4})")];
  security_features := pys ["government seal"; "official signature"; "revenue stamp"]
|}.

Definition domicile_certificate_config : doc_config := {|
  keywords := pys ["domicile certificate"; "निवास प्रमाणपत्र";
                   "residence certificate"; "maharashtra domicile"];
  required_fields := pys ["name"; "address"; "district"; "issuing_authority";
                          "certificate_number"];
  patterns := [
    (py "name", "[A-Za-z\s]{3,50}");
    (py "address", "(address|पता|निवास)");
    (py "district", "(mumbai|pune|nagpur|nashik|aurangabad|kolhapur|satara|sangli|solapur|ahmednagar)");
    (py "certificate_number", "(cert|certificate|प्रमाणपत्र).*?no\.?\s*:?\s*([A-Z0-9/-]+)")];
  security_features := pys ["government seal"; "official signature"; "letterhead"]
|}.

Definition birth_certificate_config : doc_config := {|
  keywords := pys ["birth certificate"; "जन्म प्रमाणपत्र"; "registrar";
                   "birth registration"];
  required_fields := pys ["name"; "dob"; "place_of_birth"; "parents_name";
                          "registration_number"];
  patterns := [
    (py "name", "[A-Za-z\s]{3,50}");
    (py "dob", "\d{2}[/-]\d{2}[/-]\d{4}");
    (py "place_of_birth", "(born at|birth place|जन्म स्थान)");
    (py "parents_name", "(father|mother|पिता|माता)");
    (py "registration_number", "(reg|registration).*?no\.?\s*:?\s*([A-Z0-9/-]+)")];
  security_features := pys ["registrar seal"; "official signature"; "security paper"]
|}.

Definition non_creamy_layer_config : doc_config := {|
  keywords := pys ["non creamy layer"; "non-creamy layer"; "obc certificate";
                   "creamy layer"];
  required_fields := pys ["name"; "caste"; "annual_income"; "issuing_authority";
                          "validity_date"];
  patterns := [
    (py "name", "[A-Za-z\s]{3,50}");
    (py "caste", "(OBC|other backward class|backward class)");
    (py "annual_income", "(?:rs\.?|₹|rupees)\s*(\d{1,3}(?:,\d{3})*)");
    (py "validity_date", "valid.*?(\d{2}[/-]\d{2}[/-]\d{4})")];
  security_features := pys ["government seal"; "official signature"; "letterhead"]
|}.

(** [document_checker = DocumentValidityChecker()] *)
Definition document_checker : checker := {|
  document_patterns := [
    (py "aadhaar", aadhaar_config);
    (py "caste_certificate", caste_certificate_config);
    (py "income_certificate", income_certificate_config);
    (py "domicile_certificate", domicile_certificate_config);
    (py "birth_certificate", birth_certificate_config);
    (py "non_creamy_layer", non_creamy_layer_config)];
  fraud_indicators := pys [
    "photocopy"; "xerox"; "duplicate"; "sample"; "specimen"; "draft";
    "watermark missing"; "poor quality"; "blurred text"; "copy"; "duplicate";
    "not original"; "scanned copy"; "printout"]
|}.

(* ================================================================== *)
(** * The dictionaries that the methods return

    One record per dictionary shape, with the keys of the source as
    field names.  [extracted_data] carries display values that no
    score, verdict or branch reads; it is left out of the reports
    ([extract_structured_data], which only feeds it, is modelled on its
    own). *)

Module Analysis.
Record t := Make {
  text_length : Z;
  word_count : Z;
  has_numbers : bool;
  has_dates : bool;
  has_government_terms : bool;
  language_mix : bool
}.
End Analysis.

Module Score.
Record breakdown := Breakdown {
  keywords : Z;
  patterns : Z;
  context : Z;
  structure : Z
}.
Record t := Make {
  total : Q;
  score_breakdown : breakdown;
  matched_keywords : list str
}.
End Score.

Module Security.
(** [found_security] is missing from the dictionary returned for an
    unknown type. *)
Record t := Make {
  security_score : Q;
  found_security : option (list str);
  warnings : list str
}.
End Security.

Module Integrity.
Record t := Make {
  text_quality : Z;
  structure_score : Z;
  authenticity_markers : list str;
  red_flags : list str
}.
End Integrity.

Module Validation.
(** The keys of a full report besides [valid] and [missing_fields]. *)
Record details := Details {
  validity_score : Q;
  found_fields : list str;
  field_confidence : list (str * Z);
  field_ratio : Q;
  avg_field_confidence : Q;
  security_score : Q;
  security_warnings : list str;
  found_security : list str;
  integrity_check : Integrity.t;
  authenticity_markers : list str;
  red_flags : list str
}.
(** [rest] is [None] for the two-key dictionary of an unknown type. *)
Record t := Make {
  valid : bool;
  missing_fields : list str;
  rest : option details
}.
(** [report.get('validity_score')] *)
Definition get_validity_score (r : t) : option Q :=
  option_map validity_score (rest r).
End Validation.

Module Expiry.
Record t := Make {
  has_expiry : bool;
  expired : bool;
  expires_soon : bool;
  expiry_date : option str
}.
End Expiry.

Module Check.
(** The keys of a report on a recognised document. *)
Record analysis := Analysed {
  found_fields : list str;
  field_confidence : list (str * Z);
  avg_field_confidence : Q;
  security_score : Q;
  security_warnings : list str;
  integrity_check : Integrity.t;
  authenticity_markers : list str;
  red_flags : list str;
  expiry_info : Expiry.t
}.
(** What a report holds besides the five keys common to all. *)
Inductive extra :=
| ErrorDetails (error_details : str)
| TextLength (extracted_text_length : Z)
| TextSample (extracted_text_sample : str)
| Report (a : analysis)
| NoExtra.
Record t := Make {
  document_type : str;
  valid : bool;
  confidence : Q;
  missing_fields : list str;
  suggestion : str;
  more : extra
}.
End Check.

Module Log.
Record entry := Entry {
  timestamp : str;
  document_type : str;
  valid : bool;
  confidence : Q;
  security_score : Q
}.
End Log.

(** [DocumentAnalytics]: its only attribute is the history. *)
Record analytics := Analytics {
  validation_history : list Log.entry
}.

(* ================================================================== *)
(** * [DocumentValidityChecker]: classification *)

Section Classifier.
Context {U : Unicode}.

(** [advanced_text_analysis] *)
Definition advanced_text_analysis (text : str) : Analysis.t :=
  let text_lower := lower text in
  {| Analysis.text_length := len text;
     Analysis.word_count := len (split text);
     Analysis.has_numbers := re_found false "\d" text;
     Analysis.has_dates := re_found false "\d{1,2}[/-]\d{1,2}[/-]\d{4}" text;
     Analysis.has_government_terms :=
       any (fun term => contains text_lower term)
           (pys ["government"; "सरकार"; "authority"; "प्राधिकरण"]);
     Analysis.language_mix := re_found false "[\u0900-\u097F]" text |}.

(** The body of the keyword loop: 3 for the whole keyword, else 1 when
    one of its words longer than two characters occurs. *)
Definition keyword_step (text_normalized : str) (acc : Z * list str) (keyword : str)
  : Z * list str :=
  let '(keyword_score, matched_keywords) := acc in
  let keyword_lower := lower keyword in
  if contains text_normalized keyword_lower
  then ((keyword_score + 3)%Z, matched_keywords ++ [keyword])
  else if any (fun word => contains text_normalized word)
              (filter (fun word => (2 <? len word)%Z) (split keyword_lower))
  then ((keyword_score + 1)%Z, matched_keywords)
  else (keyword_score, matched_keywords).

(** The body of the pattern loop. *)
Definition pattern_step (text doc_type : str) (pattern_score : Z)
           (item : str * string) : Z :=
  let '(pattern_name, pattern) := item in
  if re_found true pattern text then
    let pattern_score := (pattern_score + 2)%Z in
    if str_eqb pattern_name (py "12_digit_number") && str_eqb doc_type (py "aadhaar")
    then (pattern_score + 3)%Z
    else pattern_score
  else pattern_score.

Definition context_score (text text_lower doc_type : str) : Z :=
  if str_eqb doc_type (py "aadhaar") then
    let aadhaar_context :=
      pys ["male"; "female"; "पुरुष"; "महिला"; "address"; "पता"; "dob";
           "year of birth"] in
    let context_score := sum_if 2 (fun term => contains text_lower term) aadhaar_context in
    if re_found false "\b\d{4}[\s\-]*\d{4}[\s\-]*\d{4}\b" text
    then (context_score + 5)%Z
    else context_score
  else if str_eqb doc_type (py "caste_certificate") then
    let caste_context :=
      pys ["caste"; "जात"; "sc"; "st"; "obc"; "backward"; "scheduled"; "tribe"] in
    sum_if 2 (fun term => contains text_lower term) caste_context
  else if str_eqb doc_type (py "income_certificate") then
    let income_context :=
      pys ["income"; "उत्पन्न"; "salary"; "annual"; "rupees"; "₹"; "rs"] in
    sum_if 2 (fun term => contains text_lower term) income_context
  else 0%Z.

Definition structure_points (text_analysis : Analysis.t) (doc_type : str) : Z :=
  ((if Analysis.has_government_terms text_analysis then 2 else 0)
   + (if Analysis.has_dates text_analysis then 1 else 0)
   + (if Analysis.language_mix text_analysis
         && existsb (str_eqb doc_type)
                    (pys ["caste_certificate"; "income_certificate";
                          "domicile_certificate"])
      then 1 else 0))%Z.

(** The weighted total of a breakdown. *)
Definition weighted_total (b : Score.breakdown) : Q :=
  fadd (fadd (fadd (fmul (float_of_int (Score.keywords b)) (float 0.4))
                   (fmul (float_of_int (Score.patterns b)) (float 0.3)))
             (fmul (float_of_int (Score.context b)) (float 0.2)))
       (fmul (float_of_int (Score.structure b)) (float 0.1)).

(** One turn of the loop over [self.document_patterns.items()]. *)
Definition score_type (text : str) (doc_type : str) (config : doc_config) : Score.t :=
  let text_lower := lower text in
  let text_normalized := join (py " ") (split text_lower) in
  let text_analysis := advanced_text_analysis text in
  let '(keyword_score, matched_keywords) :=
    fold_left (keyword_step text_normalized) (keywords config) (0%Z, []) in
  let pattern_score :=
    fold_left (pattern_step text doc_type) (patterns config) 0%Z in
  let score_breakdown :=
    {| Score.keywords := keyword_score;
       Score.patterns := pattern_score;
       Score.context := context_score text text_lower doc_type;
       Score.structure := structure_points text_analysis doc_type |} in
  {| Score.total := weighted_total score_breakdown;
     Score.score_breakdown := score_breakdown;
     Score.matched_keywords := matched_keywords |}.

(** [detailed_scores] and [scores], in the order of the registry. *)
Definition detailed_scores (self : checker) (text : str) : list (str * Score.t) :=
  map (fun item => (fst item, score_type text (fst item) (snd item)))
      (document_patterns self).

Definition scores (self : checker) (text : str) : list (str * Q) :=
  map (fun item => (fst item, Score.total (snd item))) (detailed_scores self text).

(** [detect_document_type] *)
Definition detect_document_type (self : checker) (text : str) : option str :=
  match py_max (fun v => v) (map snd (scores self text)) with
  | Some m =>
    if Qle_bool 2.0 m
    then option_map fst (py_max snd (scores self text))
    else None
  | None => None
  end.

(** [fallback_detection] *)
Definition fallback_detection (text file_path : str) : option str :=
  let text_lower := lower text in
  let aadhaar_indicators :=
    ["\d{4}[\s\-]*\d{4}[\s\-]*\d{4}";
     "male|female|पुरुष|महिला";
     "dob|date of birth|जन्म";
     "address|पता"] in
  let aadhaar_score :=
    fold_left (fun score pattern =>
                 if re_found true pattern text then (score + 1)%Z else score)
              aadhaar_indicators 0%Z in
  if (2 <=? aadhaar_score)%Z then Some (py "aadhaar")
  else if any (fun word => contains text_lower word) (pys ["certificate"; "प्रमाणपत्र"]) then
    if any (fun word => contains text_lower word) (pys ["income"; "उत्पन्न"])
    then Some (py "income_certificate")
    else if any (fun word => contains text_lower word) (pys ["caste"; "जात"])
    then Some (py "caste_certificate")
    else if any (fun word => contains text_lower word) (pys ["domicile"; "निवास"])
    then Some (py "domicile_certificate")
    else if any (fun word => contains text_lower word) (pys ["birth"; "जन्म"])
    then Some (py "birth_certificate")
    else None
  else None.

End Classifier.

(* ================================================================== *)
(** * [DocumentValidityChecker]: validation *)

Section Validator.
Context {U : Unicode}.

(** [indicator.lower() in text.lower()] *)
Definition mentions (text term : str) : bool := contains (lower text) (lower term).

(** [check_security_features] *)
Definition check_security_features (self : checker) (text document_type : str)
  : Security.t :=
  match dict_get (document_patterns self) document_type with
  | None =>
    {| Security.security_score := 0;
       Security.found_security := None;
       Security.warnings := [py "Unknown document type"] |}
  | Some config =>
    let security_features := security_features config in
    let found_security := filter (mentions text) security_features in
    let warnings :=
      map (fun indicator => py "Potential fraud indicator: " ++ indicator)
          (filter (mentions text) (fraud_indicators self)) in
    let security_score :=
      match security_features with
      | [] => 1.0%Q
      | _ :: _ => true_div (len found_security) (len security_features)
      end in
    {| Security.security_score := security_score;
       Security.found_security := Some found_security;
       Security.warnings := warnings |}
  end.

(** [f"{value}"] for what [match.group] returns. *)
Definition format_value (v : option str) : str :=
  match v with Some s => s | None => py "None" end.

Definition name_patterns : list string :=
  ["name[:\s]*([A-Za-z\s]{3,50})";
   "([A-Za-z\s]{3,50})\s*(?:s/o|d/o|w/o)";
   "(?:mr|ms|mrs)\.?\s*([A-Za-z\s]{3,50})"].

(** The loop over [name_patterns], left at the first pattern found;
    [None.strip()] would raise. *)
Fixpoint extract_name (patterns : list string) (text : str)
         (extracted : list (str * option str)) : outcome (list (str * option str)) :=
  match patterns with
  | [] => Returns extracted
  | pattern :: patterns' =>
    match re_search true pattern text with
    | Some m =>
      match group m 1 with
      | Some name => Returns (dict_set extracted (py "name") (Some (strip name)))
      | None => Raises (py "'NoneType' object has no attribute 'strip'")
      end
    | None => extract_name patterns' text extracted
    end
  end.

(** [extract_structured_data]: the values are strings, or [None] where
    a group took no part in the match. *)
Definition extract_structured_data (text document_type : str)
  : outcome (list (str * option str)) :=
  let extracted := [] in
  if str_eqb document_type (py "aadhaar") then
    let extracted :=
      match re_search false "\b(\d{4})[\s\-]*(\d{4})[\s\-]*(\d{4})\b" text with
      | Some aadhaar_match =>
        dict_set extracted (py "aadhaar_number")
                 (Some (format_value (group aadhaar_match 1) ++ py " "
                        ++ format_value (group aadhaar_match 2) ++ py " "
                        ++ format_value (group aadhaar_match 3)))
      | None => extracted
      end in
    match extract_name name_patterns text extracted with
    | Raises e => Raises e
    | Returns extracted =>
      let extracted :=
        match re_search true
                "(?:dob|date of birth|born)[:\s]*(\d{1,2}[/-]\d{1,2}[/-]\d{4})"
                text with
        | Some dob_match => dict_set extracted (py "dob") (group dob_match 1)
        | None => extracted
        end in
      let extracted :=
        if re_found true "\b(male|पुरुष)\b" text
        then dict_set extracted (py "gender") (Some (py "Male"))
        else if re_found true "\b(female|महिला)\b" text
        then dict_set extracted (py "gender") (Some (py "Female"))
        else extracted in
      Returns extracted
    end
  else Returns extracted.

(** The four text-quality checks and the three structure checks of
    [validate_document_integrity], 20 points each and 10, 10, 15. *)
Definition quality_length_100 (text : str) : Z :=
  if (100 <? len text)%Z then 20%Z else 0%Z.

Definition quality_length_300 (text : str) : Z :=
  if (300 <? len text)%Z then 20%Z else 0%Z.

Definition quality_words (text : str) : Z :=
  if re_found false "[A-Za-z]{3,}" text then 20%Z else 0%Z.

Definition quality_special (text : str) : Z :=
  if negb (re_found false "[^\w\s]" text) then 20%Z else 0%Z.

Definition structure_numbers (text : str) : Z :=
  if re_found false "\d" text then 10%Z else 0%Z.

Definition structure_uppercase (text : str) : Z :=
  if re_found false "[A-Z]{2,}" text then 10%Z else 0%Z.

Definition structure_dates (text : str) : Z :=
  if re_found false "\d{1,2}[/-]\d{1,2}[/-]\d{4}" text then 15%Z else 0%Z.

(** [validate_document_integrity] *)
Definition validate_document_integrity (self : checker) (text document_type : str)
  : Integrity.t :=
  let govt_terms :=
    pys ["government"; "सरकार"; "authority"; "प्राधिकरण"; "official"; "seal";
         "signature"] in
  {| Integrity.text_quality :=
       (quality_length_100 text + quality_length_300 text
        + quality_words text + quality_special text)%Z;
     Integrity.structure_score :=
       (structure_numbers text + structure_uppercase text + structure_dates text)%Z;
     Integrity.authenticity_markers := filter (mentions text) govt_terms;
     Integrity.red_flags := filter (mentions text) (fraud_indicators self) |}.

(** [sum(1 for term in terms if term.lower() in text.lower())] *)
Definition count_terms (text : str) (terms : list str) : Z :=
  sum_if 1 (mentions text) terms.

(** The body of the loop over the required fields, up to the two
    variables it sets: [field_found] and [confidence]. *)
Definition check_field (text : str) (patterns : list (str * string)) (field : str)
  : bool * Z :=
  match dict_get patterns field with
  | Some pattern =>
    let match_list := re_finditer true pattern text in
    match match_list with
    | _ :: _ => (true, Z.min 100 (len match_list * 30 + 40))
    | [] => (false, 0%Z)
    end
  | None =>
    if str_eqb field (py "signature_stamp") then
      let signature_terms :=
        pys ["signature"; "stamp"; "seal"; "signed"; "authorized"; "हस्ताक्षर"] in
      let matches := count_terms text signature_terms in
      if (1 <=? matches)%Z then (true, Z.min 100 (matches * 25 + 25)) else (false, 0%Z)
    else if str_eqb field (py "issuing_authority") then
      let authority_terms :=
        pys ["tahsildar"; "collector"; "registrar"; "officer"; "authority";
             "प्राधिकरण"] in
      let matches := count_terms text authority_terms in
      if (1 <=? matches)%Z then (true, Z.min 100 (matches * 30 + 30)) else (false, 0%Z)
    else if str_eqb field (py "address") then
      let address_terms :=
        pys ["address"; "पता"; "residence"; "निवास"; "village"; "city"; "district"] in
      let matches := count_terms text address_terms in
      if (1 <=? matches)%Z then (true, Z.min 100 (matches * 20 + 40)) else (false, 0%Z)
    else (true, 50%Z)
  end.

(** The three collections that the loop fills. *)
Record field_acc := FieldAcc {
  acc_found : list str;
  acc_missing : list str;
  acc_confidence : list (str * Z)
}.

Definition field_step (text : str) (patterns : list (str * string))
           (acc : field_acc) (field : str) : field_acc :=
  let '(field_found, confidence) := check_field text patterns field in
  if field_found
  then {| acc_found := acc_found acc ++ [field];
          acc_missing := acc_missing acc;
          acc_confidence := dict_set (acc_confidence acc) field confidence |}
  else {| acc_found := acc_found acc;
          acc_missing := acc_missing acc ++ [field];
          acc_confidence := dict_set (acc_confidence acc) field 0%Z |}.

Definition check_fields (text : str) (config : doc_config) : field_acc :=
  fold_left (field_step text (patterns config)) (required_fields config)
            {| acc_found := []; acc_missing := []; acc_confidence := [] |}.

Definition sum_values (d : list (str * Z)) : Z :=
  fold_left (fun acc kv => (acc + snd kv)%Z) d 0%Z.

(** [max(0, x)] *)
Definition floor_at_zero (x : Q) : Q := if Qlt_bool 0 x then x else 0.

(** [validate_document] *)
Definition validate_document (self : checker) (text document_type : str)
  : outcome Validation.t :=
  match dict_get (document_patterns self) document_type with
  | None =>
    Returns {| Validation.valid := false;
               Validation.missing_fields := [py "Unknown document type"];
               Validation.rest := None |}
  | Some config =>
    let required_fields := required_fields config in
    let integrity_check := validate_document_integrity self text document_type in
    let fields := check_fields text config in
    let found_fields := acc_found fields in
    let missing_fields := acc_missing fields in
    let field_confidence := acc_confidence fields in
    let security_check := check_security_features self text document_type in
    let field_ratio :=
      match required_fields with
      | [] => 0%Q
      | _ :: _ => true_div (len found_fields) (len required_fields)
      end in
    let avg_field_confidence :=
      match field_confidence with
      | [] => 0%Q
      | _ :: _ => true_div (sum_values field_confidence) (len field_confidence)
      end in
    let security_ratio := Security.security_score security_check in
    let integrity_score :=
      true_div (Integrity.text_quality integrity_check
                + Integrity.structure_score integrity_check) 100 in
    let validity_score :=
      fadd (fadd (fadd (fmul field_ratio (float 0.3))
                       (fmul (fdiv avg_field_confidence 100) (float 0.25)))
                 (fmul security_ratio (float 0.25)))
           (fmul integrity_score (float 0.2)) in
    let red_flag_penalty :=
      fmul (float_of_int (len (Integrity.red_flags integrity_check))) (float 0.1) in
    let validity_score := floor_at_zero (fsub validity_score red_flag_penalty) in
    let valid :=
      Qle_bool (float 0.6) validity_score
      && (len (Integrity.red_flags integrity_check) =? 0)%Z in
    match Security.found_security security_check with
    | None => Raises (py "'found_security'")
    | Some found_security =>
      Returns
        {| Validation.valid := valid;
           Validation.missing_fields := missing_fields;
           Validation.rest := Some
             {| Validation.validity_score := validity_score;
                Validation.found_fields := found_fields;
                Validation.field_confidence := field_confidence;
                Validation.field_ratio := field_ratio;
                Validation.avg_field_confidence := avg_field_confidence;
                Validation.security_score := security_ratio;
                Validation.security_warnings := Security.warnings security_check;
                Validation.found_security := found_security;
                Validation.integrity_check := integrity_check;
                Validation.authenticity_markers :=
                  Integrity.authenticity_markers integrity_check;
                Validation.red_flags := Integrity.red_flags integrity_check |} |}
    end
  end.

End Validator.

(* ================================================================== *)
(** * [DocumentValidityChecker]: expiry and the checking pipeline *)

Section Pipeline.
Context {U : Unicode}.

(** The reading of [datetime.now()] during the call. *)
Variable now : datetime.

Definition validity_patterns : list string :=
  ["valid.*?until.*?(\d{2}[/-]\d{2}[/-]\d{4})";
   "expires.*?on.*?(\d{2}[/-]\d{2}[/-]\d{4})";
   "validity.*?(\d{2}[/-]\d{2}[/-]\d{4})";
   "valid.*?upto.*?(\d{2}[/-]\d{2}[/-]\d{4})"].

Definition date_formats : list string :=
  ["%d/%m/%Y"; "%d-%m-%Y"; "%m/%d/%Y"; "%m-%d-%Y"].

(** What a successful parse writes into [expiry_info]. *)
Definition record_expiry (expiry_info : Expiry.t) (date_str : str)
           (expiry_date : datetime) : Expiry.t :=
  let today := now in
  let days_until_expiry := days_between expiry_date today in
  {| Expiry.has_expiry := true;
     Expiry.expiry_date := Some date_str;
     Expiry.expired :=
       if (days_until_expiry <? 0)%Z then true else Expiry.expired expiry_info;
     Expiry.expires_soon :=
       if (days_until_expiry <? 0)%Z then Expiry.expires_soon expiry_info
       else if (days_until_expiry <? 30)%Z then true
       else Expiry.expires_soon expiry_info |}.

(** The loop over the date formats: [break] after the first format that
    parses, [continue] on [ValueError]. *)
Fixpoint try_formats (expiry_info : Expiry.t) (date_str : str)
         (formats : list string) : Expiry.t :=
  match formats with
  | [] => expiry_info
  | fmt :: formats' =>
    match strptime date_str fmt with
    | Some expiry_date => record_expiry expiry_info date_str expiry_date
    | None => try_formats expiry_info date_str formats'
    end
  end.

(** The loop over the templates: [break] after the first template that
    matches, whether its date parsed or not. *)
Fixpoint try_patterns (expiry_info : Expiry.t) (text : str)
         (patterns : list string) : Expiry.t :=
  match patterns with
  | [] => expiry_info
  | pattern :: patterns' =>
    match re_search true pattern text with
    | Some m =>
      match group m 1 with
      | Some date_str => try_formats expiry_info date_str date_formats
      | None => try_patterns expiry_info text patterns'
      end
    | None => try_patterns expiry_info text patterns'
    end
  end.

(** [check_expiry_date] *)
Definition check_expiry_date (self : checker) (text document_type : str) : Expiry.t :=
  let expiry_info :=
    {| Expiry.has_expiry := false; Expiry.expired := false;
       Expiry.expires_soon := false; Expiry.expiry_date := None |} in
  try_patterns expiry_info text validity_patterns.

(** [self.extract_text(file_path)], the text-extraction collaborator
    (OCR and PDF reading).  The class of the source binds no method of
    this name (the statements that would form it sit after the last
    [return] of [extract_text_from_image]); it is a parameter here, any
    function from a path to a text or an exception. *)
Variable extract_text : str -> outcome str.

Definition extraction_failed (extracted_text : str) : bool :=
  startswith extracted_text (py "Error")
  || startswith extracted_text (py "OCR not available")
  || startswith extracted_text (py "No text could be extracted")
  || startswith extracted_text (py "File not found").

(** [not document_type] *)
Definition falsy (document_type : option str) : bool :=
  match document_type with
  | None => true
  | Some [] => true
  | Some (_ :: _) => false
  end.

Definition supported_documents : str :=
  py "Document type could not be identified. Supported documents: Aadhaar Card, Caste Certificate, Income Certificate, Birth Certificate, Domicile Certificate, Non-Creamy Layer Certificate.".

(** The suggestions collected for a validated document, and the
    verdict after the expiry check. *)
Definition suggest (valid : bool) (d : Validation.details)
           (missing_fields : list str) (expiry_info : Expiry.t)
  : list str * bool :=
  if valid then
    if Expiry.expired expiry_info
    then ([py "⚠️ Document has expired. Please renew."], false)
    else if Expiry.expires_soon expiry_info
    then ([py "⚠️ Document expires soon. Consider renewal."], valid)
    else ([py "✅ Document appears to be valid and authentic."], valid)
  else
    ((match missing_fields with
      | [] => []
      | _ :: _ => [py "❌ Missing required fields: " ++ join (py ", ") missing_fields]
      end)
     ++ (match Validation.security_warnings d with
         | [] => []
         | _ :: _ =>
           [py "⚠️ Security concerns: "
            ++ join (py "; ") (Validation.security_warnings d)]
         end)
     ++ (if Qlt_bool (Validation.security_score d) 0.5
         then [py "❌ Insufficient security features detected."]
         else []),
     valid).

(** The body of the [try] block of [check_document]. *)
Definition check_document_body (self : checker) (file_path : str)
  : outcome Check.t :=
  match extract_text file_path with
  | Raises e => Raises e
  | Returns extracted_text =>
    if extraction_failed extracted_text then
      Returns
        {| Check.document_type := py "error";
           Check.valid := false;
           Check.missing_fields := [py "Text extraction failed"];
           Check.suggestion :=
             py "Text extraction error: " ++ extracted_text
             ++ py ". Please ensure document is clear and readable.";
           Check.confidence := 0;
           Check.more := Check.ErrorDetails extracted_text |}
    else if (len (strip extracted_text) <? 10)%Z then
      Returns
        {| Check.document_type := py "unknown";
           Check.valid := false;
           Check.missing_fields := [py "Insufficient text extracted"];
           Check.suggestion :=
             py "Very little text was extracted from the document. Please upload a clearer, higher quality image.";
           Check.confidence := 0;
           Check.more := Check.TextLength (len extracted_text) |}
    else
      let document_type := detect_document_type self extracted_text in
      let document_type :=
        if falsy document_type
        then fallback_detection extracted_text file_path
        else document_type in
      match document_type with
      | None | Some [] =>
        Returns
          {| Check.document_type := py "unknown";
             Check.valid := false;
             Check.missing_fields := [py "Document type not recognized"];
             Check.suggestion := supported_documents;
             Check.confidence := 0;
             Check.more :=
               Check.TextSample
                 (if (200 <? len extracted_text)%Z
                  then firstn 200 extracted_text ++ py "..."
                  else extracted_text) |}
      | Some document_type =>
        match validate_document self extracted_text document_type with
        | Raises e => Raises e
        | Returns validation_result =>
          let expiry_info := check_expiry_date self extracted_text document_type in
          match Validation.rest validation_result with
          | None => Raises (py "'validity_score'")
          | Some d =>
            let confidence := fmul (Validation.validity_score d) 100 in
            let '(suggestions, valid) :=
              suggest (Validation.valid validation_result) d
                      (Validation.missing_fields validation_result) expiry_info in
            Returns
              {| Check.document_type := document_type;
                 Check.valid := valid;
                 Check.confidence := round1 confidence;
                 Check.missing_fields := Validation.missing_fields validation_result;
                 Check.suggestion :=
                   match suggestions with
                   | [] => py "Document analysis completed."
                   | _ :: _ => join (py " ") suggestions
                   end;
                 Check.more := Check.Report
                   {| Check.found_fields := Validation.found_fields d;
                      Check.field_confidence := Validation.field_confidence d;
                      Check.avg_field_confidence :=
                        round1 (Validation.avg_field_confidence d);
                      Check.security_score :=
                        round1 (fmul (Validation.security_score d) 100);
                      Check.security_warnings := Validation.security_warnings d;
                      Check.integrity_check := Validation.integrity_check d;
                      Check.authenticity_markers := Validation.authenticity_markers d;
                      Check.red_flags := Validation.red_flags d;
                      Check.expiry_info := expiry_info |} |}
          end
        end
      end
  end.

(** [check_document]: any exception becomes a report. *)
Definition check_document (self : checker) (file_path : str) : Check.t :=
  match check_document_body self file_path with
  | Returns report => report
  | Raises e =>
    {| Check.document_type := py "error";
       Check.valid := false;
       Check.missing_fields := [py "Processing error: " ++ e];
       Check.suggestion := py "Please try uploading again or contact support.";
       Check.confidence := 0;
       Check.more := Check.NoExtra |}
  end.

End Pipeline.

(* ================================================================== *)
(** * [DocumentAnalytics] *)

(** [result.get('security_score', 0)] *)
Definition report_security_score (result : Check.t) : Q :=
  match Check.more result with
  | Check.Report a => Check.security_score a
  | _ => 0
  end.

(** [l[-n:]] *)
Definition last_n (A : Type) (n : nat) (l : list A) : list A :=
  skipn (List.length l - n) l.

(** [log_validation]; [timestamp] is [datetime.now().isoformat()]. *)
Definition log_validation (self : analytics) (timestamp : str) (result : Check.t)
  : analytics :=
  let log_entry :=
    {| Log.timestamp := timestamp;
       Log.document_type := Check.document_type result;
       Log.valid := Check.valid result;
       Log.confidence := Check.confidence result;
       Log.security_score := report_security_score result |} in
  let validation_history := validation_history self ++ [log_entry] in
  if (100 <? len validation_history)%Z
  then {| validation_history := last_n 100 validation_history |}
  else {| validation_history := validation_history |}.

(** [analytics = DocumentAnalytics()] *)
Definition analytics_init : analytics := {| validation_history := [] |}.

(** A fragment of the Unicode database, enough to run the examples
    below (their texts are ASCII): beyond ASCII it knows the white space
    and the Devanagari digits, and takes every other code point for a
    caseless symbol. *)
Definition example_unicode : Unicode := {|
  uc_space := fun c =>
    existsb (N.eqb c) [133; 160; 5760; 8232; 8233; 8239; 8287; 12288]%N
    || between 8192 8202 c;
  uc_decimal := fun c =>
    if between 2406 2415 c then Some (Z.of_N (c - 2406)) else None;
  uc_alnum := fun c => between 2406 2415 c;
  uc_lower := fun c => [c];
  uc_fold := fun c => c
|}.

(** The dictionary that [get_statistics] returns. *)
Module Stats.
Record type_count := TypeCount {
  total : Z;
  valid : Z
}.
(** The keys that only a non-empty history yields. *)
Record details := Details {
  document_types : list (str * type_count);
  average_confidence : Q;
  average_security_score : Q
}.
Record t := Make {
  total_count : Z;
  valid_count : Z;
  invalid : Z;
  success_rate : Q;
  rest : option details
}.
End Stats.

(** One turn of the loop that fills [doc_types]. *)
Definition count_type (doc_types : list (str * Stats.type_count)) (entry : Log.entry)
  : list (str * Stats.type_count) :=
  let doc_type := Log.document_type entry in
  let doc_types :=
    match dict_get doc_types doc_type with
    | None => dict_set doc_types doc_type {| Stats.total := 0; Stats.valid := 0 |}
    | Some _ => doc_types
    end in
  match dict_get doc_types doc_type with
  | None => doc_types
  | Some c =>
    dict_set doc_types doc_type
             {| Stats.total := Stats.total c + 1;
                Stats.valid := if Log.valid entry then Stats.valid c + 1
                               else Stats.valid c |}
  end.

(** [sum(l)] over floats: from left to right, every addition rounded. *)
Definition sum_Q (l : list Q) : Q := fold_left fadd l 0%Q.

(** [get_statistics] *)
Definition get_statistics (self : analytics) : Stats.t :=
  match validation_history self with
  | [] =>
    {| Stats.total_count := 0; Stats.valid_count := 0; Stats.invalid := 0;
       Stats.success_rate := 0; Stats.rest := None |}
  | _ :: _ =>
    let total := len (validation_history self) in
    let valid := sum_if 1 Log.valid (validation_history self) in
    let invalid := (total - valid)%Z in
    let success_rate :=
      if (0 <? total)%Z then fmul (true_div valid total) 100 else 0%Q in
    let doc_types := fold_left count_type (validation_history self) [] in
    {| Stats.total_count := total;
       Stats.valid_count := valid;
       Stats.invalid := invalid;
       Stats.success_rate := round1 success_rate;
       Stats.rest := Some
         {| Stats.document_types := doc_types;
            Stats.average_confidence :=
              round1 (fdiv (sum_Q (map Log.confidence (validation_history self)))
                           (float_of_int total));
            Stats.average_security_score :=
              round1 (fdiv (sum_Q (map Log.security_score (validation_history self)))
                           (float_of_int total)) |} |}
  end.

(** Logging a sequence of reports, each with the time of its call. *)
Definition log_all (self : analytics) (calls : list (str * Check.t)) : analytics :=
  fold_left (fun a call => log_validation a (fst call) (snd call)) calls self.

(** The entry that [log_validation] builds. *)
Definition log_entry_of (call : str * Check.t) : Log.entry :=
  {| Log.timestamp := fst call;
     Log.document_type := Check.document_type (snd call);
     Log.valid := Check.valid (snd call);
     Log.confidence := Check.confidence (snd call);
     Log.security_score := report_security_score (snd call) |}.

(** ** Example inputs *)

(** An income certificate that says it was valid up to 1 January 2020. *)
Definition expired_certificate : str :=
  py "INCOME CERTIFICATE Tahsildar Rs. 45,000 Certificate No: INC/2024/001234 government seal official signature valid upto 01/01/2020".

(** Midnight of 3 November 2026. *)
Definition a_later_day : datetime := DateTime 739923 0.

(** A text that [non_creamy_layer] just validates (score 0.625), and a
    shorter one that lacks the letterhead. *)
Definition borderline_certificate : str :=
  py "obc certificate creamy layer officer government seal official signature letterhead ".

Definition certificate_without_letterhead : str :=
  py "obc certificate creamy layer officer government seal official signature ".

(** A registry with one type, whose field [photo] has neither a
    pattern nor a keyword rule. *)
Definition photo_card_checker : checker := {|
  document_patterns := [
    (py "photo_card",
     {| keywords := pys ["photo card"];
        required_fields := pys ["name"; "photo"];
        patterns := [(py "name", "[A-Za-z\s]{3,50}")];
        security_features := [] |})];
  fraud_indicators := fraud_indicators document_checker
|}.

(* ================================================================== *)
(** * Notions used to state and prove the properties *)

(** The first result that an attempt yields, the attempts being made
    in the order of the list and none after one that succeeds. *)
Fixpoint first_some (A B : Type) (f : A -> option B) (l : list A) : option B :=
  match l with
  | [] => None
  | x :: l' => match f x with Some y => Some y | None => first_some f l' end
  end.

(** The sum of a count over the per-type breakdown of the statistics. *)
Definition sum_counts (f : Stats.type_count -> Z)
           (d : list (str * Stats.type_count)) : Z :=
  fold_right (fun kv acc => (f (snd kv) + acc)%Z) 0%Z d.

(** A text that [re.compile] accepts. *)
Definition compiles (p : string) : bool :=
  match parse_regex (py p) with Some _ => true | None => false end.

(** Every pattern that the checker hands to [re]: those of the registry,
    those of the expiry search and the literals of the analysis, of the
    data extraction, of the integrity assessment and of the fallback
    classifier. *)
Definition source_patterns : list string :=
  flat_map (fun entry => map snd (patterns (snd entry)))
           (document_patterns document_checker)
  ++ validity_patterns
  ++ ["\d"; "\d{1,2}[/-]\d{1,2}[/-]\d{4}"; "[\u0900-\u097F]";
      "\b\d{4}[\s\-]*\d{4}[\s\-]*\d{4}\b"; "[A-Za-z]{3,}"; "[^\w\s]";
      "[A-Z]{2,}"; "\d{4}[\s\-]*\d{4}[\s\-]*\d{4}"; "male|female|पुरुष|महिला";
      "dob|date of birth|जन्म"; "address|पता";
      "\b(\d{4})[\s\-]*(\d{4})[\s\-]*(\d{4})\b";
      "(?:dob|date of birth|born)[:\s]*(\d{1,2}[/-]\d{1,2}[/-]\d{4})";
      "\b(male|पुरुष)\b"; "\b(female|महिला)\b"]
  ++ name_patterns.

Section Vocabulary.
Context {U : Unicode}.

(** A success of a pattern leaves a suffix of what was there to read. *)
Definition leaves_suffix (f : mstate -> list mstate) : Prop :=
  forall st st', In st' (f st) -> exists w, m_rest st = w ++ m_rest st'.

(** The character before the position reached after reading [pre]. *)
Definition prev_after (prev : option char) (pre : str) : option char :=
  match rev pre with c :: _ => Some c | [] => prev end.

(** Every success of [r] reads a character that satisfies [P]. *)
Definition reads_one (ci : bool) (P : char -> Prop) (r : regex) : Prop :=
  forall st st', In st' (run ci r st) ->
    exists a c b, m_rest st = a ++ c :: b ++ m_rest st' /\ P c.

(** A character outside [\w] and [\s]. *)
Definition special (c : char) : bool := negb (is_word c || is_space c).

(** What the field loop decides for a field, and the confidence that
    it stores for it. *)
Definition field_found (text : str) (patterns : list (str * string)) (field : str)
  : bool := fst (check_field text patterns field).

Definition stored_confidence (text : str) (patterns : list (str * string))
           (field : str) : Z :=
  if fst (check_field text patterns field)
  then snd (check_field text patterns field) else 0%Z.

(** Two dictionaries with the same keys in the same order, the values
    of the first at most those of the second. *)
Definition dict_le (d d' : list (str * Z)) : Prop :=
  Forall2 (fun kv kv' => fst kv = fst kv' /\ (snd kv <= snd kv')%Z) d d'.

(** The same position, with [s] appended to the text. *)
Definition extend (s : str) (st : mstate) : mstate :=
  MState (m_prev st) (m_rest st ++ s) (m_groups st).

(** Patterns without [\b]: what they match does not depend on what
    surrounds the match. *)
Fixpoint boundary_free (r : regex) : bool :=
  match r with
  | Boundary => false
  | Cat a b | Alt a b => boundary_free a && boundary_free b
  | Repeat _ _ _ a | Group _ a => boundary_free a
  | _ => true
  end.

(** Group [n] is set at a position. *)
Definition has_group (n : nat) (st : mstate) : Prop :=
  group_lookup (m_groups st) n <> None.

(** Four characters, each a decimal digit. *)
Definition four_digits (s : str) : Prop :=
  List.length s = 4%nat /\ Forall (fun c => is_digit c = true) s.

(** What [extract_structured_data] builds: the keys are known, the
    values are strings and the name is stripped. *)
Definition structured (d : list (str * option str)) : Prop :=
  (forall k v, In (k, v) d ->
     In k (pys ["aadhaar_number"; "name"; "dob"; "gender"]) /\ exists s, v = Some s)
  /\ (forall v, dict_get d (py "name") = Some (Some v) -> strip v = v).

(** Patterns that do not set group [n]. *)
Fixpoint no_group (n : nat) (r : regex) : bool :=
  match r with
  | Group k a => negb (Nat.eqb k n) && no_group n a
  | Cat a b => no_group n a && no_group n b
  | Alt a b => no_group n a && no_group n b
  | Repeat _ _ _ a => no_group n a
  | _ => true
  end.

(** Patterns every match of which sets group [n]. *)
Fixpoint always_captures (n : nat) (r : regex) : bool :=
  match r with
  | Group k a => Nat.eqb k n || always_captures n a
  | Cat a b => always_captures n a || always_captures n b
  | _ => false
  end.

End Vocabulary.

(* ================================================================== *)
(** * Properties *)

(** ** Strings and dictionaries *)

Lemma str_eqb_eq (a b : str) : str_eqb a b = true <-> a = b.
Proof.
  revert b; induction a as [|x a IH]; intros [|y b]; simpl.
  - split; reflexivity.
  - split; discriminate.
  - split; discriminate.
  - rewrite andb_true_iff, N.eqb_eq, IH. split.
    + intros [-> ->]. reflexivity.
    + intros H. injection H as -> ->. split; reflexivity.
Qed.

Lemma str_eqb_refl (a : str) : str_eqb a a = true.
Proof. now apply str_eqb_eq. Qed.

Lemma str_eqb_neq (a b : str) : str_eqb a b = false <-> a <> b.
Proof.
  split.
  - intros H E. apply str_eqb_eq in E. congruence.
  - intros H. destruct (str_eqb a b) eqn:E; [|reflexivity].
    apply str_eqb_eq in E. contradiction.
Qed.

Lemma dict_get_set_same (V : Type) (d : list (str * V)) k v :
  dict_get (dict_set d k v) k = Some v.
Proof.
  induction d as [|[k' v'] d IH]; simpl.
  - now rewrite str_eqb_refl.
  - destruct (str_eqb k' k) eqn:E; simpl; rewrite E; auto.
Qed.

Lemma dict_get_set_other (V : Type) (d : list (str * V)) k k' v :
  k <> k' -> dict_get (dict_set d k v) k' = dict_get d k'.
Proof.
  intros Hne. induction d as [|[k0 v0] d IH]; simpl.
  - apply str_eqb_neq in Hne. now rewrite Hne.
  - destruct (str_eqb k0 k) eqn:E; simpl.
    + apply str_eqb_eq in E. subst k0.
      apply str_eqb_neq in Hne. now rewrite Hne.
    + destruct (str_eqb k0 k'); auto.
Qed.

Lemma startswith_app (s p x : str) :
  startswith s p = true -> startswith (s ++ x) p = true.
Proof.
  revert s; induction p as [|c p IH]; intros s.
  { intros _. destruct (s ++ x); reflexivity. }
  destruct s as [|d s]; simpl; [discriminate|].
  intros H. apply andb_true_iff in H as [H1 H2].
  rewrite H1. simpl. now apply IH.
Qed.

Lemma contains_app (s sub x : str) :
  contains s sub = true -> contains (s ++ x) sub = true.
Proof.
  induction s as [|c s IH]; simpl.
  - rewrite orb_false_r. destruct sub; simpl; [|discriminate].
    intros _. destruct x; reflexivity.
  - intros H. apply orb_true_iff in H as [H|H].
    + apply (startswith_app (c :: s) sub x) in H. simpl in H. rewrite H. reflexivity.
    + rewrite (IH H). apply orb_true_r.
Qed.

Lemma filter_length_le (A : Type) (f : A -> bool) (l : list A) :
  (List.length (filter f l) <= List.length l)%nat.
Proof.
  induction l as [|a l IH]; simpl; [lia|].
  destruct (f a); simpl; lia.
Qed.

Lemma filter_length_mono (A : Type) (f g : A -> bool) (l : list A) :
  (forall a, f a = true -> g a = true) ->
  (List.length (filter f l) <= List.length (filter g l))%nat.
Proof.
  intros Hfg. induction l as [|a l IH]; simpl; [lia|].
  destruct (f a) eqn:Ef.
  - rewrite (Hfg a Ef). simpl. lia.
  - destruct (g a); simpl; lia.
Qed.

Section StringFacts.
Context {U : Unicode}.

Lemma lower_app (a b : str) : lower (a ++ b) = lower a ++ lower b.
Proof. unfold lower. apply flat_map_app. Qed.

Lemma mentions_app (text s term : str) :
  mentions text term = true -> mentions (text ++ s) term = true.
Proof.
  unfold mentions. rewrite lower_app. apply contains_app.
Qed.

End StringFacts.

(** ** The matcher *)

Section MatcherFacts.
Context {U : Unicode}.

Lemma step_suffix p : leaves_suffix (step p).
Proof.
  intros st st'. unfold step. destruct (m_rest st) as [|c t] eqn:E; simpl; [tauto|].
  destruct (p c); simpl; [|tauto].
  intros [<-|[]]. simpl. exists [c]. reflexivity.
Qed.

Lemma iterate_suffix f lo n g :
  leaves_suffix f -> leaves_suffix (iterate f lo n g).
Proof.
  intros Hf. revert lo. induction n as [|n IH]; intros lo st st'; simpl.
  - destruct lo; simpl; [|tauto]. intros [<-|[]]. now exists [].
  - assert (Hmore : In st' (flat_map (iterate f (pred lo) n g) (f st)) ->
                    exists w, m_rest st = w ++ m_rest st').
    { intros H. apply in_flat_map in H as [mid [H1 H2]].
      apply Hf in H1 as [w1 E1]. apply IH in H2 as [w2 E2].
      exists (w1 ++ w2). rewrite E1, E2. now rewrite app_assoc. }
    destruct lo; [|exact Hmore].
    destruct g.
    + intros H. apply in_app_or in H as [H|[<-|[]]]; [auto|now exists []].
    + intros [<-|H]; [now exists []|auto].
Qed.

Lemma run_suffix ci r : leaves_suffix (run ci r).
Proof.
  induction r as [| l | | neg items | | a IHa b IHb | a IHa b IHb
                  | lo hi g a IHa | n a IHa]; intros st st'; simpl.
  - intros [<-|[]]. now exists [].
  - apply step_suffix.
  - apply step_suffix.
  - apply step_suffix.
  - destruct (xorb _ _); simpl; [|tauto]. intros [<-|[]]. now exists [].
  - intros H. apply in_flat_map in H as [mid [H1 H2]].
    apply IHa in H1 as [w1 E1]. apply IHb in H2 as [w2 E2].
    exists (w1 ++ w2). rewrite E1, E2. now rewrite app_assoc.
  - intros H. apply in_app_or in H as [H|H]; auto.
  - apply iterate_suffix. exact IHa.
  - intros H. apply in_map_iff in H as [mid [<- H]]. simpl. now apply IHa.
Qed.

(** Searching finds a match exactly when the pattern succeeds at some
    position of the text. *)
Lemma prev_after_cons prev c pre :
  prev_after (Some c) pre = prev_after prev (c :: pre).
Proof.
  unfold prev_after. simpl. destruct (rev pre); reflexivity.
Qed.

Lemma search_from_some ci r prev rest m :
  search_from ci r prev rest = Some m ->
  exists pre, rest = pre ++ match_from m
              /\ In (match_end m)
                    (run ci r (MState (prev_after prev pre) (match_from m) [])).
Proof.
  revert prev. induction rest as [|c t IH]; intros prev; simpl.
  - destruct (run ci r (MState prev [] [])) as [|e l] eqn:E; [discriminate|].
    intros H. injection H as <-. simpl. exists []. unfold prev_after. simpl.
    rewrite E. simpl. auto.
  - destruct (run ci r (MState prev (c :: t) [])) as [|e l] eqn:E.
    + intros H. apply IH in H as [pre [E1 E2]].
      exists (c :: pre). simpl. rewrite <- E1. split; [reflexivity|].
      now rewrite <- prev_after_cons.
    + intros H. injection H as <-. simpl. exists []. unfold prev_after. simpl.
      rewrite E. simpl. auto.
Qed.

(** Searching for a one-character pattern is a test on the characters. *)
Lemma search_from_step ci r p :
  (forall st, run ci r st = step p st) ->
  forall prev rest,
    match search_from ci r prev rest with Some _ => true | None => false end
    = existsb p rest.
Proof.
  intros Hr prev rest. revert prev.
  induction rest as [|c t IH]; intros prev; simpl; rewrite Hr; unfold step; simpl.
  - reflexivity.
  - destruct (p c); simpl; [reflexivity|apply IH].
Qed.

(** A pattern that succeeds somewhere in the text is found. *)
Lemma search_from_found ci r prev pre from e :
  In e (run ci r (MState (prev_after prev pre) from [])) ->
  search_from ci r prev (pre ++ from) <> None.
Proof.
  revert prev. induction pre as [|c pre IH]; intros prev Hin.
  - unfold prev_after in Hin. simpl in *.
    destruct from as [|d from]; simpl;
      destruct (run ci r _) as [|x l]; simpl in *; try tauto; discriminate.
  - simpl. destruct (run ci r (MState prev (c :: pre ++ from) [])) as [|x l];
      [|discriminate].
    apply IH. now rewrite prev_after_cons with (prev := prev).
Qed.

End MatcherFacts.

(** ** The patterns of the integrity checks *)

Lemma special_pattern :
  re "[^\w\s]" = InSet true [CCat CatWord; CCat CatSpace].
Proof. reflexivity. Qed.

Lemma date_pattern :
  re "\d{1,2}[/-]\d{1,2}[/-]\d{4}"
  = Cat (Repeat 1 (Some 2%nat) true (InSet false [CCat CatDigit]))
        (Cat (InSet false [CChar 47%N; CChar 45%N])
             (Cat (Repeat 1 (Some 2%nat) true (InSet false [CCat CatDigit]))
                  (Cat (InSet false [CChar 47%N; CChar 45%N])
                       (Repeat 4 (Some 4%nat) true (InSet false [CCat CatDigit]))))).
Proof. reflexivity. Qed.

Section IntegrityFacts.
Context {U : Unicode}.

Lemma reads_one_set ci (P : char -> Prop) neg items :
  (forall c, set_match ci neg items c = true -> P c) ->
  reads_one ci P (InSet neg items).
Proof.
  intros HP st st'. simpl. unfold step.
  destruct (m_rest st) as [|c t] eqn:E; simpl; [tauto|].
  destruct (set_match ci neg items c) eqn:Em; simpl; [|tauto].
  intros [<-|[]]. simpl. exists [], c, []. split; [reflexivity|auto].
Qed.

Lemma reads_one_cat_l ci P a b : reads_one ci P a -> reads_one ci P (Cat a b).
Proof.
  intros Ha st st'. simpl. intros H.
  apply in_flat_map in H as [mid [H1 H2]].
  apply Ha in H1 as [x [c [y [E1 Hc]]]].
  apply run_suffix in H2 as [w E2].
  exists x, c, (y ++ w). split; [|exact Hc].
  rewrite E1, E2. now rewrite <- app_assoc.
Qed.

Lemma reads_one_cat_r ci P a b : reads_one ci P b -> reads_one ci P (Cat a b).
Proof.
  intros Hb st st'. simpl. intros H.
  apply in_flat_map in H as [mid [H1 H2]].
  apply run_suffix in H1 as [w E1].
  apply Hb in H2 as [x [c [y [E2 Hc]]]].
  exists (w ++ x), c, y. split; [|exact Hc].
  rewrite E1, E2. now rewrite <- app_assoc.
Qed.

(** [re.search(r'[^\w\s]', text)] finds a match exactly when some
    character of the text is neither a word character nor white space. *)
Lemma special_found (text : str) :
  re_found false "[^\w\s]" text = existsb special text.
Proof.
  unfold re_found, re_search. rewrite special_pattern.
  rewrite (search_from_step false (InSet true [CCat CatWord; CCat CatSpace])
             (set_match false true [CCat CatWord; CCat CatSpace])) by reflexivity.
  induction text as [|c text IH]; simpl; [reflexivity|].
  rewrite IH. unfold set_match, special. simpl.
  rewrite orb_false_r. reflexivity.
Qed.

(** A date contains a slash or a hyphen, hence a special character. *)
Lemma date_has_special (text : str) :
  re_found false "\d{1,2}[/-]\d{1,2}[/-]\d{4}" text = true ->
  re_found false "[^\w\s]" text = true.
Proof.
  rewrite special_found. unfold re_found, re_search. rewrite date_pattern.
  destruct (search_from _ _ _ _) as [m|] eqn:E; [intros _|discriminate].
  apply search_from_some in E as [pre [E1 E2]].
  assert (R : reads_one false (fun c => c = 47%N \/ c = 45%N)
                (Cat (Repeat 1 (Some 2%nat) true (InSet false [CCat CatDigit]))
                   (Cat (InSet false [CChar 47%N; CChar 45%N])
                      (Cat (Repeat 1 (Some 2%nat) true (InSet false [CCat CatDigit]))
                         (Cat (InSet false [CChar 47%N; CChar 45%N])
                            (Repeat 4 (Some 4%nat) true
                               (InSet false [CCat CatDigit]))))))).
  { apply reads_one_cat_r, reads_one_cat_l, reads_one_set.
    intros c. unfold set_match. rewrite xorb_false_l.
    cbn [existsb item_match lit_match]. rewrite orb_false_r.
    intros H. apply orb_true_iff in H as [H|H]; apply N.eqb_eq in H; auto. }
  apply R in E2 as [a [c [b [E3 Hc]]]]. simpl in E3.
  apply existsb_exists. exists c. split.
  - rewrite E1, E3. apply in_or_app. right. apply in_or_app. right. now left.
  - destruct Hc as [-> | ->]; reflexivity.
Qed.

Lemma quality_special_values text :
  quality_special text = (if existsb special text then 0 else 20)%Z.
Proof.
  unfold quality_special. rewrite special_found.
  destruct (existsb special text); reflexivity.
Qed.

(** The two integrity scores together never exceed 100: a text cannot
    earn the points for a date and those for having no special
    character. *)
Lemma integrity_bounds (self : checker) text t :
  let i := validate_document_integrity self text t in
  (0 <= Integrity.text_quality i + Integrity.structure_score i <= 100)%Z.
Proof.
  simpl.
  pose proof (date_has_special text) as Hd.
  unfold quality_length_100, quality_length_300, quality_words, quality_special,
    structure_numbers, structure_uppercase, structure_dates.
  destruct (re_found false "\d{1,2}[/-]\d{1,2}[/-]\d{4}" text).
  - rewrite (Hd eq_refl). simpl.
    repeat match goal with |- context [if ?b then _ else _] => destruct b end; lia.
  - repeat match goal with |- context [if ?b then _ else _] => destruct b end; simpl; lia.
Qed.

End IntegrityFacts.

(** ** Arithmetic of the scores *)

Lemma Qlt_bool_iff (a b : Q) : Qlt_bool a b = true <-> (a < b)%Q.
Proof.
  unfold Qlt_bool. rewrite negb_true_iff. split.
  - intros H. apply Qnot_le_lt. intros Hle.
    apply Qle_bool_iff in Hle. congruence.
  - intros H. destruct (Qle_bool b a) eqn:E; [|reflexivity].
    apply Qle_bool_iff in E. apply Qle_not_lt in E. contradiction.
Qed.

Lemma Qlt_bool_false (a b : Q) : Qlt_bool a b = false <-> (b <= a)%Q.
Proof.
  unfold Qlt_bool. rewrite negb_false_iff. apply Qle_bool_iff.
Qed.

(** *** Rounding to the nearest double *)

Lemma round_half_even_cases (q : Q) :
  (round_half_even q = Qfloor q /\ (q - inject_Z (Qfloor q) <= 1 # 2)%Q)
  \/ (round_half_even q = (Qfloor q + 1)%Z /\ (1 # 2 <= q - inject_Z (Qfloor q))%Q).
Proof.
  unfold round_half_even.
  destruct (q - inject_Z (Qfloor q) ?= 1 # 2)%Q eqn:E.
  - apply Qeq_alt in E. destruct (Z.even (Qfloor q)); [left|right];
      (split; [reflexivity|rewrite E; apply Qle_refl]).
  - apply Qlt_alt in E. left. split; [reflexivity|now apply Qlt_le_weak].
  - apply Qgt_alt in E. right. split; [reflexivity|now apply Qlt_le_weak].
Qed.

Lemma round_half_even_mono (x y : Q) :
  (x <= y)%Q -> (round_half_even x <= round_half_even y)%Z.
Proof.
  intros H. pose proof (Qfloor_resp_le _ _ H) as Hf.
  destruct (Z.eq_dec (Qfloor x) (Qfloor y)) as [E|E].
  - unfold round_half_even. rewrite E.
    destruct (x - inject_Z (Qfloor y) ?= 1 # 2)%Q eqn:Ex;
      destruct (y - inject_Z (Qfloor y) ?= 1 # 2)%Q eqn:Ey;
      try (destruct (Z.even (Qfloor y))); try lia;
      repeat match goal with
             | H : (_ ?= _)%Q = Eq |- _ => apply Qeq_alt in H
             | H : (_ ?= _)%Q = Lt |- _ => apply Qlt_alt in H
             | H : (_ ?= _)%Q = Gt |- _ => apply Qgt_alt in H
             end; lra.
  - destruct (round_half_even_cases x) as [[-> _]|[-> _]];
      destruct (round_half_even_cases y) as [[-> _]|[-> _]]; lia.
Qed.

Lemma round_half_even_Z (n : Z) : round_half_even (inject_Z n) = n.
Proof.
  unfold round_half_even. rewrite Qfloor_Z.
  replace (inject_Z n - inject_Z n ?= 1 # 2)%Q with Lt; [reflexivity|].
  symmetry. apply (proj1 (Qlt_alt _ _)). generalize (inject_Z n). intros z. lra.
Qed.

Lemma pow2_pos (e : Z) : (0 < pow2 e)%Q.
Proof. apply Qpower_0_lt. reflexivity. Qed.

Lemma pow2_add (a b : Z) : (pow2 (a + b) == pow2 a * pow2 b)%Q.
Proof. apply Qpower_plus. discriminate. Qed.

Lemma pow2_le (a b : Z) : (a <= b)%Z -> (pow2 a <= pow2 b)%Q.
Proof. intros H. apply Qpower_le_compat_l; [exact H|]. discriminate. Qed.

Lemma pow2_Z (a : Z) : (0 <= a)%Z -> (pow2 a == inject_Z (2 ^ a))%Q.
Proof. intros H. unfold pow2. now rewrite Zpower_Qpower. Qed.

Lemma ilog2_spec (q : Q) :
  (0 < q)%Q -> (pow2 (ilog2 q) <= q)%Q /\ (q < pow2 (ilog2 q + 1))%Q.
Proof.
  intros Hq. destruct q as [n d].
  assert (Hn : (0 < n)%Z) by (unfold Qlt in Hq; simpl in Hq; lia).
  pose proof (Z.log2_spec n Hn) as [Ha1 Ha2].
  pose proof (Z.log2_spec (Zpos d) eq_refl) as [Hb1 Hb2].
  pose proof (Z.log2_nonneg n) as Ha0.
  pose proof (Z.log2_nonneg (Zpos d)) as Hb0.
  set (a := Z.log2 n) in *. set (b := Z.log2 (Zpos d)) in *.
  assert (Hd : (n # d == inject_Z n / inject_Z (Zpos d))%Q) by apply Qmake_Qdiv.
  assert (Hdp : (0 < inject_Z (Zpos d))%Q) by reflexivity.
  assert (Hmul : ((n # d) * inject_Z (Zpos d) == inject_Z n)%Q).
  { rewrite Hd. field. intros H. rewrite H in Hdp. discriminate Hdp. }
  assert (Qa1 : (pow2 a <= inject_Z n)%Q) by (rewrite pow2_Z, <- Zle_Qle; lia).
  assert (Qa2 : (inject_Z n < pow2 (a + 1))%Q)
    by (rewrite pow2_Z, <- Zlt_Qlt; [exact Ha2|lia]).
  assert (Qb1 : (pow2 b <= inject_Z (Zpos d))%Q) by (rewrite pow2_Z, <- Zle_Qle; lia).
  assert (Qb2 : (inject_Z (Zpos d) < pow2 (b + 1))%Q)
    by (rewrite pow2_Z, <- Zlt_Qlt; [exact Hb2|lia]).
  assert (Hup : (n # d < pow2 (a - b + 1))%Q).
  { apply Qmult_lt_r with (z := pow2 b); [apply pow2_pos|].
    rewrite <- pow2_add. replace (a - b + 1 + b)%Z with (a + 1)%Z by lia.
    eapply Qle_lt_trans; [|exact Qa2]. rewrite <- Hmul.
    apply Qmult_le_l; [exact Hq|exact Qb1]. }
  assert (Hlo : (pow2 (a - b - 1) < n # d)%Q).
  { apply Qmult_lt_r with (z := pow2 (b + 1)); [apply pow2_pos|].
    rewrite <- pow2_add. replace (a - b - 1 + (b + 1))%Z with a by lia.
    eapply Qle_lt_trans; [exact Qa1|]. rewrite <- Hmul.
    apply Qmult_lt_l; [exact Hq|exact Qb2]. }
  unfold ilog2. cbn [Qnum Qden]. fold a b.
  destruct (Qle_bool (pow2 (a - b)) (n # d)) eqn:E.
  - apply Qle_bool_iff in E. split; [exact E|exact Hup].
  - split; [now apply Qlt_le_weak|].
    replace (a - b - 1 + 1)%Z with (a - b)%Z by lia.
    apply Qnot_le_lt. intros H. apply Qle_bool_iff in H. congruence.
Qed.

Lemma ilog2_mono (x y : Q) : (0 < x)%Q -> (x <= y)%Q -> (ilog2 x <= ilog2 y)%Z.
Proof.
  intros Hx Hxy.
  destruct (@ilog2_spec x Hx) as [H1 _].
  destruct (@ilog2_spec y) as [_ H2]; [eapply Qlt_le_trans; eauto|].
  assert (H : (pow2 (ilog2 x) < pow2 (ilog2 y + 1))%Q)
    by (eapply Qle_lt_trans; [exact H1|eapply Qle_lt_trans; eauto]).
  apply Qpower_lt_compat_l_inv in H; [lia|reflexivity].
Qed.

Lemma float_pos_value (q : Q) :
  (float_pos q
   == inject_Z (round_half_even (q / pow2 (float_exponent q)))
      * pow2 (float_exponent q))%Q.
Proof. unfold float_pos. apply Qred_correct. Qed.

Lemma float_pos_nonneg (q : Q) : (0 <= q)%Q -> (0 <= float_pos q)%Q.
Proof.
  intros H. rewrite float_pos_value.
  apply Qmult_le_0_compat; [|apply Qlt_le_weak, pow2_pos].
  change 0%Q with (inject_Z 0). rewrite <- Zle_Qle.
  rewrite <- (round_half_even_Z 0). apply round_half_even_mono.
  apply Qle_shift_div_l; [apply pow2_pos|]. now rewrite Qmult_0_l.
Qed.

Lemma float_pos_mono (x y : Q) :
  (0 < x)%Q -> (x <= y)%Q -> (float_pos x <= float_pos y)%Q.
Proof.
  intros Hx Hxy. assert (Hy : (0 < y)%Q) by (eapply Qlt_le_trans; eauto).
  rewrite !float_pos_value.
  pose proof (@ilog2_mono x y Hx Hxy) as Hk.
  destruct (@ilog2_spec x Hx) as [_ Hxu]. destruct (@ilog2_spec y Hy) as [Hyl _].
  unfold float_exponent.
  set (ex := Z.max (ilog2 x - 52) (-1074)). set (ey := Z.max (ilog2 y - 52) (-1074)).
  assert (He : (ex <= ey)%Z) by lia.
  destruct (Z.eq_dec ex ey) as [E|E].
  - rewrite <- E. apply Qmult_le_compat_r; [|apply Qlt_le_weak, pow2_pos].
    rewrite <- Zle_Qle. apply round_half_even_mono.
    apply Qmult_le_compat_r; [exact Hxy|].
    apply Qlt_le_weak, Qinv_lt_0_compat, pow2_pos.
  - assert (Hey : ey = (ilog2 y - 52)%Z) by lia.
    assert (Hex : (ilog2 x + 1 <= ex + 53)%Z) by lia.
    apply Qle_trans with (pow2 (ex + 53)).
    + rewrite (pow2_add ex 53), (Qmult_comm (pow2 ex) (pow2 53)).
      apply Qmult_le_compat_r; [|apply Qlt_le_weak, pow2_pos].
      assert (E53 : (pow2 53 == inject_Z (2 ^ 53))%Q) by (apply pow2_Z; lia).
      rewrite E53, <- Zle_Qle.
      apply Z.le_trans with (round_half_even (inject_Z (2 ^ 53)));
        [|rewrite round_half_even_Z; lia].
      apply round_half_even_mono. rewrite <- E53.
      apply Qle_shift_div_r; [apply pow2_pos|].
      rewrite <- pow2_add. apply Qlt_le_weak. eapply Qlt_le_trans; [exact Hxu|].
      apply pow2_le. lia.
    + apply Qle_trans with (pow2 (ey + 52)); [apply pow2_le; lia|].
      rewrite (pow2_add ey 52), (Qmult_comm (pow2 ey) (pow2 52)).
      apply Qmult_le_compat_r; [|apply Qlt_le_weak, pow2_pos].
      assert (E52 : (pow2 52 == inject_Z (2 ^ 52))%Q) by (apply pow2_Z; lia).
      rewrite E52, <- Zle_Qle.
      apply Z.le_trans with (round_half_even (inject_Z (2 ^ 52)));
        [rewrite round_half_even_Z; lia|].
      apply round_half_even_mono. rewrite <- E52.
      apply Qle_shift_div_l; [apply pow2_pos|].
      rewrite <- pow2_add. eapply Qle_trans; [|exact Hyl].
      apply pow2_le. lia.
Qed.

Lemma float_mono (x y : Q) : (x <= y)%Q -> (float x <= float y)%Q.
Proof.
  intros H. unfold float.
  destruct (x ?= 0)%Q eqn:Ex; destruct (y ?= 0)%Q eqn:Ey;
    repeat match goal with
           | H : (_ ?= _)%Q = Eq |- _ => apply Qeq_alt in H
           | H : (_ ?= _)%Q = Lt |- _ => apply Qlt_alt in H
           | H : (_ ?= _)%Q = Gt |- _ => apply Qgt_alt in H
           end; try lra.
  - apply float_pos_nonneg. lra.
  - assert (H0 : (0 <= float_pos (- x))%Q) by (apply float_pos_nonneg; lra). lra.
  - assert (H0 : (float_pos (- y) <= float_pos (- x))%Q)
      by (apply float_pos_mono; lra). lra.
  - assert (H0 : (0 <= float_pos (- x))%Q) by (apply float_pos_nonneg; lra).
    assert (H1 : (0 <= float_pos y)%Q) by (apply float_pos_nonneg; lra). lra.
  - now apply float_pos_mono.
Qed.

Lemma float_compat (x y : Q) : (x == y)%Q -> (float x == float y)%Q.
Proof.
  intros E. apply Qle_antisym; apply float_mono; rewrite E; apply Qle_refl.
Qed.

(** Rounding does not cross a double. *)
Lemma float_between (a b x : Q) :
  (float a == a)%Q -> (float b == b)%Q -> (a <= x <= b)%Q -> (a <= float x <= b)%Q.
Proof.
  intros Ea Eb [Ha Hb]. split.
  - rewrite <- Ea. now apply float_mono.
  - rewrite <- Eb. now apply float_mono.
Qed.

Lemma float_unit (x : Q) : (0 <= x <= 1)%Q -> (0 <= float x <= 1)%Q.
Proof. apply float_between; reflexivity. Qed.

Lemma float_percent (x : Q) : (0 <= x <= 100)%Q -> (0 <= float x <= 100)%Q.
Proof. apply float_between; reflexivity. Qed.

Lemma float_nonneg (x : Q) : (0 <= x)%Q -> (0 <= float x)%Q.
Proof. intros H. apply (@float_mono 0 x H). Qed.

Lemma float_nonpos (x : Q) : (x <= 0)%Q -> (float x <= 0)%Q.
Proof. intros H. apply (@float_mono x 0 H). Qed.

Lemma fadd_mono (a a' b b' : Q) :
  (a <= a')%Q -> (b <= b')%Q -> (fadd a b <= fadd a' b')%Q.
Proof. intros Ha Hb. apply float_mono. lra. Qed.

Lemma fsub_mono (a a' b b' : Q) :
  (a <= a')%Q -> (b' <= b)%Q -> (fsub a b <= fsub a' b')%Q.
Proof. intros Ha Hb. apply float_mono. lra. Qed.

Lemma fmul_mono (a a' c : Q) :
  (0 <= c)%Q -> (a <= a')%Q -> (fmul a c <= fmul a' c)%Q.
Proof. intros Hc Ha. apply float_mono. now apply Qmult_le_compat_r. Qed.

Lemma fmul_nonneg (a c : Q) : (0 <= a)%Q -> (0 <= c)%Q -> (0 <= fmul a c)%Q.
Proof. intros Ha Hc. apply float_nonneg. now apply Qmult_le_0_compat. Qed.

Lemma fdiv_mono (a a' c : Q) :
  (0 < c)%Q -> (a <= a')%Q -> (fdiv a c <= fdiv a' c)%Q.
Proof.
  intros Hc Ha. apply float_mono. apply Qmult_le_compat_r; [exact Ha|].
  now apply Qlt_le_weak, Qinv_lt_0_compat.
Qed.

Lemma round1_mono (x y : Q) : (x <= y)%Q -> (round1 x <= round1 y)%Q.
Proof.
  intros H. apply float_mono. apply Qmult_le_compat_r; [|discriminate].
  rewrite <- Zle_Qle. apply round_half_even_mono. lra.
Qed.

(** From here on the rounding is used through these lemmas only. *)
#[global] Opaque float_pos.

(** *** Ratios and the floor at zero *)

Lemma ratio_bounds (a b : Z) :
  (0 <= a <= b)%Z -> (0 < b)%Z -> (0 <= inject_Z a / inject_Z b <= 1)%Q.
Proof.
  intros [Ha Hab] Hb.
  assert (Hb' : (0 < inject_Z b)%Q) by (unfold Qlt; simpl; lia).
  split.
  - apply Qle_shift_div_l; [exact Hb'|]. rewrite Qmult_0_l.
    unfold Qle; simpl; lia.
  - apply Qle_shift_div_r; [exact Hb'|]. rewrite Qmult_1_l.
    unfold Qle; simpl; lia.
Qed.

Lemma ratio_mono (a a' b : Z) :
  (a <= a')%Z -> (0 < b)%Z -> (inject_Z a / inject_Z b <= inject_Z a' / inject_Z b)%Q.
Proof.
  intros Ha Hb.
  assert (Hb' : (0 < inject_Z b)%Q) by (unfold Qlt; simpl; lia).
  apply Qle_shift_div_l; [exact Hb'|].
  unfold Qdiv. rewrite <- Qmult_assoc, (Qmult_comm (/ inject_Z b)).
  rewrite Qmult_inv_r, Qmult_1_r.
  - unfold Qle; simpl; lia.
  - intros E. rewrite E in Hb'. apply Qlt_irrefl in Hb'. exact Hb'.
Qed.

Lemma floor_at_zero_nonneg x : (0 <= floor_at_zero x)%Q.
Proof.
  unfold floor_at_zero. destruct (Qlt_bool 0 x) eqn:E.
  - apply Qlt_bool_iff in E. now apply Qlt_le_weak.
  - apply Qle_refl.
Qed.

Lemma floor_at_zero_le x y : (x <= y)%Q -> (0 <= y)%Q -> (floor_at_zero x <= y)%Q.
Proof.
  intros Hxy Hy. unfold floor_at_zero. destruct (Qlt_bool 0 x); assumption.
Qed.

Lemma floor_at_zero_mono x y : (x <= y)%Q -> (floor_at_zero x <= floor_at_zero y)%Q.
Proof.
  intros Hxy. unfold floor_at_zero.
  destruct (Qlt_bool 0 x) eqn:Ex, (Qlt_bool 0 y) eqn:Ey.
  - exact Hxy.
  - apply Qlt_bool_iff in Ex. apply Qlt_bool_false in Ey. lra.
  - apply Qlt_bool_iff in Ey. lra.
  - lra.
Qed.

Lemma len_nonneg (A : Type) (l : list A) : (0 <= len l)%Z.
Proof. unfold len. lia. Qed.

Lemma inject_len_nonneg (A : Type) (l : list A) : (0 <= inject_Z (len l))%Q.
Proof.
  change 0%Q with (inject_Z 0). rewrite <- Zle_Qle. apply len_nonneg.
Qed.

Lemma len_cons_pos (A : Type) (a : A) (l : list A) : (0 < len (a :: l))%Z.
Proof. unfold len. simpl. lia. Qed.

Lemma len_app (A : Type) (l l' : list A) : len (l ++ l') = (len l + len l')%Z.
Proof. unfold len. rewrite length_app. lia. Qed.

(** ** The loop over the required fields *)

Section FieldFacts.
Context {U : Unicode}.

Lemma field_step_eq text pats acc field :
  field_step text pats acc field
  = {| acc_found := acc_found acc ++ (if field_found text pats field then [field] else []);
       acc_missing := acc_missing acc ++ (if field_found text pats field then [] else [field]);
       acc_confidence :=
         dict_set (acc_confidence acc) field (stored_confidence text pats field) |}.
Proof.
  unfold field_step, field_found, stored_confidence.
  destruct (check_field text pats field) as [b c]. simpl.
  destruct b; simpl; now rewrite app_nil_r.
Qed.

Lemma fold_fields text pats fields acc :
  let r := fold_left (field_step text pats) fields acc in
  acc_found r = acc_found acc ++ filter (field_found text pats) fields
  /\ acc_missing r
     = acc_missing acc ++ filter (fun f => negb (field_found text pats f)) fields
  /\ acc_confidence r
     = fold_left (fun d f => dict_set d f (stored_confidence text pats f))
                 fields (acc_confidence acc).
Proof.
  revert acc. induction fields as [|f fields IH]; intros acc; simpl.
  - now rewrite !app_nil_r.
  - destruct (IH (field_step text pats acc f)) as [H1 [H2 H3]].
    rewrite H1, H2, H3, field_step_eq. simpl.
    destruct (field_found text pats f); simpl; rewrite <- !app_assoc; auto.
Qed.

Lemma check_fields_found text config :
  acc_found (check_fields text config)
  = filter (field_found text (patterns config)) (required_fields config).
Proof. apply (fold_fields text (patterns config) (required_fields config)). Qed.

Lemma check_fields_missing text config :
  acc_missing (check_fields text config)
  = filter (fun f => negb (field_found text (patterns config) f))
           (required_fields config).
Proof. apply (fold_fields text (patterns config) (required_fields config)). Qed.

Lemma check_fields_confidence text config :
  acc_confidence (check_fields text config)
  = fold_left (fun d f => dict_set d f (stored_confidence text (patterns config) f))
              (required_fields config) [].
Proof. apply (fold_fields text (patterns config) (required_fields config)). Qed.

(** Every required field has its stored confidence in the dictionary. *)
Lemma confidence_lookup (v : str -> Z) fields d field :
  In field fields ->
  dict_get (fold_left (fun d f => dict_set d f (v f)) fields d) field
  = Some (v field).
Proof.
  revert d. induction fields as [|f fields IH] using rev_ind; intros d Hin.
  - destruct Hin.
  - rewrite fold_left_app. simpl.
    destruct (str_eqb f field) eqn:E.
    + apply str_eqb_eq in E. subst f. apply dict_get_set_same.
    + apply str_eqb_neq in E. rewrite dict_get_set_other by exact E.
      apply IH. apply in_app_or in Hin as [H|[H|[]]]; [exact H|contradiction].
Qed.

Lemma count_terms_nonneg text terms : (0 <= count_terms text terms)%Z.
Proof.
  unfold count_terms, sum_if.
  assert (G : forall l acc, (0 <= acc)%Z ->
            (0 <= fold_left (fun acc x => if mentions text x then acc + 1 else acc) l acc)%Z).
  { induction l as [|x l IH]; intros acc Hacc; simpl; [exact Hacc|].
    apply IH. destruct (mentions text x); lia. }
  apply G. lia.
Qed.

Lemma stored_confidence_bounds text pats field :
  (0 <= stored_confidence text pats field <= 100)%Z.
Proof.
  unfold stored_confidence, check_field.
  destruct (dict_get pats field) as [pattern|].
  - destruct (re_finditer true pattern text) as [|m l] eqn:E; simpl; [lia|].
    pose proof (len_nonneg l). unfold len in *. simpl List.length. lia.
  - repeat match goal with
           | |- context [if str_eqb ?a ?b then _ else _] => destruct (str_eqb a b)
           end; simpl; try lia;
    match goal with
    | |- context [count_terms ?t ?l] =>
      pose proof (count_terms_nonneg t l);
      destruct (1 <=? count_terms t l)%Z eqn:E; simpl; [apply Z.leb_le in E|]; lia
    end.
Qed.

Lemma dict_set_values (P : Z -> Prop) (d : list (str * Z)) k v :
  Forall (fun kv => P (snd kv)) d -> P v ->
  Forall (fun kv => P (snd kv)) (dict_set d k v).
Proof.
  intros Hd Hv. induction d as [|[k' v'] d IH]; simpl.
  - constructor; [exact Hv|constructor].
  - inversion Hd; subst. destruct (str_eqb k' k); constructor; auto.
Qed.

Lemma confidence_values (P : Z -> Prop) (v : str -> Z) fields d :
  Forall (fun kv => P (snd kv)) d -> (forall f, P (v f)) ->
  Forall (fun kv => P (snd kv))
         (fold_left (fun d f => dict_set d f (v f)) fields d).
Proof.
  intros Hd Hv. revert d Hd. induction fields as [|f fields IH]; intros d Hd; simpl.
  - exact Hd.
  - apply IH. now apply dict_set_values.
Qed.

Lemma sum_values_acc d acc :
  fold_left (fun acc kv => (acc + snd kv)%Z) d acc = (acc + sum_values d)%Z.
Proof.
  unfold sum_values. revert acc.
  induction d as [|kv d IH]; intros acc; simpl; [lia|].
  rewrite (IH (acc + snd kv)%Z), (IH (snd kv)). lia.
Qed.

Lemma sum_values_cons kv d : sum_values (kv :: d) = (snd kv + sum_values d)%Z.
Proof.
  unfold sum_values at 1. simpl. rewrite sum_values_acc. lia.
Qed.

Lemma sum_values_bounds d :
  Forall (fun kv => 0 <= snd kv <= 100)%Z d ->
  (0 <= sum_values d <= 100 * len d)%Z.
Proof.
  induction 1 as [|kv d Hkv Hd IH].
  - unfold sum_values, len. simpl. lia.
  - rewrite sum_values_cons. unfold len in *. simpl List.length. lia.
Qed.

End FieldFacts.

(** ** C1: the validity score lies in the unit interval *)

Lemma true_div_unit (a b : Z) :
  (0 <= a <= b)%Z -> (0 < b)%Z -> (0 <= true_div a b <= 1)%Q.
Proof. intros Ha Hb. apply float_unit. now apply ratio_bounds. Qed.

(** The four terms at their greatest add up to 1 exactly, in floating
    point too. *)
Lemma composite_base_bounds (fr avg sec integ : Q) :
  (0 <= fr <= 1 -> 0 <= avg <= 100 -> 0 <= sec <= 1 -> 0 <= integ <= 1 ->
   0 <= fadd (fadd (fadd (fmul fr (float 0.3))
                         (fmul (fdiv avg 100) (float 0.25)))
                   (fmul sec (float 0.25)))
             (fmul integ (float 0.2))
     <= 1)%Q.
Proof.
  intros Hfr Havg Hsec Hint.
  assert (H3 : 0 <= float 0.3) by (apply float_nonneg; discriminate).
  assert (H25 : 0 <= float 0.25) by (apply float_nonneg; discriminate).
  assert (H2 : 0 <= float 0.2) by (apply float_nonneg; discriminate).
  assert (Ha : 0 <= fdiv avg 100).
  { apply float_nonneg. apply Qle_shift_div_l; [reflexivity|]. lra. }
  split.
  - apply float_nonneg.
    pose proof (@fmul_nonneg integ (float 0.2) (proj1 Hint) H2) as P4.
    assert (P3 : 0 <= fadd (fadd (fmul fr (float 0.3))
                                 (fmul (fdiv avg 100) (float 0.25)))
                           (fmul sec (float 0.25))).
    { apply float_nonneg.
      pose proof (@fmul_nonneg sec (float 0.25) (proj1 Hsec) H25) as Q3.
      assert (Q2 : 0 <= fadd (fmul fr (float 0.3))
                             (fmul (fdiv avg 100) (float 0.25))).
      { apply float_nonneg.
        pose proof (@fmul_nonneg fr (float 0.3) (proj1 Hfr) H3).
        pose proof (@fmul_nonneg (fdiv avg 100) (float 0.25) Ha H25).
        lra. }
      lra. }
    lra.
  - apply Qle_trans
      with (fadd (fadd (fadd (fmul 1 (float 0.3))
                             (fmul (fdiv 100 100) (float 0.25)))
                       (fmul 1 (float 0.25)))
                 (fmul 1 (float 0.2))).
    + apply fadd_mono; [apply fadd_mono; [apply fadd_mono|]|].
      * exact (@fmul_mono fr 1 (float 0.3) H3 (proj2 Hfr)).
      * apply (@fmul_mono (fdiv avg 100) (fdiv 100 100) (float 0.25) H25).
        apply fdiv_mono; [reflexivity|exact (proj2 Havg)].
      * exact (@fmul_mono sec 1 (float 0.25) H25 (proj2 Hsec)).
      * exact (@fmul_mono integ 1 (float 0.2) H2 (proj2 Hint)).
    + apply Qle_bool_iff. vm_compute. reflexivity.
Qed.

Lemma composite_bounds (fr avg sec integ pen : Q) :
  (0 <= fr <= 1 -> 0 <= avg <= 100 -> 0 <= sec <= 1 -> 0 <= integ <= 1 ->
   0 <= pen ->
   0 <= floor_at_zero
          (fsub (fadd (fadd (fadd (fmul fr (float 0.3))
                                  (fmul (fdiv avg 100) (float 0.25)))
                            (fmul sec (float 0.25)))
                      (fmul integ (float 0.2)))
                pen)
     <= 1)%Q.
Proof.
  intros Hfr Havg Hsec Hint Hpen. split.
  - apply floor_at_zero_nonneg.
  - apply floor_at_zero_le; [|lra].
    destruct (@composite_base_bounds fr avg sec integ Hfr Havg Hsec Hint) as [_ Hb].
    revert Hb.
    generalize (fadd (fadd (fadd (fmul fr (float 0.3))
                                 (fmul (fdiv avg 100) (float 0.25)))
                           (fmul sec (float 0.25)))
                     (fmul integ (float 0.2))).
    intros base Hb.
    apply Qle_trans with (fsub 1 0); [|apply Qle_bool_iff; vm_compute; reflexivity].
    apply fsub_mono; assumption.
Qed.

Section ScoreBounds.
Context {U : Unicode}.

Lemma security_score_bounds (found features : list str) :
  (List.length found <= List.length features)%nat ->
  (0 <= match features with
        | [] => 1.0
        | _ :: _ => true_div (len found) (len features)
        end <= 1)%Q.
Proof.
  intros Hle. destruct features as [|f features].
  - lra.
  - apply true_div_unit; unfold len in *; simpl in *; lia.
Qed.

Lemma field_ratio_bounds text config :
  (0 <= match required_fields config with
        | [] => 0
        | _ :: _ => true_div (len (acc_found (check_fields text config)))
                             (len (required_fields config))
        end <= 1)%Q.
Proof.
  rewrite check_fields_found.
  pose proof (filter_length_le (field_found text (patterns config))
                               (required_fields config)) as Hle.
  destruct (required_fields config) as [|f fields] eqn:E.
  - lra.
  - apply true_div_unit; unfold len in *; simpl in *; lia.
Qed.

Lemma average_bounds (s n : Z) :
  (0 <= s <= 100 * n)%Z -> (0 < n)%Z -> (0 <= true_div s n <= 100)%Q.
Proof.
  intros Hs Hn. apply float_percent.
  assert (Hq : (0 < inject_Z n)%Q) by (unfold Qlt; simpl; lia).
  split.
  - apply Qle_shift_div_l; [exact Hq|]. rewrite Qmult_0_l.
    change 0%Q with (inject_Z 0). rewrite <- Zle_Qle. lia.
  - apply Qle_shift_div_r; [exact Hq|].
    change 100%Q with (inject_Z 100). rewrite <- inject_Z_mult, <- Zle_Qle. lia.
Qed.

Lemma avg_confidence_bounds text config :
  (0 <= match acc_confidence (check_fields text config) with
        | [] => 0
        | _ :: _ => true_div (sum_values (acc_confidence (check_fields text config)))
                             (len (acc_confidence (check_fields text config)))
        end <= 100)%Q.
Proof.
  rewrite check_fields_confidence.
  generalize (confidence_values (fun z => 0 <= z <= 100)%Z
                (stored_confidence text (patterns config)) (required_fields config)
                (Forall_nil _) (stored_confidence_bounds text (patterns config))).
  generalize (fold_left
                (fun d f => dict_set d f (stored_confidence text (patterns config) f))
                (required_fields config) []).
  intros d Hd. apply sum_values_bounds in Hd.
  destruct d as [|kv d]; [lra|].
  apply average_bounds; [exact Hd|apply len_cons_pos].
Qed.

Lemma integrity_score_bounds (self : checker) text t :
  let i := validate_document_integrity self text t in
  (0 <= true_div (Integrity.text_quality i + Integrity.structure_score i) 100 <= 1)%Q.
Proof.
  intros i. subst i. pose proof (integrity_bounds self text t) as H.
  cbv zeta in H. apply true_div_unit; lia.
Qed.

(** C1.  For every text and every type of the registry (of any
    registry, the one of the source included), [validate_document]
    returns a report whose validity score lies between 0 and 1. *)
Theorem validity_score_in_unit_interval (self : checker) (text t : str)
        (config : doc_config) :
  dict_get (document_patterns self) t = Some config ->
  exists r d,
    validate_document self text t = Returns r
    /\ Validation.rest r = Some d
    /\ (0 <= Validation.validity_score d <= 1)%Q.
Proof.
  intros Hreg. unfold validate_document, check_security_features.
  rewrite Hreg. cbn [Security.found_security Security.security_score].
  eexists. eexists. split; [reflexivity|]. split; [reflexivity|].
  cbn [Validation.validity_score].
  apply composite_bounds.
  - apply field_ratio_bounds.
  - apply avg_confidence_bounds.
  - apply security_score_bounds. apply filter_length_le.
  - apply integrity_score_bounds.
  - apply fmul_nonneg; [|apply float_nonneg; lra].
    apply float_nonneg, inject_len_nonneg.
Qed.

End ScoreBounds.

Lemma validity_score_in_unit_interval_witness :
  exists r d,
    validate_document (U := example_unicode) document_checker (py "") (py "income_certificate")
    = Returns r
    /\ Validation.rest r = Some d
    /\ (0 <= Validation.validity_score d <= 1)%Q.
Proof.
  apply (@validity_score_in_unit_interval example_unicode document_checker
           (py "") (py "income_certificate") income_certificate_config).
  reflexivity.
Defined.

(** ** C10: the special-character check is all or nothing *)

Section SpecialCharacterCheck.
Context {U : Unicode}.

(** C10.  The text quality is the sum of four checks of 20 points; the
    fourth gives its 20 points exactly when no character of the text is
    outside [\w] and [\s], however long the text is, and nothing as soon
    as one character is.  The empty text therefore has quality 20. *)
Theorem special_character_check_all_or_nothing (self : checker) (text t : str) :
  Integrity.text_quality (validate_document_integrity self text t)
  = (quality_length_100 text + quality_length_300 text + quality_words text
     + (if existsb special text then 0 else 20))%Z
  /\ Integrity.text_quality (validate_document_integrity self (py "") t) = 20%Z.
Proof.
  split.
  - simpl. now rewrite quality_special_values.
  - reflexivity.
Qed.

End SpecialCharacterCheck.

(** ** C6: an unknown document type *)

Section UnknownType.
Context {U : Unicode}.

(** C6, as the code has it.  For a type that is not in the registry
    [validate_document] returns, without raising, the two-key report:
    not valid, the single missing field "Unknown document type", and no
    validity score (nor any other key). *)
Theorem unknown_type_report (self : checker) (text t : str) :
  dict_get (document_patterns self) t = None ->
  validate_document self text t
  = Returns {| Validation.valid := false;
               Validation.missing_fields := [py "Unknown document type"];
               Validation.rest := None |}.
Proof.
  intros H. unfold validate_document. now rewrite H.
Qed.

End UnknownType.

Lemma unknown_type_report_witness :
  validate_document (U := example_unicode) document_checker (py "") (py "passport")
  = Returns {| Validation.valid := false;
               Validation.missing_fields := [py "Unknown document type"];
               Validation.rest := None |}.
Proof.
  apply (@unknown_type_report example_unicode document_checker (py "") (py "passport")).
  reflexivity.
Defined.

(** The report for the unregistered type "passport" carries no validity
    score, so its score is not 0. *)
Lemma unknown_type_has_no_score :
  exists r,
    validate_document (U := example_unicode) document_checker (py "") (py "passport")
    = Returns r
    /\ dict_get (document_patterns document_checker) (py "passport") = None
    /\ Validation.valid r = false
    /\ Validation.missing_fields r = [py "Unknown document type"]
    /\ Validation.get_validity_score r = None
    /\ ~ (exists s, Validation.get_validity_score r = Some s /\ (s == 0)%Q).
Proof.
  eexists. split; [reflexivity|]. repeat split.
  intros [s [H _]]. discriminate H.
Qed.

(** ** C9: the analytics log *)

Lemma last_n_length (A : Type) (n : nat) (l : list A) :
  List.length (last_n n l) = Nat.min n (List.length l).
Proof. unfold last_n. rewrite length_skipn. lia. Qed.

Lemma last_n_suffix (A : Type) (n : nat) (l : list A) :
  firstn (List.length l - n) l ++ last_n n l = l.
Proof. unfold last_n. apply firstn_skipn. Qed.

(** C9.  After [log_validation] the history is the old history with the
    new entry appended, cut down to its last 100 entries: it has at most
    100 entries, it is what is left of the appended history after
    dropping entries from the front (the oldest), and it has exactly 100
    entries whenever something was dropped. *)
Theorem log_validation_bounded (self : analytics) (timestamp : str) (result : Check.t) :
  let entry :=
    {| Log.timestamp := timestamp;
       Log.document_type := Check.document_type result;
       Log.valid := Check.valid result;
       Log.confidence := Check.confidence result;
       Log.security_score := report_security_score result |} in
  let appended := validation_history self ++ [entry] in
  let logged := validation_history (log_validation self timestamp result) in
  logged = last_n 100 appended
  /\ (List.length logged <= 100)%nat
  /\ (exists evicted, appended = evicted ++ logged
                      /\ (evicted <> [] -> List.length logged = 100%nat))
  /\ last logged entry = entry.
Proof.
  intros entry appended logged.
  assert (E : logged = last_n 100 appended).
  { unfold logged, log_validation. fold entry. fold appended.
    destruct (100 <? len appended)%Z eqn:Hlen; simpl; [reflexivity|].
    apply Z.ltb_ge in Hlen. unfold len in Hlen. unfold last_n.
    replace (List.length appended - 100)%nat with 0%nat by lia. reflexivity. }
  split; [exact E|]. rewrite E. split; [rewrite last_n_length; lia|]. split.
  - exists (firstn (List.length appended - 100) appended). split.
    + symmetry. apply last_n_suffix.
    + intros Hne. rewrite last_n_length.
      destruct (Nat.le_gt_cases (List.length appended) 100) as [Hle|Hgt]; [|lia].
      exfalso. apply Hne.
      replace (List.length appended - 100)%nat with 0%nat by lia. reflexivity.
  - unfold last_n, appended.
    assert (Hlen : (List.length (validation_history self ++ [entry]) - 100
                    <= List.length (validation_history self))%nat)
      by (rewrite length_app; simpl; lia).
    rewrite skipn_app.
    replace (List.length (validation_history self ++ [entry]) - 100
             - List.length (validation_history self))%nat with 0%nat by lia.
    simpl. apply last_last.
Qed.

(** ** C2: the verdict *)

Section Verdict.
Context {U : Unicode}.

Lemma validate_document_valid (self : checker) (text t : str) r d :
  validate_document self text t = Returns r ->
  Validation.rest r = Some d ->
  Validation.valid r
  = Qle_bool (float 0.6) (Validation.validity_score d)
    && match Validation.red_flags d with [] => true | _ :: _ => false end.
Proof.
  unfold validate_document.
  destruct (dict_get (document_patterns self) t) as [config|].
  - destruct (Security.found_security (check_security_features self text t));
      [|discriminate].
    intros H. injection H as <-. simpl. intros H. injection H as <-. simpl.
    f_equal. destruct (filter _ _); reflexivity.
  - intros H. injection H as <-. discriminate.
Qed.

(** A report on a recognised document comes from the last branch of
    [check_document]: its verdict is the verdict of the validation,
    withdrawn when the expiry check says that the document has expired. *)
Lemma check_document_report (now : datetime) (extract_text : str -> outcome str)
      (self : checker) (file_path : str) a :
  Check.more (check_document now extract_text self file_path) = Check.Report a ->
  exists text v d,
    let document_type := Check.document_type (check_document now extract_text self file_path) in
    extract_text file_path = Returns text
    /\ validate_document self text document_type = Returns v
    /\ Validation.rest v = Some d
    /\ Check.expiry_info a = check_expiry_date now self text document_type
    /\ Check.valid (check_document now extract_text self file_path)
       = Validation.valid v && negb (Expiry.expired (Check.expiry_info a)).
Proof.
  unfold check_document, check_document_body.
  destruct (extract_text file_path) as [text|e]; [|discriminate].
  destruct (extraction_failed text); [discriminate|].
  destruct (len (strip text) <? 10)%Z; [discriminate|].
  destruct (if falsy (detect_document_type self text)
            then fallback_detection text file_path
            else detect_document_type self text) as [[|c t]|]; try discriminate.
  destruct (validate_document self text (c :: t)) as [v|e] eqn:Ev; [|discriminate].
  destruct (Validation.rest v) as [d|] eqn:Ed; [|discriminate].
  unfold suggest.
  destruct (Validation.valid v) eqn:Evalid;
    [destruct (Expiry.expired (check_expiry_date now self text (c :: t))) eqn:Eexp;
     [|destruct (Expiry.expires_soon (check_expiry_date now self text (c :: t)))]|];
    simpl; intros H; injection H as <-; simpl;
    exists text, v, d; rewrite ?Eexp, ?Evalid; simpl; repeat split; auto.
Qed.

(** C2.  In every full validation report, [valid] holds exactly when
    the validity score is at least 0.6 (the constant of the source, that
    is the double nearest to 0.6) and there is no red flag; and the
    verdict of a pipeline report on a recognised document is that of the
    validation, forced to false when the expiry date that was found is
    in the past. *)
Theorem valid_iff_score_and_no_red_flags
        (self : checker) (text t : str) (r : Validation.t) (d : Validation.details)
        (now : datetime) (extract_text : str -> outcome str) (file_path : str)
        (a : Check.analysis) :
  validate_document self text t = Returns r ->
  Validation.rest r = Some d ->
  Check.more (check_document now extract_text self file_path) = Check.Report a ->
  (Validation.valid r = true
   <-> (float 0.6 <= Validation.validity_score d)%Q /\ Validation.red_flags d = [])
  /\ exists text' v,
       extract_text file_path = Returns text'
       /\ validate_document self text'
            (Check.document_type (check_document now extract_text self file_path))
          = Returns v
       /\ Check.expiry_info a
          = check_expiry_date now self text'
              (Check.document_type (check_document now extract_text self file_path))
       /\ Check.valid (check_document now extract_text self file_path)
          = Validation.valid v && negb (Expiry.expired (Check.expiry_info a)).
Proof.
  intros Hv Hd Hrep. split.
  - rewrite (validate_document_valid _ _ _ Hv Hd), andb_true_iff, Qle_bool_iff.
    destruct (Validation.red_flags d); intuition congruence.
  - apply check_document_report in Hrep as [text' [v [d' H]]].
    exists text', v. cbv zeta in H. intuition.
Qed.

End Verdict.

Lemma valid_iff_score_and_no_red_flags_witness :
  let extract_text := fun _ : str => Returns expired_certificate in
  let report :=
    check_document (U := example_unicode) a_later_day extract_text document_checker
                   (py "scan.png") in
  exists r d a,
    validate_document (U := example_unicode) document_checker expired_certificate
                      (py "income_certificate") = Returns r
    /\ Validation.rest r = Some d
    /\ Check.more report = Check.Report a
    /\ (Validation.valid r = true
        <-> (float 0.6 <= Validation.validity_score d)%Q /\ Validation.red_flags d = [])
    /\ Validation.valid r = true
    /\ Expiry.expired (Check.expiry_info a) = true
    /\ Check.valid report = false.
Proof.
  intros extract_text report.
  eexists. eexists. eexists.
  split; [vm_compute; reflexivity|].
  split; [vm_compute; reflexivity|].
  split; [vm_compute; reflexivity|].
  split.
  - eapply proj1.
    eapply (@valid_iff_score_and_no_red_flags example_unicode document_checker
              expired_certificate (py "income_certificate") _ _ a_later_day
              extract_text (py "scan.png"));
      vm_compute; reflexivity.
  - vm_compute. repeat split.
Defined.

(** ** C4: the field extractor *)

Section FieldExtractor.
Context {U : Unicode}.

Lemma check_field_pattern text pats field pattern :
  dict_get pats field = Some pattern ->
  let n := len (re_finditer true pattern text) in
  field_found text pats field = (1 <=? n)%Z
  /\ stored_confidence text pats field
     = (if (1 <=? n)%Z then Z.min 100 (n * 30 + 40) else 0)%Z.
Proof.
  intros Hp n. unfold field_found, stored_confidence, check_field. rewrite Hp.
  subst n. destruct (re_finditer true pattern text) as [|m l]; simpl.
  - split; reflexivity.
  - pose proof (len_cons_pos m l) as Hpos.
    destruct (1 <=? len (m :: l))%Z eqn:E; [split; reflexivity|].
    apply Z.leb_gt in E. lia.
Qed.

Lemma check_field_generic text pats field :
  dict_get pats field = None ->
  field <> py "signature_stamp" -> field <> py "issuing_authority" ->
  field <> py "address" ->
  field_found text pats field = true /\ stored_confidence text pats field = 50%Z.
Proof.
  intros Hp H1 H2 H3. unfold field_found, stored_confidence, check_field. rewrite Hp.
  apply str_eqb_neq in H1, H2, H3. rewrite H1, H2, H3. split; reflexivity.
Qed.

(** C4.  For a required field of a registered type: if the field has a
    pattern, it is found exactly when the pattern has at least one
    case-insensitive match in the text, its confidence then being
    [min(100, 30 * matches + 40)] (and 0 when it is missing); if it has
    no pattern and is not one of the three keyword-checked fields, it is
    found with confidence 50 whatever the text. *)
Theorem field_extraction_rule (self : checker) (text t field : str)
        (config : doc_config) :
  dict_get (document_patterns self) t = Some config ->
  In field (required_fields config) ->
  exists r d,
    validate_document self text t = Returns r
    /\ Validation.rest r = Some d
    /\ match dict_get (patterns config) field with
       | Some pattern =>
         let n := len (re_finditer true pattern text) in
         (In field (Validation.found_fields d) <-> (1 <= n)%Z)
         /\ (In field (Validation.missing_fields r) <-> n = 0%Z)
         /\ dict_get (Validation.field_confidence d) field
            = Some (if (1 <=? n)%Z then Z.min 100 (n * 30 + 40) else 0)%Z
       | None =>
         field <> py "signature_stamp" -> field <> py "issuing_authority" ->
         field <> py "address" ->
         In field (Validation.found_fields d)
         /\ ~ In field (Validation.missing_fields r)
         /\ dict_get (Validation.field_confidence d) field = Some 50%Z
       end.
Proof.
  intros Hreg Hin. unfold validate_document, check_security_features.
  rewrite Hreg. cbn [Security.found_security].
  eexists. eexists. split; [reflexivity|]. split; [reflexivity|].
  cbn [Validation.found_fields Validation.missing_fields Validation.field_confidence].
  rewrite check_fields_found, check_fields_missing, check_fields_confidence.
  rewrite (@confidence_lookup (stored_confidence text (patterns config)) _ [] _ Hin).
  destruct (dict_get (patterns config) field) as [pattern|] eqn:Hp.
  - destruct (check_field_pattern text _ _ Hp) as [Hf Hc].
    cbv zeta in *. rewrite !filter_In, Hf, Hc.
    pose proof (len_nonneg (re_finditer true pattern text)) as Hn.
    destruct (1 <=? len (re_finditer true pattern text))%Z eqn:E.
    + apply Z.leb_le in E.
      repeat split; auto; try lia; try (intros [_ H]; discriminate H).
    + apply Z.leb_gt in E.
      repeat split; auto; try lia; try (intros [_ H]; discriminate H).
  - intros H1 H2 H3. destruct (check_field_generic text _ Hp H1 H2 H3) as [Hf Hc].
    rewrite !filter_In, Hf, Hc.
    repeat split; auto; try (intros [_ H]; discriminate H).
Qed.

End FieldExtractor.

Lemma field_extraction_rule_witness :
  (exists r d,
      validate_document (U := example_unicode) document_checker expired_certificate
                        (py "income_certificate") = Returns r
      /\ Validation.rest r = Some d
      /\ match dict_get (patterns income_certificate_config) (py "annual_income") with
         | Some pattern =>
           let n := len (re_finditer (U := example_unicode) true pattern
                                     expired_certificate) in
           (In (py "annual_income") (Validation.found_fields d) <-> (1 <= n)%Z)
           /\ (In (py "annual_income") (Validation.missing_fields r) <-> n = 0%Z)
           /\ dict_get (Validation.field_confidence d) (py "annual_income")
              = Some (if (1 <=? n)%Z then Z.min 100 (n * 30 + 40) else 0)%Z
         | None => False
         end)
  /\ (exists r d,
         validate_document (U := example_unicode) photo_card_checker (py "")
                           (py "photo_card") = Returns r
         /\ Validation.rest r = Some d
         /\ In (py "photo") (Validation.found_fields d)
         /\ ~ In (py "photo") (Validation.missing_fields r)
         /\ dict_get (Validation.field_confidence d) (py "photo") = Some 50%Z).
Proof.
  split.
  - destruct (@field_extraction_rule example_unicode document_checker
                expired_certificate (py "income_certificate") (py "annual_income")
                income_certificate_config) as [r [d [H1 [H2 H3]]]].
    + reflexivity.
    + vm_compute. tauto.
    + exists r, d. split; [exact H1|]. split; [exact H2|].
      destruct (dict_get (patterns income_certificate_config) (py "annual_income"))
        eqn:E; [exact H3|vm_compute in E; discriminate E].
  - destruct (@field_extraction_rule example_unicode photo_card_checker
                (py "") (py "photo_card") (py "photo")
                {| keywords := pys ["photo card"];
                   required_fields := pys ["name"; "photo"];
                   patterns := [(py "name", "[A-Za-z\s]{3,50}")];
                   security_features := [] |}) as [r [d [H1 [H2 H3]]]].
    + reflexivity.
    + vm_compute. tauto.
    + exists r, d. split; [exact H1|]. split; [exact H2|].
      destruct (dict_get (patterns _) (py "photo")) eqn:E;
        [vm_compute in E; discriminate E|].
      apply H3; vm_compute; discriminate.
Defined.

(** ** C3: the primary classifier *)

(** [max] returns the first of the greatest elements. *)
Lemma max_from_first (A : Type) (key : A -> Q) (best : A) (l : list A) :
  exists l1 l2,
    best :: l = l1 ++ max_from key best l :: l2
    /\ (forall y, In y l1 -> (key y < key (max_from key best l))%Q)
    /\ (forall y, In y l2 -> (key y <= key (max_from key best l))%Q).
Proof.
  revert best. induction l as [|x l IH]; intros best; simpl.
  - exists [], []. split; [reflexivity|]. split; intros y [].
  - destruct (Qlt_bool (key best) (key x)) eqn:E.
    + apply Qlt_bool_iff in E.
      destruct (IH x) as [l1 [l2 [Heq [H1 H2]]]].
      remember (max_from key x l) as m eqn:Hm. clear Hm.
      exists (best :: l1), l2. split; [simpl; now rewrite <- Heq|]. split; [|exact H2].
      intros y [<-|Hy]; [|now apply H1].
      destruct l1 as [|z l1]; simpl in Heq; injection Heq as Hz _.
      * now subst m.
      * subst z. apply Qlt_trans with (key x); [exact E|]. apply H1. now left.
    + apply Qlt_bool_false in E.
      destruct (IH best) as [l1 [l2 [Heq [H1 H2]]]].
      remember (max_from key best l) as m eqn:Hm. clear Hm.
      destruct l1 as [|z l1]; simpl in Heq; injection Heq as Hz Hl.
      * subst m l. exists [], (x :: l2). split; [reflexivity|].
        split; [intros y []|].
        intros y [<-|Hy]; [exact E|now apply H2].
      * subst z l. exists (best :: x :: l1), l2. split; [reflexivity|].
        split; [|exact H2].
        intros y [<-|[<-|Hy]].
        -- apply H1. now left.
        -- apply Qle_lt_trans with (key best); [exact E|]. apply H1. now left.
        -- apply H1. now right.
Qed.

Lemma max_from_map (A : Type) (key : A -> Q) (best : A) (l : list A) :
  max_from (fun v => v) (key best) (map key l) = key (max_from key best l).
Proof.
  revert best. induction l as [|x l IH]; intros best; simpl; [reflexivity|].
  destruct (Qlt_bool (key best) (key x)); apply IH.
Qed.

Section ClassifierDecision.
Context {U : Unicode}.

(** C3.  The score of every registered type is the weighted total
    keyword * 0.4 + pattern * 0.3 + context * 0.2 + structure * 0.1,
    computed as the source computes it: in floating point, from left to
    right, every product and every sum rounded to the nearest double.
    When [detect_document_type] returns a type, that type has the
    greatest total (it is the first that has it, in registry order) and
    the total is at least 2.0; when it returns [None], every total is
    below 2.0, so a type is returned exactly when the greatest total
    reaches 2.0. *)
Theorem classifier_decision (self : checker) (text : str) :
  scores self text
  = map (fun item =>
           let b := Score.score_breakdown (score_type text (fst item) (snd item)) in
           (fst item,
            fadd (fadd (fadd (fmul (float_of_int (Score.keywords b)) (float 0.4))
                             (fmul (float_of_int (Score.patterns b)) (float 0.3)))
                       (fmul (float_of_int (Score.context b)) (float 0.2)))
                 (fmul (float_of_int (Score.structure b)) (float 0.1))))
        (document_patterns self)
  /\ (forall t, detect_document_type self text = Some t ->
       exists total l1 l2,
         scores self text = l1 ++ (t, total) :: l2
         /\ (forall e, In e l1 -> (snd e < total)%Q)
         /\ (forall e, In e l2 -> (snd e <= total)%Q)
         /\ (2.0 <= total)%Q)
  /\ (detect_document_type self text = None ->
      forall e, In e (scores self text) -> (snd e < 2.0)%Q).
Proof.
  split.
  - unfold scores, detailed_scores. rewrite map_map. apply map_ext.
    intros [doc_type config]. simpl. f_equal. unfold score_type.
    destruct (fold_left _ (keywords config) _). reflexivity.
  - unfold detect_document_type.
    destruct (scores self text) as [|x l]; simpl.
    { split; [discriminate|]. intros _ e []. }
    rewrite max_from_map.
    destruct (max_from_first snd x l) as [l1 [l2 [Heq [H1 H2]]]].
    remember (max_from snd x l) as m eqn:Hm. clear Hm.
    destruct (Qle_bool 2.0 (snd m)) eqn:E; simpl.
    + apply Qle_bool_iff in E. split; [|discriminate].
      intros t Ht. injection Ht as <-.
      exists (snd m), l1, l2. rewrite Heq. destruct m as [t total]. auto.
    + assert (Hlt : (snd m < 2.0)%Q).
      { apply Qlt_bool_iff. unfold Qlt_bool. now rewrite E. }
      split; [discriminate|].
      intros _ e He. change (In e (x :: l)) in He. rewrite Heq in He.
      apply in_app_or in He as [He|[<-|He]].
      * apply Qlt_trans with (snd m); auto.
      * exact Hlt.
      * apply Qle_lt_trans with (snd m); auto.
Qed.

End ClassifierDecision.

Lemma classifier_decision_witness :
  detect_document_type (U := example_unicode) document_checker expired_certificate
  = Some (py "income_certificate")
  /\ exists total l1 l2,
       scores (U := example_unicode) document_checker expired_certificate
       = l1 ++ (py "income_certificate", total) :: l2
       /\ (forall e, In e l1 -> (snd e < total)%Q)
       /\ (forall e, In e l2 -> (snd e <= total)%Q)
       /\ (2.0 <= total)%Q.
Proof.
  split.
  - vm_compute. reflexivity.
  - apply (proj1 (proj2 (@classifier_decision example_unicode document_checker
                           expired_certificate))).
    vm_compute. reflexivity.
Defined.

(** The totals are doubles.  For "authority income" the breakdown of
    [income_certificate] is 2, 2, 2, 2 and its total 1.9999999999999998,
    under the threshold; for "address unique layer caste" the totals of
    [aadhaar] and [caste_certificate] are 2.4 and 2.4000000000000004, so
    the later type wins. *)
Lemma totals_are_rounded :
  detect_document_type (U := example_unicode) document_checker (py "authority income")
  = None
  /\ dict_get (scores (U := example_unicode) document_checker (py "authority income"))
              (py "income_certificate")
     = Some (9007199254740991 # 4503599627370496)
  /\ detect_document_type (U := example_unicode) document_checker
                          (py "address unique layer caste")
     = Some (py "caste_certificate").
Proof. vm_compute. repeat split. Qed.

(** ** C5: the expiry resolver *)

Section ExpiryResolver.
Context {U : Unicode}.

Lemma iterate_keeps (P : mstate -> Prop) f lo n g :
  (forall st st', In st' (f st) -> P st -> P st') ->
  forall st st', In st' (iterate f lo n g st) -> P st -> P st'.
Proof.
  intros Hf. revert lo. induction n as [|n IH]; intros lo st st'; simpl.
  - destruct lo; simpl; [|tauto]. now intros [<-|[]].
  - assert (Hmore : In st' (flat_map (iterate f (pred lo) n g) (f st)) -> P st -> P st').
    { intros H Hst. apply in_flat_map in H as [mid [H1 H2]].
      apply (IH _ _ _ H2). now apply (Hf st). }
    destruct lo; [|exact Hmore].
    destruct g.
    + intros H. apply in_app_or in H as [H|[<-|[]]]; auto.
    + intros [<-|H]; auto.
Qed.

Lemma step_groups p st st' : In st' (step p st) -> m_groups st' = m_groups st.
Proof.
  unfold step. destruct (m_rest st) as [|c t]; simpl; [tauto|].
  destruct (p c); simpl; [|tauto]. now intros [<-|[]].
Qed.

(** A group that is set stays set. *)
Lemma run_keeps_group ci r n st st' :
  In st' (run ci r st) -> has_group n st -> has_group n st'.
Proof.
  revert st st'.
  induction r as [| l | | neg items | | a IHa b IHb | a IHa b IHb
                  | lo hi g a IHa | k a IHa]; intros st st'; simpl.
  - now intros [<-|[]].
  - intros H. unfold has_group. now rewrite (step_groups _ _ _ H).
  - intros H. unfold has_group. now rewrite (step_groups _ _ _ H).
  - intros H. unfold has_group. now rewrite (step_groups _ _ _ H).
  - destruct (xorb _ _); simpl; [|tauto]. now intros [<-|[]].
  - intros H Hst. apply in_flat_map in H as [mid [H1 H2]].
    apply (IHb _ _ H2). now apply (IHa st).
  - intros H. apply in_app_or in H as [H|H]; eauto.
  - apply iterate_keeps. exact IHa.
  - intros H Hst. apply in_map_iff in H as [mid [<- H]].
    unfold has_group. simpl. destruct (Nat.eqb k n); [discriminate|].
    now apply (IHa st).
Qed.

Lemma run_captures ci r n st st' :
  always_captures n r = true -> In st' (run ci r st) -> has_group n st'.
Proof.
  revert st st'.
  induction r as [| l | | neg items | | a IHa b IHb | a IHa b IHb
                  | lo hi g a IHa | k a IHa]; intros st st'; simpl;
    try discriminate.
  - intros Hc H. apply in_flat_map in H as [mid [H1 H2]].
    apply orb_true_iff in Hc as [Hc|Hc].
    + apply (@run_keeps_group ci b n mid st' H2). now apply (IHa st).
    + now apply (IHb mid).
  - intros Hc H. apply in_map_iff in H as [mid [<- H]].
    unfold has_group. simpl. destruct (Nat.eqb k n) eqn:E; [discriminate|].
    simpl in Hc. now apply (IHa st).
Qed.

Lemma search_captures ci pattern text m :
  always_captures 1 (re pattern) = true ->
  re_search ci pattern text = Some m ->
  exists date_str, group m 1 = Some date_str.
Proof.
  intros Hc H. apply search_from_some in H as [pre [_ H]].
  apply (@run_captures _ _ _ _ _ Hc) in H. unfold has_group in H. unfold group.
  destruct (group_lookup (m_groups (match_end m)) 1) as [s|]; [now exists s|].
  contradiction.
Qed.

Lemma try_formats_first now info date_str formats :
  try_formats now info date_str formats
  = match first_some (strptime date_str) formats with
    | Some expiry_date => record_expiry now info date_str expiry_date
    | None => info
    end.
Proof.
  induction formats as [|f formats IH]; simpl; [reflexivity|].
  destruct (strptime date_str f); [reflexivity|exact IH].
Qed.

Lemma try_patterns_first now info text patterns :
  Forall (fun p => always_captures 1 (re p) = true) patterns ->
  match first_some (fun p => re_search true p text) patterns with
  | Some m =>
    exists date_str,
      group m 1 = Some date_str
      /\ try_patterns now info text patterns
         = try_formats now info date_str date_formats
  | None => try_patterns now info text patterns = info
  end.
Proof.
  induction 1 as [|p patterns Hp _ IH]; simpl; [reflexivity|].
  destruct (re_search true p text) as [m|] eqn:E; [|exact IH].
  destruct (@search_captures true p text m Hp E) as [date_str Hg].
  exists date_str. rewrite Hg. auto.
Qed.

Lemma days_between_negative a b :
  (days_between a b <? 0)%Z = datetime_ltb a b.
Proof.
  unfold days_between, datetime_ltb, day_micros.
  set (x := ((dt_ordinal a - dt_ordinal b) * 86400000000
             + (dt_micros a - dt_micros b))%Z).
  destruct (Z.ltb_spec (dt_ordinal a * 86400000000 + dt_micros a)
                       (dt_ordinal b * 86400000000 + dt_micros b)) as [H|H].
  - apply Z.ltb_lt. apply Z.div_lt_upper_bound; subst x; lia.
  - apply Z.ltb_ge. apply Z.div_pos; subst x; lia.
Qed.

(** C5.  The four templates are tried in the order valid...until,
    expires...on, validity..., valid...upto, and the first that matches
    decides: its captured date is parsed with the formats D/M/Y, D-M-Y,
    M/D/Y, M-D-Y in this order, the first that parses giving the expiry
    date; no later template is tried, even when no format parses.  Then
    [expired] holds exactly when the date is before the current time,
    and [expires_soon] exactly when 0 <= days until expiry < 30. *)
Theorem expiry_resolution (now : datetime) (self : checker) (text t : str) :
  let no_expiry :=
    {| Expiry.has_expiry := false; Expiry.expired := false;
       Expiry.expires_soon := false; Expiry.expiry_date := None |} in
  validity_patterns
  = ["valid.*?until.*?(\d{2}[/-]\d{2}[/-]\d{4})";
     "expires.*?on.*?(\d{2}[/-]\d{2}[/-]\d{4})";
     "validity.*?(\d{2}[/-]\d{2}[/-]\d{4})";
     "valid.*?upto.*?(\d{2}[/-]\d{2}[/-]\d{4})"]
  /\ date_formats = ["%d/%m/%Y"; "%d-%m-%Y"; "%m/%d/%Y"; "%m-%d-%Y"]
  /\ match first_some (fun p => re_search true p text) validity_patterns with
     | None => check_expiry_date now self text t = no_expiry
     | Some m =>
       exists date_str,
         group m 1 = Some date_str
         /\ check_expiry_date now self text t
            = match first_some (strptime date_str) date_formats with
              | None => no_expiry
              | Some expiry_date =>
                let days_until_expiry := days_between expiry_date now in
                {| Expiry.has_expiry := true;
                   Expiry.expired := datetime_ltb expiry_date now;
                   Expiry.expires_soon :=
                     (0 <=? days_until_expiry)%Z && (days_until_expiry <? 30)%Z;
                   Expiry.expiry_date := Some date_str |}
              end
     end.
Proof.
  intros no_expiry. split; [reflexivity|]. split; [reflexivity|].
  unfold check_expiry_date. fold no_expiry.
  assert (Hc : Forall (fun p => always_captures 1 (re p) = true) validity_patterns)
    by (repeat constructor).
  pose proof (@try_patterns_first now no_expiry text validity_patterns Hc) as H.
  destruct (first_some (fun p => re_search true p text) validity_patterns) as [m|];
    [|exact H].
  destruct H as [date_str [Hg H]]. exists date_str. split; [exact Hg|].
  rewrite H, try_formats_first.
  destruct (first_some (strptime date_str) date_formats) as [d|]; [|reflexivity].
  unfold record_expiry. cbv zeta. rewrite <- days_between_negative.
  simpl. f_equal.
  - destruct (days_between d now <? 0)%Z; reflexivity.
  - destruct (days_between d now <? 0)%Z eqn:E1.
    + apply Z.ltb_lt in E1.
      destruct (0 <=? days_between d now)%Z eqn:E2; [|reflexivity].
      apply Z.leb_le in E2. lia.
    + apply Z.ltb_ge in E1. apply Z.leb_le in E1. rewrite E1. simpl.
      destruct (days_between d now <? 30)%Z; reflexivity.
Qed.

End ExpiryResolver.

(** ** C7: too little text *)

Section InsufficientText.
Context {U : Unicode}.

(** C7, as the code has it.  When the extracted text does not begin
    with one of the extraction-failure prefixes and has fewer than 10
    characters once stripped, [check_document] returns the
    insufficient-text report (type "unknown", not valid, confidence 0,
    the request for a clearer image) whatever the registry holds: no
    classification or validation result enters it. *)
Theorem insufficient_text_short_circuit
        (now : datetime) (extract_text : str -> outcome str) (self : checker)
        (file_path extracted_text : str) :
  extract_text file_path = Returns extracted_text ->
  extraction_failed extracted_text = false ->
  (len (strip extracted_text) < 10)%Z ->
  check_document now extract_text self file_path
  = {| Check.document_type := py "unknown";
       Check.valid := false;
       Check.confidence := 0;
       Check.missing_fields := [py "Insufficient text extracted"];
       Check.suggestion :=
         py "Very little text was extracted from the document. Please upload a clearer, higher quality image.";
       Check.more := Check.TextLength (len extracted_text) |}.
Proof.
  intros Hx Hf Hlen. unfold check_document, check_document_body.
  rewrite Hx, Hf. apply Z.ltb_lt in Hlen. rewrite Hlen. reflexivity.
Qed.

End InsufficientText.

Lemma insufficient_text_short_circuit_witness :
  check_document (U := example_unicode) a_later_day (fun _ => Returns (py "hi"))
                 document_checker (py "scan.png")
  = {| Check.document_type := py "unknown";
       Check.valid := false;
       Check.confidence := 0;
       Check.missing_fields := [py "Insufficient text extracted"];
       Check.suggestion :=
         py "Very little text was extracted from the document. Please upload a clearer, higher quality image.";
       Check.more := Check.TextLength (len (py "hi")) |}.
Proof.
  apply (@insufficient_text_short_circuit example_unicode a_later_day
           (fun _ => Returns (py "hi")) document_checker (py "scan.png") (py "hi")).
  - reflexivity.
  - vm_compute. reflexivity.
  - vm_compute. reflexivity.
Defined.

(** The extracted text "Error" has 5 characters, yet the report is the
    extraction-failure one, not the insufficient-text one. *)
Lemma error_text_is_not_insufficient :
  let report :=
    check_document (U := example_unicode) a_later_day (fun _ => Returns (py "Error"))
                   document_checker (py "scan.png") in
  (len (strip (U := example_unicode) (py "Error")) < 10)%Z
  /\ Check.document_type report = py "error"
  /\ Check.missing_fields report = [py "Text extraction failed"]
  /\ Check.more report = Check.ErrorDetails (py "Error")
  /\ Check.missing_fields report <> [py "Insufficient text extracted"].
Proof.
  vm_compute. repeat split; discriminate.
Qed.

(** ** C8: appending text *)

Section Appending.
Context {U : Unicode}.

Lemma iterate_stop f n g st : In st (iterate f 0 n g st).
Proof.
  destruct n as [|n]; simpl; [now left|].
  destruct g; [apply in_or_app; right|]; now left.
Qed.

Lemma iterate_extend (f f' : mstate -> list mstate) (s : str) lo g :
  (forall st st', In st' (f st) -> In (extend s st') (f' (extend s st))) ->
  forall n n' st st',
    (n <= n')%nat ->
    In st' (iterate f lo n g st) ->
    In (extend s st') (iterate f' lo n' g (extend s st)).
Proof.
  intros Hf n. revert lo. induction n as [|n IH]; intros lo n' st st' Hn; simpl.
  - destruct lo; simpl; [|tauto]. intros [<-|[]]. apply iterate_stop.
  - destruct n' as [|n']; [lia|]. simpl.
    assert (Hmore : In st' (flat_map (iterate f (pred lo) n g) (f st)) ->
                    In (extend s st')
                       (flat_map (iterate f' (pred lo) n' g) (f' (extend s st)))).
    { intros H. apply in_flat_map in H as [mid [H1 H2]].
      apply in_flat_map. exists (extend s mid). split; [now apply Hf|].
      apply IH; [lia|exact H2]. }
    destruct lo; [|exact Hmore].
    destruct g.
    + intros H. apply in_or_app. apply in_app_or in H as [H|[<-|[]]]; [left; auto|].
      right. now left.
    + intros [<-|H]; [now left|right; auto].
Qed.

Lemma step_extend p s st st' :
  In st' (step p st) -> In (extend s st') (step p (extend s st)).
Proof.
  unfold step, extend. destruct (m_rest st) as [|c t]; simpl; [tauto|].
  destruct (p c); simpl; [|tauto]. intros [<-|[]]. now left.
Qed.

Lemma consumed_extend s from to w :
  from = w ++ m_rest to ->
  consumed (from ++ s) (extend s to) = consumed from to.
Proof.
  intros ->. unfold consumed, extend. simpl.
  rewrite !length_app.
  replace (List.length w + List.length (m_rest to) + List.length s
           - (List.length (m_rest to) + List.length s))%nat
    with (List.length w + 0)%nat by lia.
  replace (List.length w + List.length (m_rest to) - List.length (m_rest to))%nat
    with (List.length w + 0)%nat by lia.
  rewrite <- app_assoc. now rewrite !firstn_app_2.
Qed.

(** What a pattern without [\b] matches, it still matches when text is
    appended to the subject. *)
Lemma run_extend ci r s :
  boundary_free r = true ->
  forall st st', In st' (run ci r st) -> In (extend s st') (run ci r (extend s st)).
Proof.
  induction r as [| l | | neg items | | a IHa b IHb | a IHa b IHb
                  | lo hi g a IHa | k a IHa]; simpl; intros Hb st st'.
  - intros [<-|[]]. now left.
  - apply step_extend.
  - apply step_extend.
  - apply step_extend.
  - discriminate.
  - apply andb_true_iff in Hb as [Ha Hb'].
    intros H. apply in_flat_map in H as [mid [H1 H2]].
    apply in_flat_map. exists (extend s mid). split; [now apply IHa|now apply IHb].
  - apply andb_true_iff in Hb as [Ha Hb'].
    intros H. apply in_or_app. apply in_app_or in H as [H|H];
      [left; now apply IHa|right; now apply IHb].
  - apply (iterate_extend (run ci a) (run ci a) s lo g (IHa Hb)).
    destruct hi; [lia|]. rewrite length_app. lia.
  - intros H. apply in_map_iff in H as [mid [<- H]].
    apply in_map_iff. exists (extend s mid). split; [|now apply IHa].
    destruct (@run_suffix U ci a st mid H) as [w Hw].
    change (m_rest (extend s st)) with (m_rest st ++ s).
    rewrite (@consumed_extend s (m_rest st) mid w Hw). reflexivity.
Qed.

Lemma re_found_append ci pattern text s :
  boundary_free (re pattern) = true ->
  re_found ci pattern text = true -> re_found ci pattern (text ++ s) = true.
Proof.
  intros Hb. unfold re_found, re_search.
  destruct (search_from ci (re pattern) None text) as [m|] eqn:E; [intros _|discriminate].
  apply search_from_some in E as [pre [E1 E2]].
  apply (run_extend ci (re pattern) s Hb) in E2.
  change (extend s (MState (prev_after None pre) (match_from m) []))
    with (MState (prev_after None pre) (match_from m ++ s) []) in E2.
  apply search_from_found in E2.
  rewrite E1, <- app_assoc.
  destruct (search_from ci (re pattern) None (pre ++ match_from m ++ s));
    [reflexivity|contradiction].
Qed.

End Appending.

Section AppendingScores.
Context {U : Unicode}.

Lemma sum_if_mono (A : Type) (f g : A -> bool) (l : list A) :
  (forall a, f a = true -> g a = true) -> (sum_if 1 f l <= sum_if 1 g l)%Z.
Proof.
  intros Hfg. unfold sum_if.
  assert (G : forall acc acc', (acc <= acc')%Z ->
            (fold_left (fun acc x => if f x then acc + 1 else acc) l acc
             <= fold_left (fun acc x => if g x then acc + 1 else acc) l acc')%Z).
  { induction l as [|x l IH]; intros acc acc' Hacc; simpl; [exact Hacc|].
    apply IH. destruct (f x) eqn:Ef.
    - rewrite (Hfg x Ef). lia.
    - destruct (g x); lia. }
  apply G. lia.
Qed.

Lemma count_terms_append text s terms :
  (count_terms text terms <= count_terms (text ++ s) terms)%Z.
Proof.
  apply sum_if_mono. intros term. apply mentions_app.
Qed.

(** A field that was found stays found, and its confidence does not
    drop, when its pattern (if it has one) loses no match. *)
Lemma check_field_append text s pats field :
  (forall pattern, dict_get pats field = Some pattern ->
     (len (re_finditer true pattern text)
      <= len (re_finditer true pattern (text ++ s)))%Z) ->
  (field_found text pats field = true -> field_found (text ++ s) pats field = true)
  /\ (stored_confidence text pats field <= stored_confidence (text ++ s) pats field)%Z.
Proof.
  intros Hp. unfold field_found, stored_confidence, check_field.
  destruct (dict_get pats field) as [pattern|].
  - specialize (Hp pattern eq_refl).
    destruct (re_finditer true pattern text) as [|m l] eqn:E;
      destruct (re_finditer true pattern (text ++ s)) as [|m' l'] eqn:E'; simpl.
    + split; auto; lia.
    + split; auto. pose proof (len_nonneg l'). unfold len in *. simpl List.length. lia.
    + unfold len in Hp. simpl in Hp. lia.
    + split; auto. unfold len in *. simpl List.length in *. lia.
  - repeat match goal with
           | |- context [if str_eqb ?a ?b then _ else _] => destruct (str_eqb a b)
           end; try (split; [auto|cbn [fst snd]; lia]);
    match goal with
    | |- context [count_terms (text ++ s) ?l] =>
      pose proof (count_terms_append text s l) as Hc;
      destruct (1 <=? count_terms text l)%Z eqn:E;
      destruct (1 <=? count_terms (text ++ s) l)%Z eqn:E';
      try apply Z.leb_le in E; try apply Z.leb_gt in E;
      try apply Z.leb_le in E'; try apply Z.leb_gt in E'; cbn [fst snd];
      split; auto; try lia
    end.
Qed.

Lemma filter_length_mono_in (A : Type) (f g : A -> bool) (l : list A) :
  (forall a, In a l -> f a = true -> g a = true) ->
  (List.length (filter f l) <= List.length (filter g l))%nat.
Proof.
  induction l as [|a l IH]; intros Hfg; simpl; [lia|].
  assert (IH' := IH (fun x Hx => Hfg x (or_intror Hx))).
  destruct (f a) eqn:Ef.
  - rewrite (Hfg a (or_introl eq_refl) Ef). simpl. lia.
  - destruct (g a); simpl; lia.
Qed.

Lemma dict_set_le d d' k v v' :
  dict_le d d' -> (v <= v')%Z -> dict_le (dict_set d k v) (dict_set d' k v').
Proof.
  intros Hd Hv. induction Hd as [|[k1 v1] [k2 v2] d d' [Hk Hle] Hd IH]; simpl.
  - constructor; [split; [reflexivity|exact Hv]|constructor].
  - simpl in Hk, Hle. subst k2. destruct (str_eqb k1 k).
    + constructor; [split; [reflexivity|exact Hv]|exact Hd].
    + constructor; [split; [reflexivity|exact Hle]|exact IH].
Qed.

Lemma confidence_fold_le (v v' : str -> Z) fields d d' :
  (forall f, In f fields -> (v f <= v' f)%Z) ->
  dict_le d d' ->
  dict_le (fold_left (fun d f => dict_set d f (v f)) fields d)
          (fold_left (fun d f => dict_set d f (v' f)) fields d').
Proof.
  revert d d'. induction fields as [|f fields IH]; intros d d' Hv Hd; simpl.
  - exact Hd.
  - apply IH.
    + intros g Hg. apply Hv. now right.
    + apply dict_set_le; [exact Hd|]. apply Hv. now left.
Qed.

Lemma dict_le_sum d d' :
  dict_le d d' -> len d = len d' /\ (sum_values d <= sum_values d')%Z.
Proof.
  induction 1 as [|kv kv' d d' [_ Hle] _ [IH1 IH2]].
  - split; [reflexivity|lia].
  - rewrite !sum_values_cons. unfold len in *. simpl List.length. split; lia.
Qed.

Lemma special_append text s :
  existsb special text = true \/ existsb special s = false ->
  quality_special (text ++ s) = quality_special text.
Proof.
  intros H. rewrite !quality_special_values, existsb_app.
  destruct H as [-> | ->]; [reflexivity|now rewrite orb_false_r].
Qed.

Lemma points_mono (b b' : bool) (p : Z) :
  (0 <= p)%Z -> (b = true -> b' = true) ->
  ((if b then p else 0) <= (if b' then p else 0))%Z.
Proof.
  intros Hp H. destruct b; [rewrite (H eq_refl)|destruct b']; lia.
Qed.

(** The integrity points do not drop when text is appended, as long as
    the special-character check is not forfeited. *)
Lemma integrity_append (self : checker) text s t t' :
  existsb special text = true \/ existsb special s = false ->
  let i := validate_document_integrity self text t in
  let i' := validate_document_integrity self (text ++ s) t' in
  (Integrity.text_quality i + Integrity.structure_score i
   <= Integrity.text_quality i' + Integrity.structure_score i')%Z.
Proof.
  intros Hs. simpl. rewrite (special_append text s Hs).
  assert (H1 : (quality_length_100 text <= quality_length_100 (text ++ s))%Z).
  { unfold quality_length_100. apply points_mono; [lia|].
    rewrite !Z.ltb_lt, len_app. pose proof (len_nonneg s). lia. }
  assert (H2 : (quality_length_300 text <= quality_length_300 (text ++ s))%Z).
  { unfold quality_length_300. apply points_mono; [lia|].
    rewrite !Z.ltb_lt, len_app. pose proof (len_nonneg s). lia. }
  assert (H3 : (quality_words text <= quality_words (text ++ s))%Z).
  { unfold quality_words. apply points_mono; [lia|].
    now apply re_found_append. }
  assert (H4 : (structure_numbers text <= structure_numbers (text ++ s))%Z).
  { unfold structure_numbers. apply points_mono; [lia|].
    now apply re_found_append. }
  assert (H5 : (structure_uppercase text <= structure_uppercase (text ++ s))%Z).
  { unfold structure_uppercase. apply points_mono; [lia|].
    now apply re_found_append. }
  assert (H6 : (structure_dates text <= structure_dates (text ++ s))%Z).
  { unfold structure_dates. apply points_mono; [lia|].
    now apply re_found_append. }
  lia.
Qed.

End AppendingScores.

Lemma true_div_mono (a a' b : Z) :
  (a <= a')%Z -> (0 < b)%Z -> (true_div a b <= true_div a' b)%Q.
Proof. intros Ha Hb. apply float_mono. now apply ratio_mono. Qed.

(** Rounding is monotone, so the score is monotone in its four terms.
    (Every argument of the lemma is explicit.) *)
Unset Implicit Arguments.

Lemma composite_mono (fr fr' avg avg' sec sec' integ integ' pen : Q) :
  (fr <= fr' -> avg <= avg' -> sec <= sec' -> integ <= integ' ->
   floor_at_zero
     (fsub (fadd (fadd (fadd (fmul fr (float 0.3))
                             (fmul (fdiv avg 100) (float 0.25)))
                       (fmul sec (float 0.25)))
                 (fmul integ (float 0.2)))
           pen)
   <= floor_at_zero
        (fsub (fadd (fadd (fadd (fmul fr' (float 0.3))
                                (fmul (fdiv avg' 100) (float 0.25)))
                          (fmul sec' (float 0.25)))
                    (fmul integ' (float 0.2)))
              pen))%Q.
Proof.
  intros Hfr Havg Hsec Hint. apply floor_at_zero_mono.
  assert (H3 : 0 <= float 0.3) by (apply float_nonneg; discriminate).
  assert (H25 : 0 <= float 0.25) by (apply float_nonneg; discriminate).
  assert (H2 : 0 <= float 0.2) by (apply float_nonneg; discriminate).
  apply fsub_mono; [|apply Qle_refl].
  apply fadd_mono; [apply fadd_mono; [apply fadd_mono|]|].
  - exact (@fmul_mono fr fr' (float 0.3) H3 Hfr).
  - apply (@fmul_mono (fdiv avg 100) (fdiv avg' 100) (float 0.25) H25).
    apply fdiv_mono; [reflexivity|exact Havg].
  - exact (@fmul_mono sec sec' (float 0.25) H25 Hsec).
  - exact (@fmul_mono integ integ' (float 0.2) H2 Hint).
Qed.

Set Implicit Arguments.

Section AppendingTheorem.
Context {U : Unicode}.

Lemma average_mono (d d' : list (str * Z)) :
  dict_le d d' ->
  (match d with
   | [] => 0
   | _ :: _ => true_div (sum_values d) (len d)
   end
   <= match d' with
      | [] => 0
      | _ :: _ => true_div (sum_values d') (len d')
      end)%Q.
Proof.
  intros Hd. destruct (dict_le_sum Hd) as [Hlen Hsum].
  destruct Hd as [|kv kv' d d' _ _]; [apply Qle_refl|].
  rewrite <- Hlen. apply true_div_mono; [exact Hsum|apply len_cons_pos].
Qed.

(** Where appending cannot lower the score.  Appending a substring to a
    text does not lower the validity score computed for a registered
    type, provided that the substring adds no red flag, that it does not
    forfeit the special-character points (the text already had a special
    character, or the substring has none), and that no field pattern of
    the type has fewer matches in the longer text.  Every rounding of
    the score is monotone, so this holds in floating point. *)
Theorem appending_keeps_score (self : checker) (text s t : str) (config : doc_config) :
  dict_get (document_patterns self) t = Some config ->
  Integrity.red_flags (validate_document_integrity self (text ++ s) t)
  = Integrity.red_flags (validate_document_integrity self text t) ->
  existsb special text = true \/ existsb special s = false ->
  (forall field pattern,
     In field (required_fields config) ->
     dict_get (patterns config) field = Some pattern ->
     (len (re_finditer true pattern text)
      <= len (re_finditer true pattern (text ++ s)))%Z) ->
  exists r d r' d',
    validate_document self text t = Returns r
    /\ Validation.rest r = Some d
    /\ validate_document self (text ++ s) t = Returns r'
    /\ Validation.rest r' = Some d'
    /\ (Validation.validity_score d <= Validation.validity_score d')%Q.
Proof.
  intros Hreg Hflags Hspecial Hpat.
  unfold validate_document, check_security_features. rewrite Hreg.
  cbn [Security.found_security Security.security_score].
  do 4 eexists. do 4 (split; [reflexivity|]).
  cbn [Validation.validity_score]. rewrite Hflags.
  assert (Hfield : forall f, In f (required_fields config) ->
            (field_found text (patterns config) f = true ->
             field_found (text ++ s) (patterns config) f = true)
            /\ (stored_confidence text (patterns config) f
                <= stored_confidence (text ++ s) (patterns config) f)%Z).
  { intros f Hf. apply check_field_append. intros pattern Hp.
    now apply (Hpat f pattern). }
  apply composite_mono.
  - rewrite !check_fields_found.
    destruct (required_fields config) as [|f0 fields] eqn:Ereq; [apply Qle_refl|].
    apply true_div_mono; [|apply len_cons_pos].
    unfold len. apply inj_le. apply filter_length_mono_in.
    intros f Hf. now apply Hfield.
  - rewrite !check_fields_confidence. apply average_mono.
    apply confidence_fold_le; [|constructor].
    intros f Hf. now apply Hfield.
  - destruct (security_features config) as [|f0 features] eqn:Esec; [apply Qle_refl|].
    apply true_div_mono; [|apply len_cons_pos].
    unfold len. apply inj_le. apply filter_length_mono.
    intros term. apply mentions_app.
  - apply true_div_mono; [|lia].
    apply (integrity_append self text s t t Hspecial).
Qed.

End AppendingTheorem.

Lemma appending_keeps_score_witness :
  exists r d r' d',
    validate_document (U := example_unicode) document_checker
                      certificate_without_letterhead (py "non_creamy_layer")
    = Returns r
    /\ Validation.rest r = Some d
    /\ validate_document (U := example_unicode) document_checker
                         (certificate_without_letterhead ++ py "letterhead")
                         (py "non_creamy_layer")
       = Returns r'
    /\ Validation.rest r' = Some d'
    /\ (Validation.validity_score d <= Validation.validity_score d')%Q.
Proof.
  apply (@appending_keeps_score example_unicode document_checker
           certificate_without_letterhead (py "letterhead") (py "non_creamy_layer")
           non_creamy_layer_config).
  - reflexivity.
  - vm_compute. reflexivity.
  - right. vm_compute. reflexivity.
  - intros field pattern Hin Hp.
    destruct Hin as [<-|[<-|[<-|[<-|[<-|[]]]]]];
      vm_compute in Hp; try discriminate Hp; injection Hp as <-;
      vm_compute; discriminate.
Defined.

(** C8 fails on the code.  The registry keyword "non-creamy layer",
    appended to a text that classifies as [non_creamy_layer] and is just
    valid (score 0.625), lowers the score to 0.585 and makes the document
    invalid: its single hyphen forfeits the 20 points of the check that
    the source comments as "Not too many special characters". *)
Lemma appended_keyword_lowers_score :
  detect_document_type (U := example_unicode) document_checker borderline_certificate
  = Some (py "non_creamy_layer")
  /\ In (py "non-creamy layer") (keywords non_creamy_layer_config)
  /\ exists r d r' d',
       validate_document (U := example_unicode) document_checker
                         borderline_certificate (py "non_creamy_layer")
       = Returns r
       /\ Validation.rest r = Some d
       /\ validate_document (U := example_unicode) document_checker
                            (borderline_certificate ++ py "non-creamy layer")
                            (py "non_creamy_layer")
          = Returns r'
       /\ Validation.rest r' = Some d'
       /\ Validation.valid r = true
       /\ (Validation.validity_score d == 0.625)%Q
       /\ (Validation.validity_score d' == float 0.585)%Q
       /\ ~ (Validation.validity_score d <= Validation.validity_score d')%Q
       /\ Validation.valid r' = false.
Proof.
  split; [vm_compute; reflexivity|].
  split; [vm_compute; tauto|].
  do 4 eexists.
  split; [vm_compute; reflexivity|].
  split; [vm_compute; reflexivity|].
  split; [vm_compute; reflexivity|].
  split; [vm_compute; reflexivity|].
  split; [vm_compute; reflexivity|].
  split; [vm_compute; reflexivity|].
  split; [vm_compute; reflexivity|].
  split; [|vm_compute; reflexivity].
  vm_compute. intros H. apply H. reflexivity.
Qed.

(* ================================================================== *)
(** * Further properties of the validation code *)

Section ValidationReports.
Context {U : Unicode}.

(** What [validate_document] returns for a registered type. *)
Lemma validate_document_registered (self : checker) (text t : str) config :
  dict_get (document_patterns self) t = Some config ->
  exists r d,
    validate_document self text t = Returns r
    /\ Validation.rest r = Some d
    /\ Validation.found_fields d = acc_found (check_fields text config)
    /\ Validation.missing_fields r = acc_missing (check_fields text config)
    /\ Validation.field_confidence d = acc_confidence (check_fields text config)
    /\ Validation.integrity_check d = validate_document_integrity self text t
    /\ Validation.red_flags d = filter (mentions text) (fraud_indicators self)
    /\ Validation.security_warnings d
       = map (fun indicator => py "Potential fraud indicator: " ++ indicator)
             (filter (mentions text) (fraud_indicators self))
    /\ Validation.found_security d = filter (mentions text) (security_features config)
    /\ Validation.valid r
       = Qle_bool (float 0.6) (Validation.validity_score d)
         && (len (Validation.red_flags d) =? 0)%Z.
Proof.
  intros Hreg. unfold validate_document, check_security_features. rewrite Hreg.
  cbn [Security.found_security Security.security_score Security.warnings].
  do 2 eexists. split; [reflexivity|]. split; [reflexivity|].
  cbn [Validation.found_fields Validation.missing_fields Validation.field_confidence
       Validation.integrity_check Validation.red_flags Validation.security_warnings
       Validation.found_security Validation.valid Validation.validity_score].
  repeat split.
Qed.

Lemma validate_document_full (self : checker) (text t : str) r d :
  validate_document self text t = Returns r ->
  Validation.rest r = Some d ->
  exists config, dict_get (document_patterns self) t = Some config.
Proof.
  unfold validate_document.
  destruct (dict_get (document_patterns self) t) as [config|]; [now exists config|].
  intros H. injection H as <-. discriminate.
Qed.

Lemma stored_confidence_found text pats field :
  (field_found text pats field = true ->
   (50 <= stored_confidence text pats field <= 100)%Z)
  /\ (field_found text pats field = false -> stored_confidence text pats field = 0%Z).
Proof.
  pose proof (stored_confidence_bounds text pats field) as Hb.
  unfold field_found, stored_confidence, check_field in *.
  destruct (dict_get pats field) as [pattern|].
  - destruct (re_finditer true pattern text) as [|m l]; cbn [fst snd] in *.
    + split; [discriminate|reflexivity].
    + split; [intros _|discriminate]. split; [|lia].
      pose proof (len_cons_pos m l). lia.
  - repeat match goal with
           | H : context [if str_eqb ?a ?b then _ else _] |- _ => destruct (str_eqb a b)
           end; cbn [fst snd] in *;
    try (split; [intros _; lia|discriminate]);
    match goal with
    | |- context [count_terms ?t ?l] =>
      destruct (1 <=? count_terms t l)%Z eqn:E; cbn [fst snd] in *;
      [apply Z.leb_le in E; split; [intros _; lia|discriminate]
      |split; [discriminate|reflexivity]]
    end.
Qed.

(** The found and the missing fields split the required fields, in
    their order: a required field is in exactly one of the two lists. *)
Theorem fields_partition (self : checker) (text t : str) (config : doc_config) :
  dict_get (document_patterns self) t = Some config ->
  exists r d,
    validate_document self text t = Returns r
    /\ Validation.rest r = Some d
    /\ Validation.found_fields d
       = filter (field_found text (patterns config)) (required_fields config)
    /\ Validation.missing_fields r
       = filter (fun f => negb (field_found text (patterns config) f))
                (required_fields config)
    /\ (len (Validation.found_fields d) + len (Validation.missing_fields r)
        = len (required_fields config))%Z
    /\ (forall f, In f (Validation.found_fields d) ->
                  In f (Validation.missing_fields r) -> False)
    /\ (forall f, In f (required_fields config) ->
                  In f (Validation.found_fields d)
                  \/ In f (Validation.missing_fields r)).
Proof.
  intros Hreg.
  destruct (@validate_document_registered self text t config Hreg)
    as [r [d [H1 [H2 [H3 [H4 _]]]]]].
  exists r, d. split; [exact H1|]. split; [exact H2|].
  rewrite H3, H4, check_fields_found, check_fields_missing.
  split; [reflexivity|]. split; [reflexivity|]. split; [|split].
  - unfold len. rewrite <- Nat2Z.inj_add. f_equal.
    induction (required_fields config) as [|f l IH]; simpl; [reflexivity|].
    destruct (field_found text (patterns config) f); simpl; lia.
  - intros f Hf Hm. apply filter_In in Hf as [_ Hf]. apply filter_In in Hm as [_ Hm].
    rewrite Hf in Hm. discriminate.
  - intros f Hf. rewrite !filter_In.
    destruct (field_found text (patterns config) f); auto.
Qed.

(** Every required field has a confidence: 0 when the field is
    missing, between 50 and 100 when it is found. *)
Theorem confidence_of_required_fields (self : checker) (text t field : str)
        (config : doc_config) :
  dict_get (document_patterns self) t = Some config ->
  In field (required_fields config) ->
  exists r d c,
    validate_document self text t = Returns r
    /\ Validation.rest r = Some d
    /\ dict_get (Validation.field_confidence d) field = Some c
    /\ (In field (Validation.missing_fields r) <-> c = 0%Z)
    /\ (In field (Validation.found_fields d) <-> (50 <= c <= 100)%Z).
Proof.
  intros Hreg Hin.
  destruct (@validate_document_registered self text t config Hreg)
    as [r [d [H1 [H2 [H3 [H4 [H5 _]]]]]]].
  exists r, d, (stored_confidence text (patterns config) field).
  split; [exact H1|]. split; [exact H2|].
  rewrite H3, H4, H5, check_fields_found, check_fields_missing,
    check_fields_confidence.
  split; [now apply confidence_lookup|].
  rewrite !filter_In.
  destruct (stored_confidence_found text (patterns config) field) as [Hf Hm].
  destruct (field_found text (patterns config) field).
  - specialize (Hf eq_refl).
    split; split; auto; try lia; try (intros [_ H]; discriminate H).
  - specialize (Hm eq_refl).
    split; split; auto; try lia; try (intros [_ H]; discriminate H).
Qed.

Lemma warnings_of_red_flags (self : checker) (text t : str)
      (r : Validation.t) (d : Validation.details) :
  validate_document self text t = Returns r ->
  Validation.rest r = Some d ->
  Validation.security_warnings d
  = map (fun indicator => py "Potential fraud indicator: " ++ indicator)
        (Validation.red_flags d)
  /\ Validation.red_flags d = Integrity.red_flags (Validation.integrity_check d).
Proof.
  intros Hv Hd. destruct (@validate_document_full self text t r d Hv Hd) as [config Hreg].
  destruct (@validate_document_registered self text t config Hreg)
    as [r' [d' [H1 [H2 [_ [_ [_ [H6 [H7 [H8 _]]]]]]]]]].
  rewrite Hv in H1. injection H1 as <-. rewrite Hd in H2. injection H2 as <-.
  rewrite H8, H7, H6. split; reflexivity.
Qed.

(** The security warnings of a report are its red flags, each behind
    the words "Potential fraud indicator: ", in the same order: the two
    assessors read the same list of indicators. *)
Theorem warnings_mirror_red_flags (self : checker) (text t : str)
        (r : Validation.t) (d : Validation.details) :
  validate_document self text t = Returns r ->
  Validation.rest r = Some d ->
  Validation.security_warnings d
  = map (fun indicator => py "Potential fraud indicator: " ++ indicator)
        (Validation.red_flags d)
  /\ Validation.red_flags d = Integrity.red_flags (Validation.integrity_check d)
  /\ len (Validation.security_warnings d) = len (Validation.red_flags d).
Proof.
  intros Hv Hd.
  destruct (@warnings_of_red_flags self text t r d Hv Hd) as [Hw Hr].
  split; [exact Hw|]. split; [exact Hr|].
  rewrite Hw. unfold len. now rewrite length_map.
Qed.

End ValidationReports.

Lemma fields_partition_witness :
  exists r d,
    validate_document (U := example_unicode) document_checker expired_certificate
                      (py "income_certificate") = Returns r
    /\ Validation.rest r = Some d
    /\ (len (Validation.found_fields d) + len (Validation.missing_fields r)
        = len (required_fields income_certificate_config))%Z.
Proof.
  destruct (@fields_partition example_unicode document_checker expired_certificate
              (py "income_certificate") income_certificate_config)
    as (r & d & H1 & H2 & _ & _ & H3 & _).
  - vm_compute. reflexivity.
  - exists r, d. repeat split; assumption.
Defined.

Lemma confidence_of_required_fields_witness :
  exists r d c,
    validate_document (U := example_unicode) document_checker expired_certificate
                      (py "income_certificate") = Returns r
    /\ Validation.rest r = Some d
    /\ dict_get (Validation.field_confidence d) (py "annual_income") = Some c
    /\ (In (py "annual_income") (Validation.missing_fields r) <-> c = 0%Z)
    /\ (In (py "annual_income") (Validation.found_fields d) <-> (50 <= c <= 100)%Z).
Proof.
  apply (@confidence_of_required_fields example_unicode document_checker
           expired_certificate (py "income_certificate") (py "annual_income")
           income_certificate_config).
  - vm_compute. reflexivity.
  - vm_compute. tauto.
Defined.

Lemma warnings_mirror_red_flags_witness :
  exists r d,
    validate_document (U := example_unicode) document_checker
                      (py "income certificate photocopy sample")
                      (py "income_certificate") = Returns r
    /\ Validation.rest r = Some d
    /\ Validation.security_warnings d
       = map (fun indicator => py "Potential fraud indicator: " ++ indicator)
             (Validation.red_flags d)
    /\ Validation.red_flags d = pys ["photocopy"; "sample"; "copy"].
Proof.
  eexists. eexists.
  split; [vm_compute; reflexivity|].
  split; [vm_compute; reflexivity|].
  split.
  - eapply proj1.
    eapply (@warnings_mirror_red_flags example_unicode document_checker
              (py "income certificate photocopy sample") (py "income_certificate"));
      vm_compute; reflexivity.
  - vm_compute. reflexivity.
Defined.

Section RedFlags.
Context {U : Unicode}.

Lemma validate_document_score_registered (self : checker) (text t : str) config :
  dict_get (document_patterns self) t = Some config ->
  exists r d base,
    validate_document self text t = Returns r
    /\ Validation.rest r = Some d
    /\ (0 <= base <= 1)%Q
    /\ Validation.validity_score d
       = floor_at_zero
           (fsub base (fmul (float_of_int (len (Validation.red_flags d))) (float 0.1))).
Proof.
  intros Hreg. unfold validate_document, check_security_features. rewrite Hreg.
  cbn [Security.found_security Security.security_score].
  do 3 eexists. split; [reflexivity|]. split; [reflexivity|].
  cbn [Validation.validity_score Validation.red_flags].
  split; [|reflexivity].
  apply composite_base_bounds.
  - apply field_ratio_bounds.
  - apply avg_confidence_bounds.
  - apply security_score_bounds. apply filter_length_le.
  - apply integrity_score_bounds.
Qed.

Lemma validate_document_score (self : checker) (text t : str) r d :
  validate_document self text t = Returns r ->
  Validation.rest r = Some d ->
  exists base,
    (0 <= base <= 1)%Q
    /\ Validation.validity_score d
       = floor_at_zero
           (fsub base (fmul (float_of_int (len (Validation.red_flags d))) (float 0.1))).
Proof.
  intros Hv Hd. destruct (@validate_document_full U self text t r d Hv Hd) as [config Hreg].
  destruct (@validate_document_score_registered self text t config Hreg)
    as [r' [d' [base [H1 [H2 [H3 H4]]]]]].
  rewrite Hv in H1. injection H1 as <-. rewrite Hd in H2. injection H2 as <-.
  now exists base.
Qed.

(** Ten times the penalty of one red flag is 1, in floating point too. *)
Lemma penalty_of_ten (n : Z) :
  (10 <= n)%Z -> (1 <= fmul (float_of_int n) (float 0.1))%Q.
Proof.
  intros Hn.
  apply Qle_trans with (fmul (float_of_int 10) (float 0.1));
    [apply Qle_bool_iff; vm_compute; reflexivity|].
  apply fmul_mono; [apply float_nonneg; discriminate|].
  apply float_mono. rewrite <- Zle_Qle. exact Hn.
Qed.

(** A red flag makes the document invalid whatever its score, and each
    red flag costs a tenth: with [n] red flags the score is at most
    [max(0, 1 - n * 0.1)], computed as the source computes it, in
    floating point; hence 0 from ten red flags on. *)
Theorem red_flags_force_invalid (self : checker) (text t : str)
        (r : Validation.t) (d : Validation.details) :
  validate_document self text t = Returns r ->
  Validation.rest r = Some d ->
  Validation.red_flags d <> [] ->
  Validation.valid r = false
  /\ (Validation.validity_score d
      <= floor_at_zero
           (fsub 1 (fmul (float_of_int (len (Validation.red_flags d))) (float 0.1))))%Q
  /\ ((10 <= len (Validation.red_flags d))%Z -> (Validation.validity_score d == 0)%Q).
Proof.
  intros Hv Hd Hflags.
  destruct (@validate_document_score self text t r d Hv Hd) as [base [Hbase Hscore]].
  split; [|split].
  - rewrite (@validate_document_valid U self text t r d Hv Hd).
    destruct (Validation.red_flags d); [contradiction|apply andb_false_r].
  - rewrite Hscore. apply floor_at_zero_mono.
    apply fsub_mono; [exact (proj2 Hbase)|apply Qle_refl].
  - intros Hten. rewrite Hscore. unfold floor_at_zero.
    destruct (Qlt_bool 0 _) eqn:E; [|reflexivity].
    apply Qlt_bool_iff in E.
    pose proof (penalty_of_ten Hten) as Hp.
    assert (Hle : (fsub base (fmul (float_of_int (len (Validation.red_flags d)))
                                   (float 0.1)) <= 0)%Q).
    { apply float_nonpos. lra. }
    lra.
Qed.

End RedFlags.

Lemma red_flags_force_invalid_witness :
  exists r d,
    validate_document (U := example_unicode) document_checker
                      (py "income certificate photocopy sample")
                      (py "income_certificate") = Returns r
    /\ Validation.rest r = Some d
    /\ Validation.red_flags d <> []
    /\ Validation.valid r = false
    /\ (Validation.validity_score d
        <= floor_at_zero
             (fsub 1 (fmul (float_of_int (len (Validation.red_flags d)))
                           (float 0.1))))%Q.
Proof.
  eexists. eexists.
  split; [vm_compute; reflexivity|].
  split; [vm_compute; reflexivity|].
  split; [vm_compute; discriminate|].
  assert (H := @red_flags_force_invalid example_unicode document_checker
            (py "income certificate photocopy sample") (py "income_certificate")).
  edestruct H as (H1 & H2 & _);
    [vm_compute; reflexivity|vm_compute; reflexivity|vm_compute; discriminate|].
  split; [exact H1|exact H2].
Defined.

(* ================================================================== *)
(** * Further properties of the pipeline *)

Lemma round_half_even_bounds (q : Q) (n : Z) :
  (0 <= q)%Q -> (q <= inject_Z n)%Q -> (0 <= round_half_even q <= n)%Z.
Proof.
  intros H0 Hn. unfold round_half_even.
  pose proof (Qfloor_le q) as Hfl. pose proof (Qlt_floor q) as Hfu.
  set (f := Qfloor q) in *.
  assert (Hf0 : (0 <= f)%Z).
  { assert (H : (0 < inject_Z (f + 1))%Q) by (eapply Qle_lt_trans; eauto).
    change 0%Q with (inject_Z 0) in H. rewrite <- Zlt_Qlt in H. lia. }
  assert (Hfn : (f <= n)%Z).
  { rewrite Zle_Qle. eapply Qle_trans; eauto. }
  assert (Hup : (1 # 2 <= q - inject_Z f)%Q -> (f + 1 <= n)%Z).
  { intros Hhalf.
    assert (H : (inject_Z f < inject_Z n)%Q) by lra.
    rewrite <- Zlt_Qlt in H. lia. }
  destruct (q - inject_Z f ?= 1 # 2)%Q eqn:E.
  - apply Qeq_alt in E. destruct (Z.even f); [lia|].
    split; [lia|]. apply Hup. rewrite E. apply Qle_refl.
  - lia.
  - apply Qgt_alt in E. split; [lia|]. apply Hup. now apply Qlt_le_weak.
Qed.

Lemma round1_bounds (x : Q) : (0 <= x <= 100)%Q -> (0 <= round1 x <= 100)%Q.
Proof.
  intros [H0 H1]. unfold round1.
  destruct (@round_half_even_bounds (x * 10) 1000) as [Hz0 Hz1].
  - lra.
  - change (inject_Z 1000) with 1000%Q. lra.
  - assert (G0 : (0 <= inject_Z (round_half_even (x * 10)))%Q).
    { change 0%Q with (inject_Z 0). now rewrite <- Zle_Qle. }
    assert (G1 : (inject_Z (round_half_even (x * 10)) <= 1000)%Q).
    { change 1000%Q with (inject_Z 1000). now rewrite <- Zle_Qle. }
    apply float_percent.
    split; [apply Qle_shift_div_l|apply Qle_shift_div_r]; lra.
Qed.

Section PipelineReports.
Context {U : Unicode}.

(** Where a report on a recognised document comes from. *)
Lemma check_document_analysed (now : datetime) (extract_text : str -> outcome str)
      (self : checker) (file_path : str) a :
  Check.more (check_document now extract_text self file_path) = Check.Report a ->
  exists text v d,
    extract_text file_path = Returns text
    /\ validate_document self text
         (Check.document_type (check_document now extract_text self file_path))
       = Returns v
    /\ Validation.rest v = Some d
    /\ Check.valid (check_document now extract_text self file_path)
       = Validation.valid v && negb (Expiry.expired (Check.expiry_info a))
    /\ Check.confidence (check_document now extract_text self file_path)
       = round1 (fmul (Validation.validity_score d) 100)
    /\ Check.missing_fields (check_document now extract_text self file_path)
       = Validation.missing_fields v
    /\ Check.red_flags a = Validation.red_flags d
    /\ Check.found_fields a = Validation.found_fields d
    /\ Check.security_warnings a = Validation.security_warnings d
    /\ Check.security_score a = round1 (fmul (Validation.security_score d) 100)
    /\ extraction_failed text = false
    /\ (10 <= len (strip text))%Z.
Proof.
  unfold check_document, check_document_body.
  destruct (extract_text file_path) as [text|e]; [|discriminate].
  destruct (extraction_failed text) eqn:Efail; [discriminate|].
  destruct (len (strip text) <? 10)%Z eqn:Elen; [discriminate|].
  apply Z.ltb_ge in Elen.
  destruct (if falsy (detect_document_type self text)
            then fallback_detection text file_path
            else detect_document_type self text) as [[|c t]|]; try discriminate.
  destruct (validate_document self text (c :: t)) as [v|e] eqn:Ev; [|discriminate].
  destruct (Validation.rest v) as [d|] eqn:Ed; [|discriminate].
  unfold suggest.
  destruct (Validation.valid v) eqn:Evalid;
    [destruct (Expiry.expired (check_expiry_date now self text (c :: t))) eqn:Eexp;
     [|destruct (Expiry.expires_soon (check_expiry_date now self text (c :: t)))]|];
    simpl; intros H; injection H as <-; simpl;
    exists text, v, d; rewrite ?Eexp, ?Evalid; simpl; repeat split; auto.
Qed.

Lemma valid_report_is_analysed (now : datetime) (extract_text : str -> outcome str)
      (self : checker) (file_path : str) :
  Check.valid (check_document now extract_text self file_path) = true ->
  exists a, Check.more (check_document now extract_text self file_path)
            = Check.Report a.
Proof.
  unfold check_document, check_document_body.
  destruct (extract_text file_path) as [text|e]; [|discriminate].
  destruct (extraction_failed text); [discriminate|].
  destruct (len (strip text) <? 10)%Z; [discriminate|].
  destruct (if falsy (detect_document_type self text)
            then fallback_detection text file_path
            else detect_document_type self text) as [[|c t]|]; try discriminate.
  destruct (validate_document self text (c :: t)) as [v|e]; [|discriminate].
  destruct (Validation.rest v) as [d|]; [|discriminate].
  destruct (suggest _ _ _ _). simpl. intros _. eexists. reflexivity.
Qed.

(** A document that the pipeline reports as valid was recognised, has
    a score of at least 0.6 (the constant of the source) and no red
    flag, hence no security warning, and has not expired. *)
Theorem valid_report_guarantees (now : datetime) (extract_text : str -> outcome str)
        (self : checker) (file_path : str) :
  Check.valid (check_document now extract_text self file_path) = true ->
  exists a text v d,
    Check.more (check_document now extract_text self file_path) = Check.Report a
    /\ extract_text file_path = Returns text
    /\ validate_document self text
         (Check.document_type (check_document now extract_text self file_path))
       = Returns v
    /\ Validation.rest v = Some d
    /\ (float 0.6 <= Validation.validity_score d)%Q
    /\ Check.red_flags a = []
    /\ Check.security_warnings a = []
    /\ Expiry.expired (Check.expiry_info a) = false.
Proof.
  intros Hvalid.
  destruct (@valid_report_is_analysed now extract_text self file_path Hvalid) as [a Hmore].
  destruct (@check_document_analysed now extract_text self file_path a Hmore)
    as [text [v [d [H1 [H2 [H3 [H4 [_ [_ [H7 [_ [H9 _]]]]]]]]]]]].
  rewrite Hvalid in H4. symmetry in H4. apply andb_true_iff in H4 as [Hv He].
  rewrite (@validate_document_valid U self text _ v d H2 H3) in Hv.
  apply andb_true_iff in Hv as [Hs Hf]. apply Qle_bool_iff in Hs.
  assert (Hflags : Validation.red_flags d = [])
    by (destruct (Validation.red_flags d); [reflexivity|discriminate]).
  destruct (@warnings_of_red_flags U self text _ v d H2 H3) as [Hw _].
  exists a, text, v, d. repeat split; auto.
  - now rewrite H7.
  - rewrite H9, Hw, Hflags. reflexivity.
  - now apply negb_true_iff.
Qed.

End PipelineReports.

Lemma valid_report_guarantees_witness :
  let now := DateTime 737211 0 in
  let extract_text := fun _ : str => Returns expired_certificate in
  let report :=
    check_document (U := example_unicode) now extract_text document_checker
                   (py "scan.png") in
  Check.valid report = true
  /\ exists a text v d,
       Check.more report = Check.Report a
       /\ extract_text (py "scan.png") = Returns text
       /\ validate_document (U := example_unicode) document_checker text
                            (Check.document_type report) = Returns v
       /\ Validation.rest v = Some d
       /\ (float 0.6 <= Validation.validity_score d)%Q
       /\ Check.red_flags a = []
       /\ Check.security_warnings a = []
       /\ Expiry.expired (Check.expiry_info a) = false.
Proof.
  intros now extract_text report.
  assert (H : Check.valid report = true) by (vm_compute; reflexivity).
  split; [exact H|].
  exact (@valid_report_guarantees example_unicode now extract_text document_checker
           (py "scan.png") H).
Defined.

Section PipelineOutcomes.
Context {U : Unicode}.

Lemma validity_score_unit (self : checker) (text t : str) r d :
  validate_document self text t = Returns r ->
  Validation.rest r = Some d ->
  (0 <= Validation.validity_score d <= 1)%Q.
Proof.
  intros Hv Hd.
  destruct (@validate_document_score U self text t r d Hv Hd) as [base [Hbase ->]].
  split; [apply floor_at_zero_nonneg|apply floor_at_zero_le; [|lra]].
  apply Qle_trans with (fsub 1 0); [|apply Qle_bool_iff; vm_compute; reflexivity].
  apply fsub_mono; [exact (proj2 Hbase)|].
  apply fmul_nonneg; [|apply float_nonneg; discriminate].
  apply float_nonneg, inject_len_nonneg.
Qed.

(** The confidence of every report of the pipeline, whatever its kind,
    is a percentage between 0 and 100. *)
Theorem report_confidence_is_a_percentage
        (now : datetime) (extract_text : str -> outcome str)
        (self : checker) (file_path : str) :
  (0 <= Check.confidence (check_document now extract_text self file_path) <= 100)%Q.
Proof.
  destruct (Check.more (check_document now extract_text self file_path))
    as [e|n|smp|a|] eqn:Hmore.
  4: { destruct (@check_document_analysed U now extract_text self file_path a Hmore)
         as [text [v [d [_ [H2 [H3 [_ [-> _]]]]]]]].
       pose proof (@validity_score_unit self text _ v d H2 H3) as Hs.
       apply round1_bounds. apply float_percent. lra. }
  all: revert Hmore; unfold check_document, check_document_body;
    destruct (extract_text file_path) as [text|e'];
    [destruct (extraction_failed text);
     [|destruct (len (strip text) <? 10)%Z;
       [|destruct (if falsy (detect_document_type self text)
                   then fallback_detection text file_path
                   else detect_document_type self text) as [[|c t]|];
         [| |];
         try (destruct (validate_document self text (c :: t)) as [v|e''];
              [destruct (Validation.rest v) as [d|];
               [destruct (suggest _ _ _ _)|]|])]]|];
    simpl; intros H; try discriminate H; lra.
Qed.

Lemma dict_get_key (V : Type) (d : list (str * V)) (k : str) :
  In k (map fst d) -> exists v, dict_get d k = Some v.
Proof.
  induction d as [|[k' v'] d IH]; simpl; [tauto|].
  intros [->|H].
  - rewrite str_eqb_refl. now exists v'.
  - destruct (str_eqb k' k); [now exists v'|auto].
Qed.

Lemma max_from_in (A : Type) (key : A -> Q) (best : A) (l : list A) :
  In (max_from key best l) (best :: l).
Proof.
  destruct (max_from_first key best l) as [l1 [l2 [-> _]]].
  apply in_or_app. right. now left.
Qed.

Lemma detect_registered (self : checker) (text t : str) :
  detect_document_type self text = Some t ->
  exists config, dict_get (document_patterns self) t = Some config.
Proof.
  unfold detect_document_type.
  destruct (scores self text) as [|x l] eqn:E; simpl; [discriminate|].
  destruct (Qle_bool 2.0 _); [|discriminate].
  simpl. intros H. injection H as <-.
  apply dict_get_key.
  pose proof (max_from_in snd x l) as Hin. rewrite <- E in Hin.
  unfold scores, detailed_scores in Hin. rewrite map_map in Hin. simpl in Hin.
  apply (in_map fst) in Hin. rewrite map_map in Hin. simpl in Hin. exact Hin.
Qed.

Lemma fallback_cases (text file_path t : str) :
  fallback_detection text file_path = Some t ->
  In t (pys ["aadhaar"; "income_certificate"; "caste_certificate";
             "domicile_certificate"; "birth_certificate"]).
Proof.
  unfold fallback_detection.
  repeat match goal with
         | |- context [if ?b then _ else _] => destruct b
         end; intros H; try discriminate H; injection H as <-; simpl; auto 6.
Qed.

Lemma fallback_registered (text file_path t : str) :
  fallback_detection text file_path = Some t ->
  exists config, dict_get (document_patterns document_checker) t = Some config.
Proof.
  intros H. apply fallback_cases in H. simpl in H.
  destruct H as [<-|[<-|[<-|[<-|[<-|[]]]]]]; eexists; reflexivity.
Qed.

(** A type that the primary classifier returns is a type of the
    registry, so validating the text against it gives a full report,
    never the unknown-type one. *)
Theorem detected_type_is_registered (self : checker) (text t : str) :
  detect_document_type self text = Some t ->
  exists config r d,
    dict_get (document_patterns self) t = Some config
    /\ validate_document self text t = Returns r
    /\ Validation.rest r = Some d.
Proof.
  intros H. destruct (detect_registered _ _ H) as [config Hreg].
  destruct (@validate_document_registered U self text t config Hreg)
    as [r [d [H1 [H2 _]]]].
  now exists config, r, d.
Qed.

(** The fallback classifier answers with one of five types, all in the
    registry of the source (never [non_creamy_layer]), and does not look
    at the file path. *)
Theorem fallback_answers (text file_path file_path' t : str) :
  fallback_detection text file_path = Some t ->
  In t (pys ["aadhaar"; "income_certificate"; "caste_certificate";
             "domicile_certificate"; "birth_certificate"])
  /\ (exists config, dict_get (document_patterns document_checker) t = Some config)
  /\ t <> py "non_creamy_layer"
  /\ fallback_detection text file_path' = Some t.
Proof.
  intros H. split; [exact (fallback_cases _ _ H)|].
  split; [exact (fallback_registered _ _ H)|]. split; [|exact H].
  apply fallback_cases in H. simpl in H.
  destruct H as [<-|[<-|[<-|[<-|[<-|[]]]]]]; discriminate.
Qed.

(** With the registry of the source, the pipeline answers with the
    processing-error report exactly when text extraction raised an
    exception; the report then quotes the exception, is not valid and
    has confidence 0. *)
Theorem processing_error_only_from_extraction
        (now : datetime) (extract_text : str -> outcome str) (file_path : str) :
  (Check.more (check_document now extract_text document_checker file_path)
   = Check.NoExtra
   <-> exists e, extract_text file_path = Raises e)
  /\ (forall e, extract_text file_path = Raises e ->
        check_document now extract_text document_checker file_path
        = {| Check.document_type := py "error";
             Check.valid := false;
             Check.confidence := 0;
             Check.missing_fields := [py "Processing error: " ++ e];
             Check.suggestion := py "Please try uploading again or contact support.";
             Check.more := Check.NoExtra |}).
Proof.
  split.
  - split.
    + unfold check_document, check_document_body.
      destruct (extract_text file_path) as [text|e]; [|intros _; now exists e].
      destruct (extraction_failed text); [discriminate|].
      destruct (len (strip text) <? 10)%Z; [discriminate|].
      assert (Hres : forall t,
                (if falsy (detect_document_type document_checker text)
                 then fallback_detection text file_path
                 else detect_document_type document_checker text) = Some t ->
                exists config,
                  dict_get (document_patterns document_checker) t = Some config).
      { intros t. destruct (falsy _).
        - apply fallback_registered.
        - apply detect_registered. }
      destruct (if falsy (detect_document_type document_checker text)
                then fallback_detection text file_path
                else detect_document_type document_checker text) as [[|c t]|];
        try discriminate.
      destruct (Hres (c :: t) eq_refl) as [config Hreg].
      destruct (@validate_document_registered U document_checker text (c :: t)
                  config Hreg) as [r [d [H1 [H2 _]]]].
      rewrite H1, H2. destruct (suggest _ _ _ _). discriminate.
    + intros [e He]. unfold check_document, check_document_body. now rewrite He.
  - intros e He. unfold check_document, check_document_body. now rewrite He.
Qed.

End PipelineOutcomes.

Lemma detected_type_is_registered_witness :
  detect_document_type (U := example_unicode) document_checker expired_certificate
  = Some (py "income_certificate")
  /\ exists config r d,
       dict_get (document_patterns document_checker) (py "income_certificate")
       = Some config
       /\ validate_document (U := example_unicode) document_checker
                            expired_certificate (py "income_certificate") = Returns r
       /\ Validation.rest r = Some d.
Proof.
  assert (H : detect_document_type (U := example_unicode) document_checker
                                   expired_certificate
              = Some (py "income_certificate")) by (vm_compute; reflexivity).
  split; [exact H|].
  exact (@detected_type_is_registered example_unicode document_checker
           expired_certificate (py "income_certificate") H).
Defined.

Lemma fallback_answers_witness :
  let text := py "1234 5678 9012 Male DOB: 01/01/1990 Address: Pune" in
  fallback_detection (U := example_unicode) text (py "scan.png") = Some (py "aadhaar")
  /\ fallback_detection (U := example_unicode) text (py "other.jpg")
     = Some (py "aadhaar")
  /\ py "aadhaar" <> py "non_creamy_layer".
Proof.
  intros text.
  assert (H : fallback_detection (U := example_unicode) text (py "scan.png")
              = Some (py "aadhaar")) by (vm_compute; reflexivity).
  split; [exact H|].
  destruct (@fallback_answers example_unicode text (py "scan.png") (py "other.jpg")
              (py "aadhaar") H) as (_ & _ & H1 & H2).
  split; [exact H2|exact H1].
Defined.

Lemma processing_error_only_from_extraction_witness :
  let extract_text := fun _ : str => @Raises str (py "cannot identify image file") in
  let report :=
    check_document (U := example_unicode) a_later_day extract_text document_checker
                   (py "scan.png") in
  Check.more report = Check.NoExtra
  /\ Check.missing_fields report
     = [py "Processing error: cannot identify image file"].
Proof.
  intros extract_text report.
  destruct (@processing_error_only_from_extraction example_unicode a_later_day
              extract_text (py "scan.png")) as [H1 H2].
  split.
  - apply H1. exists (py "cannot identify image file"). reflexivity.
  - unfold report. rewrite (H2 (py "cannot identify image file") eq_refl).
    vm_compute. reflexivity.
Defined.

(* ================================================================== *)
(** * Further properties of the assessors *)

Lemma digit_pattern : re "\d" = InSet false [CCat CatDigit].
Proof. reflexivity. Qed.

Lemma filter_length_all (A : Type) (f : A -> bool) (l : list A) :
  List.length (filter f l) = List.length l <-> forallb f l = true.
Proof.
  induction l as [|a l IH]; simpl; [tauto|].
  pose proof (filter_length_le f l) as Hle.
  destruct (f a); simpl.
  - rewrite <- IH. lia.
  - split; [lia|discriminate].
Qed.

Lemma ratio_is_one (a b : Z) :
  (0 < b)%Z -> ((inject_Z a / inject_Z b == 1)%Q <-> a = b).
Proof.
  intros Hb.
  assert (Hq : ~ (inject_Z b == 0)%Q).
  { unfold Qeq. simpl. lia. }
  split.
  - intros H. apply Qmult_inj_r with (z := inject_Z b) in H; [|exact Hq].
    unfold Qdiv in H.
    rewrite <- Qmult_assoc, (Qmult_comm (/ _)), Qmult_inv_r, Qmult_1_r, Qmult_1_l in H
      by exact Hq.
    unfold Qeq in H. simpl in H. lia.
  - intros ->. unfold Qdiv. now rewrite Qmult_inv_r.
Qed.

(** A ratio of two lengths rounds to 1 only when it is 1: below 2^53
    items, the greatest ratio under 1 is at most the double before 1. *)
Lemma true_div_is_one (a b : Z) :
  (0 <= a <= b)%Z -> (0 < b <= 2 ^ 53)%Z -> ((true_div a b == 1)%Q <-> a = b).
Proof.
  intros [Ha Hab] [Hb Hmax].
  assert (Hq : (0 < inject_Z b)%Q) by (unfold Qlt; simpl; lia).
  split.
  - intros H. destruct (Z.eq_dec a b) as [E|E]; [exact E|exfalso].
    assert (Hp : (inject_Z a / inject_Z b <= 9007199254740991 # 9007199254740992)%Q).
    { apply Qle_shift_div_r; [exact Hq|].
      change (2 ^ 53)%Z with 9007199254740992%Z in Hmax.
      unfold Qle, Qmult, inject_Z. cbn [Qnum Qden]. lia. }
    apply float_mono in Hp. fold (true_div a b) in Hp. rewrite H in Hp.
    apply Qle_bool_iff in Hp. vm_compute in Hp. discriminate Hp.
  - intros ->. unfold true_div.
    rewrite (@float_compat (inject_Z b / inject_Z b) 1); [reflexivity|].
    unfold Qdiv. apply Qmult_inv_r. intros E. rewrite E in Hq. discriminate Hq.
Qed.

Section Assessors.
Context {U : Unicode}.

Lemma reads_one_repeat ci (P : char -> Prop) a lo hi g :
  reads_one ci P a -> reads_one ci P (Repeat (S lo) hi g a).
Proof.
  intros Ha st st'. simpl.
  destruct (match hi with Some h => h | None => S (lo + List.length (m_rest st)) end)
    as [|n]; simpl; [tauto|].
  intros H. apply in_flat_map in H as [mid [H1 H2]].
  apply Ha in H1 as [x [c [y [E1 Hc]]]].
  apply (iterate_suffix lo n g (run_suffix ci a)) in H2 as [w E2].
  exists x, c, (y ++ w). split; [|exact Hc].
  rewrite E1, E2. now rewrite <- app_assoc.
Qed.

Lemma date_has_digit (text : str) :
  re_found false "\d{1,2}[/-]\d{1,2}[/-]\d{4}" text = true ->
  re_found false "\d" text = true.
Proof.
  unfold re_found at 2. unfold re_search. rewrite digit_pattern.
  rewrite (search_from_step false (InSet false [CCat CatDigit])
             (set_match false false [CCat CatDigit])) by reflexivity.
  unfold re_found, re_search. rewrite date_pattern.
  destruct (search_from _ _ _ _) as [m|] eqn:E; [intros _|discriminate].
  apply search_from_some in E as [pre [E1 E2]].
  assert (R : reads_one false (fun c => is_digit c = true)
                (Cat (Repeat 1 (Some 2%nat) true (InSet false [CCat CatDigit]))
                   (Cat (InSet false [CChar 47%N; CChar 45%N])
                      (Cat (Repeat 1 (Some 2%nat) true (InSet false [CCat CatDigit]))
                         (Cat (InSet false [CChar 47%N; CChar 45%N])
                            (Repeat 4 (Some 4%nat) true
                               (InSet false [CCat CatDigit]))))))).
  { apply reads_one_cat_l, reads_one_repeat, reads_one_set.
    intros c. unfold set_match. rewrite xorb_false_l.
    cbn [existsb item_match cat_match]. now rewrite orb_false_r. }
  apply R in E2 as [x [c [y [E3 Hc]]]]. simpl in E3.
  apply existsb_exists. exists c. split.
  - rewrite E1, E3. apply in_or_app. right. apply in_or_app. right. now left.
  - unfold set_match. rewrite xorb_false_l.
    cbn [existsb item_match cat_match]. now rewrite Hc.
Qed.

(** The ranges of the integrity assessment: the text quality is 0, 20,
    40, 60 or 80 (never 100), the structure score is 0, 10, 20, 25 or 35
    (a date brings a digit with it), and the red flags and authenticity
    markers are drawn, in order, from the two fixed lists. *)
Theorem integrity_ranges (self : checker) (text t : str) :
  let i := validate_document_integrity self text t in
  In (Integrity.text_quality i) [0; 20; 40; 60; 80]%Z
  /\ In (Integrity.structure_score i) [0; 10; 20; 25; 35]%Z
  /\ incl (Integrity.red_flags i) (fraud_indicators self)
  /\ incl (Integrity.authenticity_markers i)
          (pys ["government"; "सरकार"; "authority"; "प्राधिकरण"; "official";
                "seal"; "signature"])
  /\ (len (Integrity.red_flags i) <= len (fraud_indicators self))%Z.
Proof.
  cbv zeta. unfold validate_document_integrity.
  cbn [Integrity.text_quality Integrity.structure_score Integrity.red_flags
       Integrity.authenticity_markers].
  split; [|split; [|split; [|split]]].
  - unfold quality_length_100, quality_length_300, quality_words, quality_special.
    destruct (Z.ltb_spec 100 (len text)); destruct (Z.ltb_spec 300 (len text));
      destruct (re_found false "[A-Za-z]{3,}" text);
      destruct (re_found false "[^\w\s]" text); simpl; lia.
  - pose proof (date_has_digit text) as Hd.
    unfold structure_numbers, structure_uppercase, structure_dates.
    destruct (re_found false "\d{1,2}[/-]\d{1,2}[/-]\d{4}" text).
    + rewrite (Hd eq_refl). destruct (re_found false "[A-Z]{2,}" text); simpl; lia.
    + destruct (re_found false "\d" text);
        destruct (re_found false "[A-Z]{2,}" text); simpl; lia.
  - intros x Hx. apply filter_In in Hx. tauto.
  - intros x Hx. apply filter_In in Hx. tauto.
  - unfold len. apply inj_le. apply filter_length_le.
Qed.

(** [check_security_features]: for an unknown type, score 0 and the one
    warning "Unknown document type".  For a registered type the features
    found are the expected ones that the text mentions, in their order;
    the score is their number divided by the number of expected
    features (one floating-point division), and 1.0 when none is
    expected; it lies between 0 and 1 and, for fewer than 2^53 expected
    features, it is 1 exactly when all of them are mentioned; the
    warnings are the fraud indicators that the text mentions, each
    behind the words "Potential fraud indicator: ". *)
Theorem security_score_meaning (self : checker) (text t : str) :
  match dict_get (document_patterns self) t with
  | None =>
    check_security_features self text t
    = {| Security.security_score := 0;
         Security.found_security := None;
         Security.warnings := [py "Unknown document type"] |}
  | Some config =>
    let c := check_security_features self text t in
    let found := filter (mentions text) (security_features config) in
    Security.found_security c = Some found
    /\ Security.security_score c
       = match security_features config with
         | [] => 1.0%Q
         | _ :: _ => true_div (len found) (len (security_features config))
         end
    /\ (0 <= Security.security_score c <= 1)%Q
    /\ ((len (security_features config) <= 2 ^ 53)%Z ->
        ((Security.security_score c == 1)%Q
         <-> forallb (mentions text) (security_features config) = true))
    /\ Security.warnings c
       = map (fun indicator => py "Potential fraud indicator: " ++ indicator)
             (filter (mentions text) (fraud_indicators self))
  end.
Proof.
  unfold check_security_features.
  destruct (dict_get (document_patterns self) t) as [config|]; [|reflexivity].
  cbv zeta.
  cbn [Security.found_security Security.security_score Security.warnings].
  split; [reflexivity|]. split; [reflexivity|]. split; [|split; [|reflexivity]].
  - apply security_score_bounds. apply filter_length_le.
  - intros Hmax. destruct (security_features config) as [|f features] eqn:E.
    + simpl. split; [reflexivity|intros _; reflexivity].
    + rewrite <- E in *.
      pose proof (filter_length_le (mentions text) (security_features config)) as Hle.
      rewrite true_div_is_one.
      * rewrite <- filter_length_all. unfold len.
        split; [apply Nat2Z.inj|congruence].
      * unfold len. lia.
      * split; [rewrite E; apply len_cons_pos|exact Hmax].
Qed.

End Assessors.

Section MoreOutcomes.
Context {U : Unicode}.

(** The expiry check either finds nothing (all flags off, no date) or
    reports a date; a document is never both expired and expiring
    soon. *)
Theorem expiry_flags_consistent (now : datetime) (self : checker) (text t : str) :
  let e := check_expiry_date now self text t in
  e = {| Expiry.has_expiry := false; Expiry.expired := false;
         Expiry.expires_soon := false; Expiry.expiry_date := None |}
  \/ (Expiry.has_expiry e = true
      /\ (exists date_str, Expiry.expiry_date e = Some date_str)
      /\ Expiry.expired e && Expiry.expires_soon e = false).
Proof.
  cbv zeta. unfold check_expiry_date.
  set (no_expiry := {| Expiry.has_expiry := false; Expiry.expired := false;
                       Expiry.expires_soon := false; Expiry.expiry_date := None |}).
  assert (Hc : Forall (fun p => always_captures 1 (re p) = true) validity_patterns)
    by (repeat constructor).
  pose proof (@try_patterns_first U now no_expiry text validity_patterns Hc) as H.
  destruct (first_some (fun p => re_search true p text) validity_patterns) as [m|];
    [|now left].
  destruct H as [date_str [_ ->]]. rewrite try_formats_first.
  destruct (first_some (strptime date_str) date_formats) as [d|]; [right|now left].
  unfold record_expiry. simpl. split; [reflexivity|]. split; [now exists date_str|].
  destruct (days_between d now <? 0)%Z; [reflexivity|].
  destruct (days_between d now <? 30)%Z; reflexivity.
Qed.

#[local] Opaque firstn.

(** When neither classifier recognises the text, the report quotes the
    text itself if it has at most 200 characters and otherwise its first
    200 characters followed by three dots: at most 203 characters. *)
Theorem unrecognised_report_sample (now : datetime) (extract_text : str -> outcome str)
        (self : checker) (file_path sample : str) :
  Check.more (check_document now extract_text self file_path)
  = Check.TextSample sample ->
  exists text,
    extract_text file_path = Returns text
    /\ falsy (detect_document_type self text) = true
    /\ falsy (fallback_detection text file_path) = true
    /\ sample = (if (200 <? len text)%Z then firstn 200 text ++ py "..." else text)
    /\ (len sample <= 203)%Z
    /\ Check.valid (check_document now extract_text self file_path) = false
    /\ Check.document_type (check_document now extract_text self file_path)
       = py "unknown".
Proof.
  unfold check_document, check_document_body.
  destruct (extract_text file_path) as [text|e]; [|discriminate].
  destruct (extraction_failed text); [discriminate|].
  destruct (len (strip text) <? 10)%Z; [discriminate|].
  assert (Hs : (len (if (200 <? len text)%Z
                     then firstn 200 text ++ py "..." else text) <= 203)%Z).
  { destruct (Z.ltb_spec 200 (len text)) as [Hl|Hl]; [|lia].
    rewrite len_app. change (len (py "...")) with 3%Z.
    pose proof (firstn_le_length 200 text) as Hf. unfold len in *. lia. }
  remember (if (200 <? len text)%Z then firstn 200 text ++ py "..." else text)
    as smp eqn:Esmp.
  destruct (falsy (detect_document_type self text)) eqn:Ed.
  - destruct (fallback_detection text file_path) as [[|c t]|] eqn:Ef.
    + cbn [Check.more Check.valid Check.document_type].
      intros H. injection H as <-. exists text. rewrite Ef. subst smp.
      repeat split; auto.
    + destruct (validate_document self text (c :: t)) as [v|e]; [|discriminate].
      destruct (Validation.rest v) as [d|]; [|discriminate].
      destruct (suggest _ _ _ _). discriminate.
    + cbn [Check.more Check.valid Check.document_type].
      intros H. injection H as <-. exists text. rewrite Ef. subst smp.
      repeat split; auto.
  - destruct (detect_document_type self text) as [[|c t]|]; try discriminate Ed.
    destruct (validate_document self text (c :: t)) as [v|e]; [|discriminate].
    destruct (Validation.rest v) as [d|]; [|discriminate].
    destruct (suggest _ _ _ _). discriminate.
Qed.

#[local] Transparent firstn.

End MoreOutcomes.

Lemma unrecognised_report_sample_witness :
  let extract_text := fun _ : str => Returns (py "lorem ipsum dolor sit amet") in
  let report :=
    check_document (U := example_unicode) a_later_day extract_text document_checker
                   (py "scan.png") in
  Check.more report = Check.TextSample (py "lorem ipsum dolor sit amet")
  /\ Check.valid report = false
  /\ Check.document_type report = py "unknown".
Proof.
  intros extract_text report.
  assert (H : Check.more report = Check.TextSample (py "lorem ipsum dolor sit amet"))
    by (vm_compute; reflexivity).
  split; [exact H|].
  destruct (@unrecognised_report_sample example_unicode a_later_day extract_text
              document_checker (py "scan.png") (py "lorem ipsum dolor sit amet") H)
    as (text & _ & _ & _ & _ & _ & H1 & H2).
  split; [exact H1|exact H2].
Defined.

(* ================================================================== *)
(** * Further properties of the analytics *)

Lemma log_validation_history (self : analytics) (timestamp : str) (result : Check.t) :
  validation_history (log_validation self timestamp result)
  = last_n 100 (validation_history self ++ [log_entry_of (timestamp, result)]).
Proof.
  unfold log_validation, log_entry_of. simpl.
  set (appended := validation_history self ++ _).
  destruct (100 <? len appended)%Z eqn:Hlen; simpl; [reflexivity|].
  apply Z.ltb_ge in Hlen. unfold len in Hlen. unfold last_n.
  replace (List.length appended - 100)%nat with 0%nat by lia. reflexivity.
Qed.

Lemma last_n_app_last_n (A : Type) (n : nat) (l l' : list A) :
  last_n n (last_n n l ++ l') = last_n n (l ++ l').
Proof.
  unfold last_n.
  destruct (Nat.le_gt_cases (List.length l) n) as [Hle|Hgt].
  - replace (List.length l - n)%nat with 0%nat by lia. reflexivity.
  - rewrite !length_app, length_skipn.
    replace (List.length l - (List.length l - n) + List.length l' - n)%nat
      with (List.length l')%nat by lia.
    replace (List.length l + List.length l' - n)%nat
      with (List.length l' + (List.length l - n))%nat by lia.
    rewrite <- skipn_skipn. f_equal.
    rewrite skipn_app.
    replace (List.length l - n - List.length l)%nat with 0%nat by lia.
    reflexivity.
Qed.

Lemma log_all_history (calls : list (str * Check.t)) (self : analytics) :
  (List.length (validation_history self) <= 100)%nat ->
  validation_history (log_all self calls)
  = last_n 100 (validation_history self ++ map log_entry_of calls).
Proof.
  revert self. induction calls as [|call calls IH]; intros self Hlen; simpl.
  - rewrite app_nil_r. unfold last_n.
    replace (List.length (validation_history self) - 100)%nat with 0%nat by lia.
    reflexivity.
  - unfold log_all in *. simpl. rewrite IH.
    + destruct call as [timestamp result]. simpl.
      rewrite log_validation_history, last_n_app_last_n, <- app_assoc. reflexivity.
    + destruct call as [timestamp result]. simpl.
      rewrite log_validation_history, last_n_length. lia.
Qed.

(** Logging any sequence of reports into a fresh log keeps exactly the
    last 100 of them, in the order of the calls. *)
Theorem log_keeps_last_hundred (calls : list (str * Check.t)) :
  validation_history (log_all analytics_init calls)
  = last_n 100 (map log_entry_of calls)
  /\ len (validation_history (log_all analytics_init calls))
     = Z.min 100 (len calls).
Proof.
  assert (E : validation_history (log_all analytics_init calls)
              = last_n 100 (map log_entry_of calls)).
  { rewrite log_all_history; [reflexivity|simpl; lia]. }
  split; [exact E|].
  rewrite E. unfold len. rewrite last_n_length, length_map. lia.
Qed.

Lemma sum_counts_set (f : Stats.type_count -> Z) d k v :
  sum_counts f (dict_set d k v)
  = (sum_counts f d
     - match dict_get d k with Some o => f o | None => 0 end + f v)%Z.
Proof.
  induction d as [|[k' v'] d IH]; simpl; [lia|].
  destruct (str_eqb k' k); simpl; [lia|]. rewrite IH. lia.
Qed.

Lemma count_type_sums d entry :
  sum_counts Stats.total (count_type d entry) = (sum_counts Stats.total d + 1)%Z
  /\ sum_counts Stats.valid (count_type d entry)
     = (sum_counts Stats.valid d + if Log.valid entry then 1 else 0)%Z.
Proof.
  unfold count_type.
  destruct (dict_get d (Log.document_type entry)) as [c|] eqn:E.
  - rewrite E, !sum_counts_set, E. simpl.
    destruct (Log.valid entry); split; lia.
  - rewrite dict_get_set_same, !sum_counts_set, dict_get_set_same, E. simpl.
    destruct (Log.valid entry); split; lia.
Qed.

Lemma sum_if_cons (A : Type) (f : A -> bool) (a : A) (l : list A) :
  sum_if 1 f (a :: l) = ((if f a then 1 else 0) + sum_if 1 f l)%Z.
Proof.
  unfold sum_if. simpl.
  assert (G : forall l acc,
            fold_left (fun acc x => if f x then (acc + 1)%Z else acc) l acc
            = (acc + fold_left (fun acc x => if f x then acc + 1 else acc) l 0)%Z).
  { clear. induction l as [|x l IH]; intros acc; simpl; [lia|].
    destruct (f x).
    - rewrite (IH (acc + 1)%Z), (IH 1%Z). lia.
    - apply IH. }
  destruct (f a); [rewrite G; lia|reflexivity].
Qed.

Lemma sum_if_bounds (A : Type) (f : A -> bool) (l : list A) :
  (0 <= sum_if 1 f l <= len l)%Z.
Proof.
  induction l as [|a l IH]; [unfold sum_if, len; simpl; lia|].
  rewrite sum_if_cons. unfold len in *. simpl List.length.
  destruct (f a); lia.
Qed.

Lemma fold_count_type_sums entries d :
  sum_counts Stats.total (fold_left count_type entries d)
  = (sum_counts Stats.total d + len entries)%Z
  /\ sum_counts Stats.valid (fold_left count_type entries d)
     = (sum_counts Stats.valid d + sum_if 1 Log.valid entries)%Z.
Proof.
  revert d. induction entries as [|e entries IH]; intros d.
  - unfold len, sum_if. simpl. split; lia.
  - simpl fold_left. destruct (IH (count_type d e)) as [H1 H2].
    destruct (count_type_sums d e) as [H3 H4].
    rewrite H1, H2, H3, H4, sum_if_cons. unfold len. simpl List.length.
    split; lia.
Qed.

(** The statistics add up.  The total is the length of the history,
    the valid count is the number of its valid entries, and the valid
    and the invalid reports make the total.  For an empty history the
    result is the four zeros and nothing else.  For any other history
    the success rate is [round((valid / total) * 100, 1)], a percentage
    between 0 and 100, and there is a breakdown by type whose totals and
    valid counts sum to the overall ones. *)
Theorem statistics_add_up (self : analytics) :
  let s := get_statistics self in
  let history := validation_history self in
  Stats.total_count s = len history
  /\ Stats.valid_count s = sum_if 1 Log.valid history
  /\ (Stats.valid_count s + Stats.invalid s = Stats.total_count s)%Z
  /\ (0 <= Stats.valid_count s <= Stats.total_count s)%Z
  /\ (0 <= Stats.success_rate s <= 100)%Q
  /\ (history = [] ->
      s = {| Stats.total_count := 0; Stats.valid_count := 0; Stats.invalid := 0;
             Stats.success_rate := 0; Stats.rest := None |})
  /\ (history <> [] ->
      Stats.success_rate s
      = round1 (fmul (true_div (Stats.valid_count s) (Stats.total_count s)) 100)
      /\ exists d,
           Stats.rest s = Some d
           /\ sum_counts Stats.total (Stats.document_types d) = Stats.total_count s
           /\ sum_counts Stats.valid (Stats.document_types d) = Stats.valid_count s).
Proof.
  cbv zeta. unfold get_statistics.
  destruct (validation_history self) as [|e l] eqn:E.
  - cbn [Stats.total_count Stats.valid_count Stats.invalid Stats.success_rate].
    change (len (@nil Log.entry)) with 0%Z.
    change (sum_if 1 Log.valid (@nil Log.entry)) with 0%Z.
    split; [reflexivity|]. split; [reflexivity|]. split; [reflexivity|].
    split; [lia|]. split; [split; discriminate|].
    split; [reflexivity|]. intros H. contradiction H. reflexivity.
  - rewrite <- E. cbn [Stats.total_count Stats.valid_count Stats.invalid
                         Stats.success_rate Stats.rest Stats.document_types].
    pose proof (sum_if_bounds Log.valid (validation_history self)) as Hv.
    assert (Hpos : (0 < len (validation_history self))%Z)
      by (rewrite E; apply len_cons_pos).
    assert (Hlt : (0 <? len (validation_history self))%Z = true)
      by now apply Z.ltb_lt.
    rewrite Hlt.
    split; [reflexivity|]. split; [reflexivity|]. split; [lia|]. split; [lia|].
    split; [|split].
    + apply round1_bounds. apply float_percent.
      pose proof (true_div_unit Hv Hpos) as Hr.
      revert Hr. generalize (true_div (sum_if 1 Log.valid (validation_history self))
                                      (len (validation_history self))).
      intros q Hq. lra.
    + intros H. rewrite H in E. discriminate E.
    + intros _. split; [reflexivity|]. eexists. split; [reflexivity|].
      cbn [Stats.document_types].
      destruct (fold_count_type_sums (validation_history self) []) as [H1 H2].
      rewrite H1, H2. simpl. split; lia.
Qed.

(* ================================================================== *)
(** * Further properties of the classifier *)

Lemma sum_if_weight_bounds (A : Type) (w : Z) (f : A -> bool) (l : list A) :
  (0 <= w)%Z -> (0 <= sum_if w f l <= w * len l)%Z.
Proof.
  intros Hw. unfold sum_if.
  assert (G : forall l acc,
            (acc <= fold_left (fun acc x => if f x then (acc + w)%Z else acc) l acc
             <= acc + w * len l)%Z).
  { clear l. induction l as [|x l IH]; intros acc; simpl.
    - unfold len. simpl. lia.
    - specialize (IH (if f x then (acc + w)%Z else acc)).
      unfold len in *. simpl List.length. destruct (f x); nia. }
  specialize (G l 0%Z). lia.
Qed.

Lemma weighted_term_nonneg (n : Z) (w : Q) :
  (0 <= n)%Z -> (0 <= w)%Q -> (0 <= fmul (float_of_int n) (float w))%Q.
Proof.
  intros Hn Hw. apply fmul_nonneg; apply float_nonneg; [|exact Hw].
  change 0%Q with (inject_Z 0). now rewrite <- Zle_Qle.
Qed.

Lemma weighted_total_nonneg (b : Score.breakdown) :
  (0 <= Score.keywords b)%Z -> (0 <= Score.patterns b)%Z ->
  (0 <= Score.context b)%Z -> (0 <= Score.structure b)%Z ->
  (0 <= weighted_total b)%Q.
Proof.
  intros Hk Hp Hc Hs. unfold weighted_total.
  pose proof (@weighted_term_nonneg (Score.keywords b) 0.4 Hk ltac:(discriminate)) as T1.
  pose proof (@weighted_term_nonneg (Score.patterns b) 0.3 Hp ltac:(discriminate)) as T2.
  pose proof (@weighted_term_nonneg (Score.context b) 0.2 Hc ltac:(discriminate)) as T3.
  pose proof (@weighted_term_nonneg (Score.structure b) 0.1 Hs ltac:(discriminate)) as T4.
  revert T1 T2 T3 T4.
  generalize (fmul (float_of_int (Score.keywords b)) (float 0.4)).
  generalize (fmul (float_of_int (Score.patterns b)) (float 0.3)).
  generalize (fmul (float_of_int (Score.context b)) (float 0.2)).
  generalize (fmul (float_of_int (Score.structure b)) (float 0.1)).
  intros t4 t3 t2 t1 T1 T2 T3 T4.
  assert (S2 : (0 <= fadd t1 t2)%Q) by (apply float_nonneg; lra).
  assert (S3 : (0 <= fadd (fadd t1 t2) t3)%Q) by (apply float_nonneg; lra).
  apply float_nonneg. lra.
Qed.

Section ClassifierRanges.
Context {U : Unicode}.

Lemma split_acc_length (s cur : str) :
  (List.length (split_acc s cur)
   <= List.length s + match cur with [] => 0 | _ :: _ => 1 end)%nat.
Proof.
  revert cur. induction s as [|c t IH]; intros cur; simpl.
  - destruct cur; simpl; lia.
  - destruct (is_space c).
    + destruct cur; simpl; [specialize (IH []); simpl in IH; lia|].
      specialize (IH []). simpl in IH. lia.
    + specialize (IH (c :: cur)). simpl in IH. destruct cur; lia.
Qed.

(** The signals of a text: there are at most as many words as
    characters, a date implies a digit, and the empty text has no
    signal at all. *)
Theorem text_analysis_facts (text : str) :
  let a := advanced_text_analysis text in
  Analysis.text_length a = len text
  /\ (0 <= Analysis.word_count a <= Analysis.text_length a)%Z
  /\ implb (Analysis.has_dates a) (Analysis.has_numbers a) = true
  /\ advanced_text_analysis []
     = {| Analysis.text_length := 0; Analysis.word_count := 0;
          Analysis.has_numbers := false; Analysis.has_dates := false;
          Analysis.has_government_terms := false;
          Analysis.language_mix := false |}.
Proof.
  cbv zeta. unfold advanced_text_analysis.
  cbn [Analysis.text_length Analysis.word_count Analysis.has_dates
       Analysis.has_numbers].
  split; [reflexivity|]. split; [|split; [|reflexivity]].
  - pose proof (split_acc_length text []) as H. unfold split, len. simpl in H. lia.
  - pose proof (date_has_digit text) as H.
    destruct (re_found false "\d{1,2}[/-]\d{1,2}[/-]\d{4}" text); [|reflexivity].
    now rewrite H.
Qed.

Lemma keyword_step_cases text_normalized (score : Z) (matched : list str) k :
  let r := keyword_step text_normalized (score, matched) k in
  (fst r = (score + 3)%Z /\ snd r = matched ++ [k])
  \/ ((score <= fst r <= score + 1)%Z /\ snd r = matched).
Proof.
  cbv zeta. unfold keyword_step.
  destruct (contains text_normalized (lower k)); [left; split; reflexivity|].
  right. destruct (any _ _); cbn [fst snd]; split; try reflexivity; lia.
Qed.

Lemma keyword_fold_bounds text_normalized (kws : list str) (acc : Z * list str) :
  let r := fold_left (keyword_step text_normalized) kws acc in
  (fst acc + 3 * (len (snd r) - len (snd acc)) <= fst r <= fst acc + 3 * len kws)%Z
  /\ (len (snd acc) <= len (snd r))%Z
  /\ incl (snd r) (snd acc ++ kws).
Proof.
  cbv zeta. revert acc.
  induction kws as [|k kws IH]; intros [score matched]; cbn [fold_left fst snd].
  - change (len (@nil str)) with 0%Z.
    split; [lia|]. split; [lia|].
    rewrite app_nil_r. apply incl_refl.
  - specialize (IH (keyword_step text_normalized (score, matched) k)).
    pose proof (keyword_step_cases text_normalized score matched k) as Hs.
    cbv zeta in Hs.
    destruct (keyword_step text_normalized (score, matched) k) as [s' m'].
    cbn [fst snd] in IH, Hs. destruct IH as [H1 [H2 H3]].
    assert (Hl : len (k :: kws) = (1 + len kws)%Z)
      by (unfold len; cbn [List.length]; lia).
    rewrite Hl.
    destruct Hs as [[Ha Hb]|[Ha Hb]]; subst m'.
    + rewrite len_app in H1, H2. change (len [k]) with 1%Z in H1, H2.
      split; [lia|]. split; [lia|]. now rewrite <- app_assoc in H3.
    + split; [lia|]. split; [lia|].
      intros x Hx. apply H3 in Hx. apply in_app_or in Hx as [Hx|Hx];
        apply in_or_app; [now left|right; now right].
Qed.

Lemma pattern_fold_bounds text doc_type (pats : list (str * string)) score :
  (score <= fold_left (pattern_step text doc_type) pats score
   <= score + 5 * len pats)%Z.
Proof.
  revert score. induction pats as [|[n p] pats IH]; intros score; simpl.
  - unfold len. simpl. lia.
  - unfold len in *. simpl List.length.
    destruct (re_found true p text).
    + destruct (_ && _); [specialize (IH (score + 2 + 3)%Z)
                          |specialize (IH (score + 2)%Z)]; lia.
    + specialize (IH score). lia.
Qed.

(** The ranges of the four signals of a type: the keyword score is at
    least 3 per matched keyword and at most 3 per keyword, the matched
    keywords are keywords of the type, the pattern score is at most 5 per
    pattern, the context score at most 21, the structure score at most
    4; no signal and no total is negative. *)
Theorem score_ranges (text doc_type : str) (config : doc_config) :
  let s := score_type text doc_type config in
  let b := Score.score_breakdown s in
  (3 * len (Score.matched_keywords s) <= Score.keywords b
   <= 3 * len (keywords config))%Z
  /\ incl (Score.matched_keywords s) (keywords config)
  /\ (0 <= Score.patterns b <= 5 * len (patterns config))%Z
  /\ (0 <= Score.context b <= 21)%Z
  /\ (0 <= Score.structure b <= 4)%Z
  /\ (0 <= Score.total s)%Q.
Proof.
  cbv zeta. unfold score_type.
  pose proof (keyword_fold_bounds
                (join (py " ") (split (lower text))) (keywords config)
                (0%Z, [])) as Hk.
  cbv zeta in Hk.
  destruct (fold_left _ (keywords config) (0%Z, [])) as [ks mk].
  cbn [fst snd] in Hk. destruct Hk as [Hk1 [Hk2 Hk3]].
  cbn [Score.score_breakdown Score.matched_keywords Score.keywords Score.patterns
       Score.context Score.structure Score.total].
  pose proof (pattern_fold_bounds text doc_type (patterns config) 0) as Hp.
  assert (Hc : (0 <= context_score text (lower text) doc_type <= 21)%Z).
  { unfold context_score. cbv zeta.
    repeat match goal with
           | |- context [if str_eqb ?a ?b then _ else _] => destruct (str_eqb a b)
           end; try lia;
    match goal with
    | |- context [sum_if 2 ?f ?l] =>
      pose proof (@sum_if_weight_bounds _ 2 f l ltac:(lia)) as Hs;
      assert (Hl : (len l <= 8)%Z)
        by (unfold len, pys; cbn [map List.length]; lia)
    end; try (destruct (re_found false _ text)); lia. }
  assert (Hs : (0 <= structure_points (advanced_text_analysis text) doc_type <= 4)%Z).
  { unfold structure_points.
    repeat match goal with
           | |- context [if ?c then _ else _] => destruct c
           end; lia. }
  change (len (@nil str)) with 0%Z in Hk1.
  split; [lia|]. split; [exact Hk3|]. split; [lia|]. split; [exact Hc|].
  split; [exact Hs|].
  apply weighted_total_nonneg;
    cbn [Score.keywords Score.patterns Score.context Score.structure];
    try lia.
  pose proof (len_nonneg mk). lia.
Qed.

End ClassifierRanges.

(* ================================================================== *)
(** * The patterns of the source *)

(** Every pattern of the source is a pattern: none falls back to the
    pattern that matches nothing. *)
Lemma patterns_compile : forallb compiles source_patterns = true.
Proof. vm_compute. reflexivity. Qed.

(* ================================================================== *)
(** * Further properties of the data extraction *)

Lemma aadhaar_number_pattern :
  re "\b(\d{4})[\s\-]*(\d{4})[\s\-]*(\d{4})\b"
  = let four := Repeat 4 (Some 4%nat) true (InSet false [CCat CatDigit]) in
    let gap := Repeat 0 None true (InSet false [CCat CatSpace; CChar 45%N]) in
    Cat Boundary
        (Cat (Group 1 four)
             (Cat gap (Cat (Group 2 four) (Cat gap (Cat (Group 3 four) Boundary))))).
Proof. vm_compute. reflexivity. Qed.

Section StructuredData.
Context {U : Unicode}.

Lemma run_other_groups ci r n st st' :
  no_group n r = true -> In st' (run ci r st) ->
  group_lookup (m_groups st') n = group_lookup (m_groups st) n.
Proof.
  revert st st'.
  induction r as [| l | | neg items | | a IHa b IHb | a IHa b IHb
                  | lo hi g a IHa | k a IHa]; intros st st' Hn; simpl in *.
  - intros [<-|[]]. reflexivity.
  - intros H. now rewrite (step_groups _ _ _ H).
  - intros H. now rewrite (step_groups _ _ _ H).
  - intros H. now rewrite (step_groups _ _ _ H).
  - destruct (xorb _ _); [intros [<-|[]]; reflexivity|intros []].
  - apply andb_true_iff in Hn as [Ha Hb]. intros H.
    apply in_flat_map in H as [mid [H1 H2]].
    rewrite (IHb _ _ Hb H2). apply (IHa _ _ Ha H1).
  - apply andb_true_iff in Hn as [Ha Hb]. intros H.
    apply in_app_or in H as [H|H]; [apply (IHa _ _ Ha H)|apply (IHb _ _ Hb H)].
  - intros H.
    eapply (@iterate_keeps
              (fun s => group_lookup (m_groups s) n
                        = group_lookup (m_groups st) n));
      [|exact H|reflexivity].
    intros s s' Hs Hp. rewrite (IHa _ _ Hn Hs). exact Hp.
  - apply andb_true_iff in Hn as [Hk Ha]. intros H.
    apply in_map_iff in H as [mid [<- H]]. simpl.
    apply negb_true_iff in Hk. rewrite Hk. apply (IHa _ _ Ha H).
Qed.

Lemma step_inv p st st' :
  In st' (step p st) -> exists c, m_rest st = c :: m_rest st' /\ p c = true.
Proof.
  unfold step. destruct (m_rest st) as [|c t]; simpl; [tauto|].
  destruct (p c) eqn:E; simpl; [|tauto].
  intros [<-|[]]. exists c. simpl. auto.
Qed.

Lemma iterate_exact f (P : char -> Prop) n g :
  (forall s s', In s' (f s) -> exists c, m_rest s = c :: m_rest s' /\ P c) ->
  forall st st', In st' (iterate f n n g st) ->
    exists w, m_rest st = w ++ m_rest st' /\ List.length w = n /\ Forall P w.
Proof.
  intros Hf. induction n as [|n IH]; intros st st'; simpl.
  - intros [<-|[]]. exists []. auto.
  - intros H. apply in_flat_map in H as [mid [H1 H2]].
    apply Hf in H1 as [c [E Hc]]. apply IH in H2 as [w [E' [Hl Hw]]].
    exists (c :: w). rewrite E, E'. simpl. auto.
Qed.

Lemma consumed_prefix (w : str) st st' :
  m_rest st = w ++ m_rest st' -> consumed (m_rest st) st' = w.
Proof.
  intros E. unfold consumed. rewrite E, length_app.
  replace (List.length w + List.length (m_rest st') - List.length (m_rest st'))%nat
    with (List.length w) by lia.
  rewrite firstn_app, firstn_all, Nat.sub_diag. simpl. apply app_nil_r.
Qed.

Lemma run_cat ci a b st st' :
  In st' (run ci (Cat a b) st) ->
  exists mid, In mid (run ci a st) /\ In st' (run ci b mid).
Proof. simpl. intros H. apply in_flat_map in H. exact H. Qed.

(** A group of four digits, and what follows it. *)
Lemma run_four_digits ci n b st st' :
  no_group n b = true ->
  In st' (run ci (Cat (Group n (Repeat 4 (Some 4%nat) true
                                       (InSet false [CCat CatDigit]))) b) st) ->
  exists w mid,
    four_digits w
    /\ group_lookup (m_groups st') n = Some w
    /\ In st' (run ci b mid).
Proof.
  intros Hn H. apply run_cat in H as [mid [H1 H2]].
  cbn [run] in H1. apply in_map_iff in H1 as [e [E H1]].
  apply (@iterate_exact _ (fun c => is_digit c = true)) in H1 as [w [Ew [Hl Hw]]].
  - exists w, mid. split; [split; assumption|]. split; [|exact H2].
    rewrite (@run_other_groups _ _ _ _ _ Hn H2). subst mid.
    cbn [m_groups group_lookup].
    rewrite Nat.eqb_refl. now rewrite (@consumed_prefix w st e Ew).
  - intros s s' Hs. apply step_inv in Hs as [c [E1 E2]]. exists c. split; [exact E1|].
    unfold set_match in E2. cbn [existsb item_match cat_match] in E2.
    rewrite xorb_false_l, orb_false_r in E2. exact E2.
Qed.

Lemma aadhaar_number_groups text m :
  re_search false "\b(\d{4})[\s\-]*(\d{4})[\s\-]*(\d{4})\b" text = Some m ->
  exists a b c,
    group m 1 = Some a /\ group m 2 = Some b /\ group m 3 = Some c
    /\ four_digits a /\ four_digits b /\ four_digits c.
Proof.
  unfold re_search. rewrite aadhaar_number_pattern. cbv zeta.
  intros H. apply search_from_some in H as [pre [_ H]].
  apply run_cat in H as [s0 [_ H]].
  apply run_four_digits in H as [a [s1 [Ha [Ga H]]]]; [|reflexivity].
  apply run_cat in H as [s2 [_ H]].
  apply run_four_digits in H as [b [s3 [Hb [Gb H]]]]; [|reflexivity].
  apply run_cat in H as [s4 [_ H]].
  apply run_four_digits in H as [c [s5 [Hc [Gc H]]]]; [|reflexivity].
  exists a, b, c. unfold group. auto 10.
Qed.

Lemma lstrip_suffix (s : str) : exists pre, s = pre ++ lstrip s.
Proof.
  induction s as [|c t [pre IH]]; simpl.
  - now exists [].
  - destruct (is_space c); [|now exists []].
    exists (c :: pre). simpl. now rewrite <- IH.
Qed.

Lemma lstrip_head (s : str) :
  match lstrip s with c :: _ => is_space c = false | [] => True end.
Proof.
  induction s as [|c t IH]; simpl; [exact I|].
  destruct (is_space c) eqn:E; [exact IH|exact E].
Qed.

Lemma lstrip_fixed (s : str) :
  match s with c :: _ => is_space c = false | [] => True end -> lstrip s = s.
Proof. destruct s as [|c t]; simpl; [reflexivity|]. now intros ->. Qed.

Lemma strip_strip (s : str) : strip (strip s) = strip s.
Proof.
  unfold strip. set (t := lstrip s).
  assert (Ht : match t with c :: _ => is_space c = false | [] => True end)
    by apply lstrip_head.
  assert (Hr : lstrip (rstrip t) = rstrip t).
  { apply lstrip_fixed. unfold rstrip.
    destruct (lstrip_suffix (rev t)) as [pre E].
    apply (f_equal (@rev char)) in E. rewrite rev_involutive, rev_app_distr in E.
    destruct (rev (lstrip (rev t))) as [|c r]; [exact I|].
    rewrite E in Ht. exact Ht. }
  rewrite Hr. unfold rstrip. rewrite rev_involutive.
  rewrite (lstrip_fixed (lstrip (rev t))); [reflexivity|apply lstrip_head].
Qed.

Lemma dict_set_in (V : Type) (d : list (str * V)) k v k' v' :
  In (k', v') (dict_set d k v) -> (k' = k /\ v' = v) \/ In (k', v') d.
Proof.
  induction d as [|[k0 v0] d IH]; simpl.
  - intros [E|[]]. injection E as <- <-. auto.
  - destruct (str_eqb k0 k) eqn:E; simpl.
    + apply str_eqb_eq in E. subst k0.
      intros [E'|H]; [injection E' as <- <-; auto|auto].
    + intros [E'|H]; [auto|]. apply IH in H as [H|H]; auto.
Qed.

Lemma structured_nil : structured [].
Proof. split; [intros k v []|intros v H; discriminate H]. Qed.

Lemma structured_set d k s :
  structured d ->
  In k (pys ["aadhaar_number"; "name"; "dob"; "gender"]) ->
  (k = py "name" -> strip s = s) ->
  structured (dict_set d k (Some s)).
Proof.
  intros [H1 H2] Hk Hs. split.
  - intros k' v' H. apply dict_set_in in H as [[-> ->]|H]; [|now apply H1].
    split; [exact Hk|now exists s].
  - intros v. destruct (str_eqb k (py "name")) eqn:E.
    + apply str_eqb_eq in E. subst k. rewrite dict_get_set_same.
      intros H. injection H as <-. now apply Hs.
    + apply str_eqb_neq in E. rewrite (dict_get_set_other _ _ E). apply H2.
Qed.

Lemma extract_name_cases patterns text d :
  Forall (fun p => always_captures 1 (re p) = true) patterns ->
  extract_name patterns text d = Returns d
  \/ exists s, extract_name patterns text d
               = Returns (dict_set d (py "name") (Some (strip s))).
Proof.
  induction 1 as [|p patterns Hp _ IH]; simpl; [now left|].
  destruct (re_search true p text) as [m|] eqn:E; [|exact IH].
  destruct (@search_captures _ _ _ _ _ Hp E) as [s ->]. right. now exists s.
Qed.

(** The steps of [extract_structured_data] on an Aadhaar text. *)
Lemma structured_data_steps text :
  exists d0 d1 d2,
    d0 = match re_search false "\b(\d{4})[\s\-]*(\d{4})[\s\-]*(\d{4})\b" text with
         | Some m =>
           [(py "aadhaar_number",
             Some (format_value (group m 1) ++ py " " ++ format_value (group m 2)
                   ++ py " " ++ format_value (group m 3)))]
         | None => []
         end
    /\ (d1 = d0 \/ exists s, d1 = dict_set d0 (py "name") (Some (strip s)))
    /\ (d2 = d1 \/ exists s, d2 = dict_set d1 (py "dob") (Some s))
    /\ extract_structured_data text (py "aadhaar")
       = Returns (if re_found true "\b(male|पुरुष)\b" text
                  then dict_set d2 (py "gender") (Some (py "Male"))
                  else if re_found true "\b(female|महिला)\b" text
                  then dict_set d2 (py "gender") (Some (py "Female"))
                  else d2).
Proof.
  unfold extract_structured_data.
  replace (str_eqb (py "aadhaar") (py "aadhaar")) with true
    by (symmetry; apply str_eqb_refl).
  match goal with
  | |- context [extract_name name_patterns text ?d] => set (e0 := d)
  end.
  assert (Hc : Forall (fun p => always_captures 1 (re p) = true) name_patterns)
    by (repeat constructor).
  exists e0.
  destruct (extract_name_cases text e0 Hc) as [E|[s E]]; rewrite E.
  - exists e0.
    destruct (re_search true _ text) as [m|] eqn:Ed.
    + assert (Es : exists s, group m 1 = Some s)
        by (eapply search_captures; [|exact Ed]; reflexivity).
      destruct Es as [s Es]. rewrite Es.
      exists (dict_set e0 (py "dob") (Some s)).
      split; [|split; [now left|split; [right; now exists s|reflexivity]]].
      unfold e0. destruct (re_search false _ text); reflexivity.
    + exists e0.
      split; [|split; [now left|split; [now left|reflexivity]]].
      unfold e0. destruct (re_search false _ text); reflexivity.
  - exists (dict_set e0 (py "name") (Some (strip s))).
    destruct (re_search true _ text) as [m|] eqn:Ed.
    + assert (Es : exists s', group m 1 = Some s')
        by (eapply search_captures; [|exact Ed]; reflexivity).
      destruct Es as [s' Es]. rewrite Es.
      exists (dict_set (dict_set e0 (py "name") (Some (strip s))) (py "dob") (Some s')).
      split; [|split; [right; now exists s|split; [right; now exists s'|reflexivity]]].
      unfold e0. destruct (re_search false _ text); reflexivity.
    + exists (dict_set e0 (py "name") (Some (strip s))).
      split; [|split; [right; now exists s|split; [now left|reflexivity]]].
      unfold e0. destruct (re_search false _ text); reflexivity.
Qed.

Lemma structured_data_before_gender text d0 d1 d2 :
  d0 = match re_search false "\b(\d{4})[\s\-]*(\d{4})[\s\-]*(\d{4})\b" text with
       | Some m =>
         [(py "aadhaar_number",
           Some (format_value (group m 1) ++ py " " ++ format_value (group m 2)
                 ++ py " " ++ format_value (group m 3)))]
       | None => []
       end ->
  (d1 = d0 \/ exists s, d1 = dict_set d0 (py "name") (Some (strip s))) ->
  (d2 = d1 \/ exists s, d2 = dict_set d1 (py "dob") (Some s)) ->
  structured d2
  /\ dict_get d2 (py "gender") = None
  /\ dict_get d2 (py "aadhaar_number") = dict_get d0 (py "aadhaar_number").
Proof.
  intros E0 E1 E2.
  assert (S0 : structured d0 /\ dict_get d0 (py "gender") = None).
  { subst d0. destruct (re_search false _ text) as [m|].
    - split; [|reflexivity].
      apply (@structured_set [] (py "aadhaar_number") _ structured_nil).
      + vm_compute. tauto.
      + intros E. vm_compute in E. discriminate E.
    - split; [apply structured_nil|reflexivity]. }
  destruct S0 as [S0 G0].
  assert (S1 : structured d1 /\ dict_get d1 (py "gender") = None
               /\ dict_get d1 (py "aadhaar_number")
                  = dict_get d0 (py "aadhaar_number")).
  { destruct E1 as [->|[s ->]]; [auto|].
    split; [|split].
    - apply structured_set; [exact S0|vm_compute; tauto|].
      intros _. apply strip_strip.
    - rewrite dict_get_set_other; [exact G0|].
      intros E. vm_compute in E. discriminate E.
    - apply dict_get_set_other. intros E. vm_compute in E. discriminate E. }
  destruct S1 as [S1 [G1 A1]].
  destruct E2 as [->|[s ->]]; [auto|].
  split; [|split].
  - apply structured_set; [exact S1|vm_compute; tauto|].
    intros E. vm_compute in E. discriminate E.
  - rewrite dict_get_set_other; [exact G1|].
    intros E. vm_compute in E. discriminate E.
  - rewrite dict_get_set_other; [exact A1|].
    intros E. vm_compute in E. discriminate E.
Qed.

(** [extract_structured_data] never raises.  For a type other than
    [aadhaar] it returns the empty dictionary; otherwise its keys are
    among [aadhaar_number], [name], [dob] and [gender], every value is a
    string, the name has no white space around it, and the gender is
    [Male] whenever the word male occurs, whether or not female does. *)
Theorem structured_data_shape (text t : str) :
  exists d,
    extract_structured_data text t = Returns d
    /\ (t <> py "aadhaar" -> d = [])
    /\ structured d
    /\ (t = py "aadhaar" ->
        dict_get d (py "gender")
        = if re_found true "\b(male|पुरुष)\b" text then Some (Some (py "Male"))
          else if re_found true "\b(female|महिला)\b" text
          then Some (Some (py "Female"))
          else None).
Proof.
  destruct (str_eqb t (py "aadhaar")) eqn:E.
  - apply str_eqb_eq in E. subst t.
    destruct (structured_data_steps text) as (d0 & d1 & d2 & E0 & E1 & E2 & Er).
    destruct (@structured_data_before_gender text d0 d1 d2 E0 E1 E2) as (S2 & G2 & _).
    eexists. split; [exact Er|].
    split; [intros H; contradiction H; reflexivity|].
    destruct (re_found true "\b(male|पुरुष)\b" text);
      [|destruct (re_found true "\b(female|महिला)\b" text)].
    + split; [|intros _; apply dict_get_set_same].
      apply structured_set; [exact S2|vm_compute; tauto|].
      intros E. vm_compute in E. discriminate E.
    + split; [|intros _; apply dict_get_set_same].
      apply structured_set; [exact S2|vm_compute; tauto|].
      intros E. vm_compute in E. discriminate E.
    + split; [exact S2|intros _; exact G2].
  - exists []. unfold extract_structured_data. rewrite E.
    split; [reflexivity|]. split; [reflexivity|]. split; [apply structured_nil|].
    intros ->. rewrite str_eqb_refl in E. discriminate E.
Qed.

(** An extracted Aadhaar number is always three blocks of four decimal
    digits with one space between them, 14 characters, however the
    blocks were separated in the text. *)
Theorem aadhaar_number_format (text t : str) (d : list (str * option str))
        (v : option str) :
  extract_structured_data text t = Returns d ->
  dict_get d (py "aadhaar_number") = Some v ->
  t = py "aadhaar"
  /\ exists a b c,
       v = Some (a ++ py " " ++ b ++ py " " ++ c)
       /\ four_digits a /\ four_digits b /\ four_digits c
       /\ len (a ++ py " " ++ b ++ py " " ++ c) = 14%Z.
Proof.
  intros Hr Hv.
  destruct (str_eqb t (py "aadhaar")) eqn:E.
  - apply str_eqb_eq in E. subst t. split; [reflexivity|].
    destruct (structured_data_steps text) as (d0 & d1 & d2 & E0 & E1 & E2 & Er).
    destruct (@structured_data_before_gender text d0 d1 d2 E0 E1 E2) as (_ & _ & A2).
    rewrite Er in Hr. injection Hr as <-.
    assert (H0 : dict_get d0 (py "aadhaar_number") = Some v).
    { rewrite <- A2.
      destruct (re_found true "\b(male|पुरुष)\b" text);
        [|destruct (re_found true "\b(female|महिला)\b" text)];
        try exact Hv;
        rewrite dict_get_set_other in Hv; try exact Hv;
        intros E; vm_compute in E; discriminate E. }
    rewrite E0 in H0.
    destruct (re_search false _ text) as [m|] eqn:Em; [|discriminate H0].
    destruct (@aadhaar_number_groups text m Em) as (a & b & c & Ga & Gb & Gc & Ha & Hb & Hc).
    rewrite Ga, Gb, Gc in H0. cbn [format_value] in H0.
    change (dict_get [(py "aadhaar_number", Some (a ++ py " " ++ b ++ py " " ++ c))]
                     (py "aadhaar_number"))
      with (Some (Some (a ++ py " " ++ b ++ py " " ++ c))) in H0.
    injection H0 as <-.
    exists a, b, c. split; [reflexivity|]. split; [exact Ha|].
    split; [exact Hb|]. split; [exact Hc|].
    destruct Ha as [La _], Hb as [Lb _], Hc as [Lc _].
    unfold len. rewrite !length_app, La, Lb, Lc. reflexivity.
  - unfold extract_structured_data in Hr. rewrite E in Hr.
    injection Hr as <-. discriminate Hv.
Qed.

End StructuredData.

Lemma aadhaar_number_format_witness :
  let text := py "Aadhaar 1234-5678   9012 Male DOB: 01/01/1990" in
  exists d,
    extract_structured_data (U := example_unicode) text (py "aadhaar") = Returns d
    /\ dict_get d (py "aadhaar_number") = Some (Some (py "1234 5678 9012"))
    /\ exists a b c,
         Some (py "1234 5678 9012") = Some (a ++ py " " ++ b ++ py " " ++ c)
         /\ four_digits (U := example_unicode) a
         /\ four_digits (U := example_unicode) b
         /\ four_digits (U := example_unicode) c
         /\ len (a ++ py " " ++ b ++ py " " ++ c) = 14%Z.
Proof.
  intros text. eexists.
  split; [vm_compute; reflexivity|].
  split; [vm_compute; reflexivity|].
  eapply proj2.
  eapply (@aadhaar_number_format example_unicode text (py "aadhaar"));
    vm_compute; reflexivity.
Defined.
